(** * github_pr_automation: cache store, quota monitor, retry policy and
      the aggregation functions built on them

    A shallow embedding of [src/rate_limiter.py], [src/cache_manager.py]
    and of the listing and aggregation methods of [src/github_stats.py],
    followed by the properties stated about them.

    Conventions.
    - Python [int]s are [Z]; [datetime] values and durations are [Z] counts
      of microseconds (the resolution of [datetime]); float arithmetic on
      them is taken as exact.
    - A raised exception is a value of [pyexn]; a call that may raise
      returns an [outcome].
    - Console output and logging are not part of the state. *)

From Stdlib Require Import ZArith List String Bool Lia Permutation Sorted.
From stdpp Require Import base option list strings gmap fin_maps.
Import ListNotations.
Local Open Scope Z_scope.

(** ** Python values, exceptions and outcomes *)

Module Py.

(** The exception classes the code distinguishes.  [HTTPError] carries
    [e.response.status_code]. *)
Inductive pyexn : Type :=
| HTTPError (status_code : Z)
| ConnectionError
| TypeError
| ValueError
| KeyError
| IOError
| JSONDecodeError
| OtherException (name : string).

Inductive outcome (A : Type) : Type :=
| Returned (a : A)
| Raised (e : pyexn).
Arguments Returned {A} a.
Arguments Raised {A} e.

(** Values that travel through [json] and the cache: the JSON-shaped
    Python values ([None], booleans, integers, strings, lists, dicts with
    string keys), and [PObject] for an instance of any other class. *)
#[warnings="-register-all"]
Inductive pyval : Type :=
| PNone
| PBool (b : bool)
| PInt (n : Z)
| PStr (s : string)
| PList (l : list pyval)
| PDict (d : list (string * pyval))
| PObject (cls : string).

(** Truth value of [if v:]. *)
Definition py_truthy (v : pyval) : bool :=
  match v with
  | PNone => false
  | PBool b => b
  | PInt n => negb (n =? 0)
  | PStr s => negb (String.eqb s EmptyString)
  | PList l => match l with [] => false | _ => true end
  | PDict d => match d with [] => false | _ => true end
  | PObject _ => true
  end.

(** [len(v)]; [TypeError] on a value without a length. *)
Definition py_len (v : pyval) : outcome Z :=
  match v with
  | PStr s => Returned (Z.of_nat (String.length s))
  | PList l => Returned (Z.of_nat (List.length l))
  | PDict d => Returned (Z.of_nat (List.length d))
  | _ => Raised TypeError
  end.

(** [d.get(k)] and [k in d] on a dict kept as its items in insertion
    order. *)
Fixpoint dict_get {V : Type} (k : string) (d : list (string * V)) : option V :=
  match d with
  | [] => None
  | (k', v) :: rest => if String.eqb k' k then Some v else dict_get k rest
  end.

Definition dict_mem {V : Type} (k : string) (d : list (string * V)) : bool :=
  match dict_get k d with Some _ => true | None => false end.

(** [v == 'text'] for a value [v] read from a dict. *)
Definition py_eq_str (v : pyval) (text : string) : bool :=
  match v with PStr s => String.eqb s text | _ => false end.

(** What the program uses of [hashlib] and [json].  [json.dump] writes
    its output chunk by chunk, so a failing dump leaves the text written
    so far. *)
Inductive dump_result : Type :=
| Dumped (text : string)
| DumpRaised (e : pyexn) (written : string).

Class PyLib : Type := {
  md5_hexdigest : string -> string;
  json_dump : pyval -> dump_result;
  json_load : string -> outcome pyval
}.

End Py.
Import Py.

(** ** The environment of a run *)

Module Env.

Definition second : Z := 1000000.
Definition hour : Z := 3600 * second.

(** Answer of the quota endpoint: the [resources.core] object, or a
    failure of the call (transport error, bad status, bad body). *)
Inductive rate_limit_response : Type :=
| CoreOk (core_remaining core_limit core_reset core_used : Z)
| RequestFailed (e : pyexn).

Inductive request : Type :=
| GetRateLimit
| GetUserRepos (per_page page : Z)
| GetIssues (repo_name : string)
| GetLanguages (repo_name : string).

Record file : Type := { content : string; st_mtime : Z }.

(** [clock] is the wall clock; [quota_answers] are the answers the quota
    endpoint will give, in order; [slept] and [requests] record the
    calls to [time.sleep] and the HTTP requests issued so far;
    [cache_dir] is the cache directory, file name to file. *)
Record world : Type := {
  clock : Z;
  quota_answers : list rate_limit_response;
  slept : list Z;
  requests : list request;
  cache_dir : gmap string file
}.

(** [time.sleep(d)] for [d >= 0]: the clock moves by [d]. *)
Definition time_sleep (d : Z) (w : world) : world :=
  {| clock := clock w + d;
     quota_answers := quota_answers w;
     slept := slept w ++ [d];
     requests := requests w;
     cache_dir := cache_dir w |}.

(** [n] calls of [time.sleep(1)]. *)
Definition sleep_seconds (n : nat) (w : world) : world :=
  Nat.iter n (time_sleep second) w.

Definition log_request (r : request) (w : world) : world :=
  {| clock := clock w;
     quota_answers := quota_answers w;
     slept := slept w;
     requests := requests w ++ [r];
     cache_dir := cache_dir w |}.

Definition with_cache_dir (d : gmap string file) (w : world) : world :=
  {| clock := clock w;
     quota_answers := quota_answers w;
     slept := slept w;
     requests := requests w;
     cache_dir := d |}.

End Env.
Import Env.

(** ** rate_limiter.py *)

Module RateLimiter.

Record rate_info : Type := {
  remaining : Z;
  limit : Z;
  reset : Z;
  reset_datetime : Z;
  used : Z
}.

(** The fields of [RateLimitHandler] that change or are read. *)
Record RateLimitHandler : Type := {
  min_remaining : Z;
  last_check : option Z;
  last_rate_info : option rate_info
}.

Definition init (min_remaining : Z) : RateLimitHandler :=
  {| min_remaining := min_remaining; last_check := None; last_rate_info := None |}.

(** [requests.get(f'{base_url}/rate_limit', ...)] followed by
    [raise_for_status] and the reading of [data['resources']['core']]. *)
Definition get_rate_limit (w : world) : rate_limit_response * world :=
  let w1 := log_request GetRateLimit w in
  match quota_answers w with
  | [] => (RequestFailed ConnectionError, w1)
  | r :: rest =>
      (r, {| clock := clock w1; quota_answers := rest; slept := slept w1;
             requests := requests w1; cache_dir := cache_dir w1 |})
  end.

Definition fallback_rate_info (now : Z) : rate_info :=
  {| remaining := 5000; limit := 5000; reset := 0; reset_datetime := now; used := 0 |}.

Definition check_rate_limit (h : RateLimitHandler) (w : world)
  : rate_info * RateLimitHandler * world :=
  let (r, w1) := get_rate_limit w in
  match r with
  | CoreOk rem lim rst usd =>
      let info := {| remaining := rem; limit := lim; reset := rst;
                     reset_datetime := rst * second; used := usd |} in
      (info,
       {| min_remaining := min_remaining h;
          last_check := Some (clock w1);
          last_rate_info := Some info |},
       w1)
  | RequestFailed _ => (fallback_rate_info (clock w1), h, w1)
  end.

Definition get_cached_rate_info (h : RateLimitHandler) : option rate_info :=
  last_rate_info h.

(** The loop of [_wait_with_progress]: while the clock is before
    [end_time], sleep one second.  [fuel] bounds the iterations. *)
Fixpoint wait_loop (fuel : nat) (end_time : Z) (w : world) : world :=
  if clock w <? end_time then
    match fuel with
    | O => w
    | S fuel' => wait_loop fuel' end_time (time_sleep second w)
    end
  else w.

(** [_wait_with_progress(seconds)].  Each iteration moves the clock by
    one second, so [seconds / second + 1] iterations are never used up
    (lemma [wait_loop_deadline] below). *)
Definition wait_with_progress (seconds : Z) (w : world) : world :=
  wait_loop (Z.to_nat (seconds / second + 1)) (clock w + seconds) w.

(** [not force_check and self._last_check] and
    [time_since_check < 5]. *)
Definition recently_checked (force_check : bool) (h : RateLimitHandler) (w : world) : bool :=
  match last_check h with
  | Some checked => negb force_check && (clock w - checked <? 5 * second)
  | None => false
  end.

Definition wait_if_needed (force_check : bool) (h : RateLimitHandler) (w : world)
  : bool * RateLimitHandler * world :=
  if recently_checked force_check h w then (false, h, w)
  else
    let '(info, h1, w1) := check_rate_limit h w in
    if remaining info <? min_remaining h1 then
      let wait_seconds := reset_datetime info - clock w1 in
      if 0 <? wait_seconds
      then (true, h1, wait_with_progress (wait_seconds + 5 * second) w1)
      else (false, h1, w1)
    else (false, h1, w1).

(** The decorator [rate_limit_aware]: [wait_if_needed()] and then the
    function. *)
Definition rate_limit_aware {A : Type}
    (func : RateLimitHandler -> world -> A * RateLimitHandler * world)
    (h : RateLimitHandler) (w : world) : A * RateLimitHandler * world :=
  let '(_, h1, w1) := wait_if_needed false h w in
  func h1 w1.

(** *** with_retry *)

Section WithRetry.
Context {St A : Type}.
(** [sleep d s]: the effect of [time.sleep(d)], [d >= 0], on the state
    the wrapped function runs in. *)
Variable sleep : Z -> St -> St.
Variables max_retries delay : Z.
Variable func : St -> outcome A * St.

(** What a call of the wrapper did: its outcome ([Returned None] is
    the implicit [None] of a wrapper that falls off its end), the state
    it left, how often it called [func] and the sleeps it asked for. *)
Record run : Type := {
  result : outcome (option A);
  final : St;
  invocations : nat;
  sleeps : list Z
}.

Definition stop (r : outcome (option A)) (s : St) (calls : nat) (zs : list Z) : run :=
  {| result := r; final := s; invocations := calls; sleeps := zs |}.

(** The [for attempt in range(max_retries)] loop, [todo] iterations
    from [attempt] on.  [time.sleep] raises [ValueError] on a negative
    argument, and an exception raised inside a handler leaves the
    wrapper. *)
Fixpoint attempts (todo : nat) (attempt : Z) (last_exception : option pyexn)
    (s : St) (calls : nat) (zs : list Z) : run :=
  match todo with
  | O =>
      match last_exception with
      | Some e => stop (Raised e) s calls zs
      | None => stop (Returned None) s calls zs
      end
  | S todo' =>
      let (r, s1) := func s in
      match r with
      | Returned v => stop (Returned (Some v)) s1 (S calls) zs
      | Raised (HTTPError code) =>
          if code =? 403 then
            if attempt <? max_retries - 1 then
              let wait_time := delay * 2 ^ attempt in
              if wait_time <? 0 then stop (Raised ValueError) s1 (S calls) zs
              else attempts todo' (attempt + 1) (Some (HTTPError code))
                     (sleep wait_time s1) (S calls) (zs ++ [wait_time])
            else attempts todo' (attempt + 1) (Some (HTTPError code)) s1 (S calls) zs
          else stop (Raised (HTTPError code)) s1 (S calls) zs
      | Raised e =>
          if attempt <? max_retries - 1 then
            if delay <? 0 then stop (Raised ValueError) s1 (S calls) zs
            else attempts todo' (attempt + 1) (Some e)
                   (sleep delay s1) (S calls) (zs ++ [delay])
          else attempts todo' (attempt + 1) (Some e) s1 (S calls) zs
      end
  end.

Definition with_retry (s : St) : run :=
  attempts (Z.to_nat max_retries) 0 None s 0%nat [].

(** The state in which the [k]-th call of [func] (from 0) starts when
    every earlier call raised an exception that is not an [HTTPError]. *)
Fixpoint state_before (k : nat) (s : St) : St :=
  match k with
  | O => s
  | S k' => sleep delay (snd (func (state_before k' s)))
  end.

End WithRetry.

Definition is_http_error (e : pyexn) : bool :=
  match e with HTTPError _ => true | _ => false end.

(** The failures the wrapper goes on after: status 403, and everything
    that is not an [HTTPError]. *)
Definition retried (e : pyexn) : bool :=
  match e with HTTPError code => code =? 403 | _ => true end.

(** The sleep that follows a retried failure [e] of attempt [attempt]. *)
Definition backoff (delay : Z) (e : pyexn) (attempt : Z) : Z :=
  match e with HTTPError _ => delay * 2 ^ attempt | _ => delay end.

End RateLimiter.

(** ** cache_manager.py *)

Module CacheManager.

(** [isinstance(e, IOError)]: the exceptions of [requests] derive from
    [IOError]. *)
Definition is_IOError (e : pyexn) : bool :=
  match e with
  | IOError | ConnectionError | HTTPError _ => true
  | _ => false
  end.

Definition is_TypeError (e : pyexn) : bool :=
  match e with TypeError => true | _ => false end.

Definition is_JSONDecodeError (e : pyexn) : bool :=
  match e with JSONDecodeError => true | _ => false end.

(** [name] matches the glob pattern [*.json]. *)
Fixpoint ends_with (suffix name : string) : bool :=
  if String.eqb name suffix then true
  else match name with
       | EmptyString => false
       | String _ rest => ends_with suffix rest
       end.

Definition is_json_name (name : string) : bool := ends_with ".json" name.

(** [self.cache_dir.glob('*.json')] *)
Definition json_files (d : gmap string file) : gmap string file :=
  filter (fun entry => is_json_name (fst entry) = true) d.

(** Writing [text] to the file [name]: created or overwritten, with the
    time of writing. *)
Definition write_file (name text : string) (w : world) : world :=
  with_cache_dir (<[name := {| content := text; st_mtime := clock w |}]> (cache_dir w)) w.

Definition unlink (name : string) (w : world) : world :=
  with_cache_dir (base.delete name (cache_dir w)) w.

Record cache_info : Type := { total_files : Z; total_size_bytes : Z }.

Section WithLib.
Context `{PyLib}.

Definition get_cache_key (key : string) : string := md5_hexdigest key.

Definition cache_file (key : string) : string := get_cache_key key +:+ ".json".

(** [file_age > timedelta(hours=max_age_hours)] *)
Definition is_expired (max_age_hours : Z) (f : file) (w : world) : bool :=
  let file_age := clock w - st_mtime f in
  max_age_hours * hour <? file_age.

(** [get]: [Returned None] is one of the [return None] statements,
    [Returned (Some v)] is [return json.load(f)]. *)
Definition get (key : string) (max_age_hours : Z) (w : world)
  : outcome (option pyval) * world :=
  match cache_dir w !! cache_file key with
  | None => (Returned None, w)
  | Some f =>
      if is_expired max_age_hours f w
      then (Returned None, unlink (cache_file key) w)
      else
        match json_load (content f) with
        | Returned v => (Returned (Some v), w)
        | Raised e =>
            if is_JSONDecodeError e || is_IOError e
            then (Returned None, unlink (cache_file key) w)
            else (Raised e, w)
        end
  end.

(** The failures of [json.load] that [get] takes for a corrupted file. *)
Definition is_corrupted (f : file) : bool :=
  match json_load (content f) with
  | Raised e => is_JSONDecodeError e || is_IOError e
  | Returned _ => false
  end.

(** [set]: [open(cache_file, 'w')] empties the file before [json.dump]
    writes to it, so a failing dump leaves the text written so far. *)
Definition set (key : string) (data : pyval) (w : world) : outcome bool * world :=
  match json_dump data with
  | Dumped text => (Returned true, write_file (cache_file key) text w)
  | DumpRaised e written =>
      let w1 := write_file (cache_file key) written w in
      if is_TypeError e || is_IOError e
      then (Returned false, w1)
      else (Raised e, w1)
  end.

Definition delete (key : string) (w : world) : bool * world :=
  match cache_dir w !! cache_file key with
  | Some _ => (true, unlink (cache_file key) w)
  | None => (false, w)
  end.

End WithLib.

Definition clear (w : world) : Z * world :=
  (Z.of_nat (size (json_files (cache_dir w))),
   with_cache_dir (filter (fun entry => is_json_name (fst entry) = false) (cache_dir w)) w).

Definition get_cache_info (w : world) : cache_info :=
  {| total_files := Z.of_nat (size (json_files (cache_dir w)));
     total_size_bytes :=
       map_fold (fun _ f acc => acc + Z.of_nat (String.length (content f))) 0
                (json_files (cache_dir w)) |}.

(** The value a Python caller of [get] holds. *)
Definition to_py (r : option pyval) : pyval :=
  match r with Some v => v | None => PNone end.

End CacheManager.

(** ** github_stats.py *)

Module GitHubStats.

(** The configuration values the modelled methods read, resolved. *)
Record Config : Type := {
  cache_enabled : bool;
  cache_max_age_hours : Z;
  max_repos_per_page : Z;
  include_languages : bool
}.

Definition default_config : Config :=
  {| cache_enabled := true; cache_max_age_hours := 24;
     max_repos_per_page := 100; include_languages := true |}.

(** What [requests.get] gives: a response with its status and decoded
    body, or an exception. *)
Inductive http_result (B : Type) : Type :=
| Response (status_code : Z) (body : B)
| RequestException (e : pyexn).
Arguments Response {B} status_code body.
Arguments RequestException {B} e.

(** A JSON object, as its items in order. *)
Abbreviation dict := (list (string * pyval)).

(** The remote API.  [repo_pages] are the answers to pages 1, 2, ... of
    the repository listing, every later page being empty; the other
    endpoints answer by repository name. *)
Record remote : Type := {
  repo_pages : list (http_result (list pyval));
  issues_of : string -> http_result (list dict);
  languages_of : string -> http_result (list (string * Z))
}.

(** The attribute of a repository the counting methods read. *)
Record repo : Type := { full_name : string }.

(** [response.raise_for_status()] *)
Definition is_error_status (status : Z) : bool :=
  (400 <=? status) && (status <? 600).

(** *** get_all_repos *)

(** The [while True] loop of [get_all_repos], from page [page] on, with
    the answers still to come for these pages. *)
Fixpoint fetch_pages (answers : list (http_result (list pyval)))
    (per_page page : Z) (repos : list pyval) (w : world)
  : outcome (list pyval) * world :=
  let w1 := log_request (GetUserRepos per_page page) w in
  match answers with
  | [] => (Returned repos, w1)
  | RequestException e :: _ => (Raised e, w1)
  | Response status data :: rest =>
      if is_error_status status then (Raised (HTTPError status), w1)
      else
        match data with
        | [] => (Returned repos, w1)
        | _ :: _ => fetch_pages rest per_page (page + 1) (repos ++ data) w1
        end
  end.

Section WithLib.
Context `{PyLib}.
Variable username : string.
Variable config : Config.
Variable api : remote.

Definition repos_cache_key : string := "repos_" +:+ username.

(** The part of [get_all_repos] after the cache lookup: the paginated
    fetch and the write to the cache. *)
Definition fetch_all_repos (w : world) : outcome pyval * world :=
  let (r, w1) := fetch_pages (repo_pages api) (max_repos_per_page config) 1 [] w in
  match r with
  | Raised e => (Raised e, w1)
  | Returned repos =>
      if cache_enabled config then
        let (stored, w2) := CacheManager.set repos_cache_key (PList repos) w1 in
        match stored with
        | Raised e => (Raised e, w2)
        | Returned _ => (Returned (PList repos), w2)
        end
      else (Returned (PList repos), w1)
  end.

(** The body of [get_all_repos]. *)
Definition get_all_repos_body (w : world) : outcome pyval * world :=
  if cache_enabled config then
    let (looked_up, w1) :=
      CacheManager.get repos_cache_key (cache_max_age_hours config) w in
    match looked_up with
    | Raised e => (Raised e, w1)
    | Returned r =>
        let cached := CacheManager.to_py r in
        if py_truthy cached then
          match py_len cached with
          | Returned _ => (Returned cached, w1)
          | Raised e => (Raised e, w1)
          end
        else fetch_all_repos w1
    end
  else fetch_all_repos w.

(** [get_all_repos] as decorated:
    [@rate_limit_aware @with_retry(max_retries=3, delay=2)]. *)
Definition get_all_repos (h : RateLimiter.RateLimitHandler) (w : world)
  : outcome (option pyval) * RateLimiter.RateLimitHandler * world :=
  RateLimiter.rate_limit_aware
    (fun h1 w1 =>
       let r := RateLimiter.with_retry (fun d => time_sleep (d * second)) 3 2
                  get_all_repos_body w1 in
       (RateLimiter.result r, h1, RateLimiter.final r))
    h w.

End WithLib.

(** *** count_issues *)

Record issue_stats : Type := { total : Z; open : Z; closed : Z }.

Definition no_issues : issue_stats := {| total := 0; open := 0; closed := 0 |}.

(** [[i for i in issues if 'pull_request' not in i]] *)
Definition without_pull_requests (issues : list dict) : list dict :=
  List.filter (fun i => negb (dict_mem "pull_request" i)) issues.

(** The body of [for issue in issues]: [issue['state']] raises
    [KeyError] after the total has been incremented. *)
Definition count_issue (issue : dict) (stats : issue_stats) : outcome unit * issue_stats :=
  let stats1 := {| total := total stats + 1; open := open stats; closed := closed stats |} in
  match dict_get "state" issue with
  | None => (Raised KeyError, stats1)
  | Some state =>
      if py_eq_str state "open"
      then (Returned tt,
            {| total := total stats1; open := open stats1 + 1; closed := closed stats1 |})
      else (Returned tt,
            {| total := total stats1; open := open stats1; closed := closed stats1 + 1 |})
  end.

Fixpoint count_listed (issues : list dict) (stats : issue_stats) : outcome unit * issue_stats :=
  match issues with
  | [] => (Returned tt, stats)
  | issue :: rest =>
      match count_issue issue stats with
      | (Returned _, stats1) => count_listed rest stats1
      | (Raised e, stats1) => (Raised e, stats1)
      end
  end.

(** One turn of [for i, repo in enumerate(repos, 1)]: a status other
    than 200 and an exception both go on with the next repository, the
    counters keeping what was added before the exception. *)
Definition count_issues_of (api : remote) (r : repo) (stats : issue_stats) (w : world)
  : issue_stats * world :=
  let w1 := log_request (GetIssues (full_name r)) w in
  match issues_of api (full_name r) with
  | RequestException _ => (stats, w1)
  | Response status issues =>
      if negb (status =? 200) then (stats, w1)
      else (snd (count_listed (without_pull_requests issues) stats), w1)
  end.

Fixpoint count_issues_from (api : remote) (repos : list repo) (stats : issue_stats) (w : world)
  : issue_stats * world :=
  match repos with
  | [] => (stats, w)
  | r :: rest =>
      let (stats1, w1) := count_issues_of api r stats w in
      count_issues_from api rest stats1 w1
  end.

Definition count_issues_body (api : remote) (repos : list repo) (w : world)
  : issue_stats * world :=
  count_issues_from api repos no_issues w.

(** [count_issues] as decorated with [@rate_limit_aware]. *)
Definition count_issues (api : remote) (repos : list repo)
    (h : RateLimiter.RateLimitHandler) (w : world)
  : issue_stats * RateLimiter.RateLimitHandler * world :=
  RateLimiter.rate_limit_aware
    (fun h1 w1 => let (stats, w2) := count_issues_body api repos w1 in (stats, h1, w2))
    h w.

(** *** get_language_stats *)

(** [d[k] = v] on a dict kept as its items: an existing key keeps its
    place, a new key goes last. *)
Fixpoint dict_set (k : string) (v : Z) (d : list (string * Z)) : list (string * Z) :=
  match d with
  | [] => [(k, v)]
  | (k', v') :: rest =>
      if String.eqb k' k then (k', v) :: rest else (k', v') :: dict_set k v rest
  end.

(** [for lang, bytes_count in languages.items(): ...] *)
Fixpoint add_languages (languages language_bytes : list (string * Z)) : list (string * Z) :=
  match languages with
  | [] => language_bytes
  | (lang, bytes_count) :: rest =>
      add_languages rest
        (dict_set lang (default 0 (dict_get lang language_bytes) + bytes_count) language_bytes)
  end.

Fixpoint collect_languages (api : remote) (repos : list repo)
    (language_bytes : list (string * Z)) (w : world) : list (string * Z) * world :=
  match repos with
  | [] => (language_bytes, w)
  | r :: rest =>
      let w1 := log_request (GetLanguages (full_name r)) w in
      match languages_of api (full_name r) with
      | Response status languages =>
          if status =? 200
          then collect_languages api rest (add_languages languages language_bytes) w1
          else collect_languages api rest language_bytes w1
      | RequestException _ => collect_languages api rest language_bytes w1
      end
  end.

Definition sum_values (d : list (string * Z)) : Z :=
  fold_right (fun kv acc => snd kv + acc) 0 d.

(** The language map a repository contributes: the body of a 200
    answer, nothing otherwise. *)
Definition answered_languages (api : remote) (r : repo) : list (string * Z) :=
  match languages_of api (full_name r) with
  | Response status languages => if status =? 200 then languages else []
  | RequestException _ => []
  end.

(** The bytes listed for [lang] among [languages]. *)
Fixpoint bytes_of (lang : string) (languages : list (string * Z)) : Z :=
  match languages with
  | [] => 0
  | (l, b) :: rest => (if String.eqb l lang then b else 0) + bytes_of lang rest
  end.

Definition sum_Z (l : list Z) : Z := fold_right Z.add 0 l.

(** The nearest integer to [n / d], [d <> 0], ties to even: Python's
    [round] on the exact quotient. *)
Definition round_half_even (n d : Z) : Z :=
  let n' := if d <? 0 then - n else n in
  let d' := Z.abs d in
  let q := n' / d' in
  let r := n' mod d' in
  if 2 * r <? d' then q
  else if d' <? 2 * r then q + 1
  else if Z.even q then q else q + 1.

(** [round((bytes_count / total_bytes) * 100, 2)], in hundredths of a
    percent: 5000 stands for 50.0. *)
Definition percentage (bytes_count total_bytes : Z) : Z :=
  round_half_even (bytes_count * 10000) total_bytes.

(** [sorted(..., key=lambda x: x[1], reverse=True)]: descending, and
    entries with equal keys keep their order. *)
Fixpoint insert_desc (x : string * Z) (l : list (string * Z)) : list (string * Z) :=
  match l with
  | [] => [x]
  | y :: rest => if snd x <? snd y then y :: insert_desc x rest else x :: y :: rest
  end.

Definition sorted_desc (l : list (string * Z)) : list (string * Z) :=
  fold_right insert_desc [] l.

(** [a] may stand before [b] in a descending list. *)
Definition desc (a b : string * Z) : Prop := snd b <= snd a.

Definition sign_of (t : Z) : Z := if t <? 0 then -1 else 1.

Definition language_percentages (language_bytes : list (string * Z)) : list (string * Z) :=
  let total_bytes := sum_values language_bytes in
  if total_bytes =? 0 then []
  else sorted_desc
         (List.map (fun kv => (fst kv, percentage (snd kv) total_bytes)) language_bytes).

Definition get_language_stats_body (config : Config) (api : remote) (repos : list repo)
    (w : world) : list (string * Z) * world :=
  if negb (include_languages config) then ([], w)
  else
    let (language_bytes, w1) := collect_languages api repos [] w in
    (language_percentages language_bytes, w1).

(** [get_language_stats] as decorated with [@rate_limit_aware]. *)
Definition get_language_stats (config : Config) (api : remote) (repos : list repo)
    (h : RateLimiter.RateLimitHandler) (w : world)
  : list (string * Z) * RateLimiter.RateLimitHandler * world :=
  RateLimiter.rate_limit_aware
    (fun h1 w1 =>
       let (stats, w2) := get_language_stats_body config api repos w1 in (stats, h1, w2))
    h w.

End GitHubStats.

(** ** Concrete operations, libraries and worlds used in the examples *)

Module Fixtures.

(** Operations for [with_retry], run in a state that counts their
    invocations. *)
Definition count_sleep (d : Z) (n : nat) : nat := n.

(** Quota exceeded on the first two invocations, then success. *)
Definition quota_twice_then_ok (n : nat) : outcome string * nat :=
  (if (n <? 2)%nat then Raised (HTTPError 403) else Returned "ok"%string, S n).

(** Quota exceeded, then a timeout, then quota exceeded. *)
Definition never_ok (n : nat) : outcome string * nat :=
  (if (n =? 1)%nat then Raised (OtherException "Timeout") else Raised (HTTPError 403), S n).

Definition always_500 (n : nat) : outcome string * nat :=
  (Raised (HTTPError 500), S n).

(** A server error once, then success. *)
Definition once_500_then_ok (n : nat) : outcome string * nat :=
  (if (n =? 0)%nat then Raised (HTTPError 500) else Returned "ok"%string, S n).

Definition always_timeout (n : nat) : outcome string * nat :=
  (Raised (OtherException "Timeout"), S n).

(** A stand-in for [hashlib] and [json] that knows four texts. *)
Definition small_dump (v : pyval) : dump_result :=
  match v with
  | PNone => Dumped "null"
  | PBool true => Dumped "true"
  | PBool false => Dumped "false"
  | PList [] => Dumped "[]"
  | PList (_ :: _) => DumpRaised TypeError "["
  | _ => DumpRaised TypeError ""
  end.

Definition small_load (text : string) : outcome pyval :=
  if String.eqb text "null" then Returned PNone
  else if String.eqb text "true" then Returned (PBool true)
  else if String.eqb text "false" then Returned (PBool false)
  else if String.eqb text "[]" then Returned (PList [])
  else Raised JSONDecodeError.

Definition small_lib : PyLib :=
  {| md5_hexdigest := fun key => ("md5-" +:+ key)%string;
     json_dump := small_dump;
     json_load := small_load |}.

(** A cache directory that holds one entry written at 0 s, and the
    world 1000 s later. *)
Definition world_with_entry (key text : string) : world :=
  {| clock := 1000 * second; quota_answers := []; slept := []; requests := [];
     cache_dir := {[ CacheManager.cache_file (H := small_lib) key
                     := {| content := text; st_mtime := 0 |} ]} |}.

(** Items of an issue listing: an issue, and a pull request listed as
    one. *)
Definition listed_issue (state : string) : list (string * pyval) :=
  [("title", PStr "crash on start"); ("state", PStr state)]%string.

Definition listed_pull (state : string) : list (string * pyval) :=
  [("title", PStr "fix crash"); ("state", PStr state);
   ("pull_request", PDict [("url", PStr "pulls/7")])]%string.

Definition five_listed : list (list (string * pyval)) :=
  [listed_pull "open"; listed_issue "open"; listed_pull "closed";
   listed_issue "closed"; listed_pull "closed"]%string.

(** A remote with two repositories. *)
Definition two_repos_api : GitHubStats.remote :=
  {| GitHubStats.repo_pages :=
       [GitHubStats.Response 200
          [PDict [("full_name", PStr "octocat/a")]; PDict [("full_name", PStr "octocat/b")]]];
     GitHubStats.issues_of := fun name =>
       if String.eqb name "octocat/a" then GitHubStats.Response 200 five_listed
       else GitHubStats.Response 404 [];
     GitHubStats.languages_of := fun name =>
       if String.eqb name "octocat/a" then GitHubStats.Response 200 [("Go", 100)]
       else if String.eqb name "octocat/b"
            then GitHubStats.Response 200 [("Go", 100); ("Rust", 200)]
            else GitHubStats.Response 404 [] |}%string.

Definition repo_a : GitHubStats.repo := {| GitHubStats.full_name := "octocat/a" |}.
Definition repo_b : GitHubStats.repo := {| GitHubStats.full_name := "octocat/b" |}.

(** Worlds for the quota monitor: the clock reads 1000 s. *)
Definition world_at_1000 (answers : list rate_limit_response) : world :=
  {| clock := 1000 * second; quota_answers := answers; slept := [];
     requests := []; cache_dir := ∅ |}.

(** 50 requests left, reset in 30 s. *)
Definition low_quota_world : world := world_at_1000 [CoreOk 50 5000 1030 4950].

(** 200 requests left. *)
Definition fair_quota_world : world := world_at_1000 [CoreOk 200 5000 1030 4800].

(** 50 requests left, reset 10 s ago. *)
Definition past_reset_world : world := world_at_1000 [CoreOk 50 5000 990 4950].

(** The quota endpoint fails once and answers afterwards. *)
Definition degraded_world : world :=
  world_at_1000 [RequestFailed ConnectionError; CoreOk 4000 5000 2000 1000].

End Fixtures.

(** ** The backoff schedule of with_retry *)

Module RetrySchedule.

Section Schedule.
Context {St A : Type}.
Variable sleep : Z -> St -> St.
Variable delay : Z.
Variable func : St -> outcome A * St.

(** The state in which the call of [func] that is [k] calls after
    attempt [attempt] starts, when every call in between raised an
    [HTTPError] with status 403. *)
Fixpoint quota_state (attempt : Z) (k : nat) (s : St) : St :=
  match k with
  | O => s
  | S k' => quota_state (attempt + 1) k' (sleep (delay * 2 ^ attempt) (snd (func s)))
  end.

(** The waits [delay * 2 ^ attempt] of [n] attempts in a row, from
    [attempt] on. *)
Fixpoint schedule (attempt : Z) (n : nat) : list Z :=
  match n with
  | O => []
  | S n' => delay * 2 ^ attempt :: schedule (attempt + 1) n'
  end.

End Schedule.

(** Quota exceeded on every invocation. *)
Definition always_403 (n : nat) : outcome string * nat :=
  (Raised (HTTPError 403), S n).

End RetrySchedule.

(** ** cache_manager.py: the constructor *)

Module CacheSetup.

Definition newline : string := String (Ascii.ascii_of_nat 10) EmptyString.

Definition gitignore_name : string := ".gitignore".

Definition gitignore_text : string := "*" +:+ newline +:+ "!.gitignore" +:+ newline.

(** [CacheManager.__init__]: the directory is made if need be, and a
    [.gitignore] is written into it unless there is one. *)
Definition init (w : world) : world :=
  match cache_dir w !! gitignore_name with
  | Some _ => w
  | None => CacheManager.write_file gitignore_name gitignore_text w
  end.

End CacheSetup.

(** ** config.py: dotted paths *)

Module Configuration.
Import Stdlib.Strings.Ascii.

(** [key.split('.')] *)
Fixpoint split_dots (key : string) : list string :=
  match key with
  | EmptyString => [EmptyString]
  | String c rest =>
      if Ascii.eqb c "."%char then EmptyString :: split_dots rest
      else match split_dots rest with
           | [] => [String c EmptyString]
           | first :: others => String c first :: others
           end
  end.

(** [d[k] = v] on a dict kept as its items: an existing key keeps its
    place, a new key goes last. *)
Fixpoint dict_put (k : string) (v : pyval) (d : list (string * pyval))
  : list (string * pyval) :=
  match d with
  | [] => [(k, v)]
  | (k', v') :: rest =>
      if String.eqb k' k then (k', v) :: rest else (k', v') :: dict_put k v rest
  end.

(** The loop of [Config.get] over the keys of the path. *)
Fixpoint get_from (keys : list string) (value default : pyval) : pyval :=
  match keys with
  | [] => value
  | k :: rest =>
      match value with
      | PDict d =>
          match dict_get k d with
          | Some v => get_from rest v default
          | None => default
          end
      | _ => default
      end
  end.

(** [Config.get(key, default)] on the configuration data [data]. *)
Definition get (data : pyval) (key : string) (default : pyval) : pyval :=
  get_from (split_dots key) data default.

(** The body of [Config.set] on the keys of the path: the new value of
    [data], or the exception.  On anything but a dict, [k not in data],
    [data[k]] and [data[k] = ...] with a string [k] end in [TypeError]. *)
Fixpoint set_in (keys : list string) (value data : pyval) : outcome pyval :=
  match keys with
  | [] => Raised (OtherException "IndexError")
  | k :: rest =>
      match data with
      | PDict d =>
          match rest with
          | [] => Returned (PDict (dict_put k value d))
          | _ :: _ =>
              let child := match dict_get k d with Some c => c | None => PDict [] end in
              match set_in rest value child with
              | Returned child' => Returned (PDict (dict_put k child' d))
              | Raised e => Raised e
              end
          end
      | _ => Raised TypeError
      end
  end.

(** [Config.set(key, value)] *)
Definition set (data : pyval) (key : string) (value : pyval) : outcome pyval :=
  set_in (split_dots key) value data.

(** A configuration with a cache section and a scalar entry. *)
Definition sample_data : pyval :=
  PDict [("cache", PDict [("enabled", PBool true); ("max_age_hours", PInt 24)]);
         ("mode", PStr "batch")]%string.

End Configuration.

(** ** github_stats.py: what the endpoints contribute *)

Module Answers.
Import GitHubStats.

(** The issues a repository contributes to [count_issues]: the items of
    a 200 answer that are not pull requests, nothing otherwise. *)
Definition answered_issues (api : remote) (r : repo) : list (list (string * pyval)) :=
  match issues_of api (full_name r) with
  | Response status issues =>
      if status =? 200 then without_pull_requests issues else []
  | RequestException _ => []
  end.

(** A page of the repository listing that the loop of [get_all_repos]
    goes past: no error status, not empty. *)
Definition is_full_page (answer : http_result (list pyval)) : bool :=
  match answer with
  | Response status data =>
      negb (is_error_status status) && match data with [] => false | _ => true end
  | RequestException _ => false
  end.

(** An answer that ends the loop normally: an empty page. *)
Definition is_last_page (answer : http_result (list pyval)) : bool :=
  match answer with
  | Response status [] => negb (is_error_status status)
  | _ => false
  end.

Definition page_data (answer : http_result (list pyval)) : list pyval :=
  match answer with
  | Response _ data => data
  | RequestException _ => []
  end.

(** The requests for pages [page], [page + 1], ... ([n] of them). *)
Fixpoint page_requests (per_page page : Z) (n : nat) : list request :=
  match n with
  | O => []
  | S n' => GetUserRepos per_page page :: page_requests per_page (page + 1) n'
  end.

(** The world after the requests [rs], in order. *)
Definition log_requests (rs : list request) (w : world) : world :=
  fold_left (fun w0 r => log_request r w0) rs w.

(** How an answer ends the loop of [get_all_repos] when it is not a full
    page: by the exception it raises, or normally. *)
Definition page_error (answer : http_result (list pyval)) : option pyexn :=
  match answer with
  | RequestException e => Some e
  | Response status _ => if is_error_status status then Some (HTTPError status) else None
  end.

(** A listing endpoint that refuses with the given status. *)
Definition refusing_api (status : Z) : remote :=
  {| repo_pages := [Response status []];
     issues_of := fun _ => Response 404 [];
     languages_of := fun _ => Response 404 [] |}.

(** A repository unknown to [two_repos_api]. *)
Definition repo_gone : repo := {| full_name := "octocat/gone" |}.

(** A stand-in for [hashlib] and [json] that also knows the list
    [[None]]. *)
Definition listing_lib : PyLib :=
  {| md5_hexdigest := fun key => ("md5-" +:+ key)%string;
     json_dump := fun v =>
       match v with
       | PList [PNone] => Dumped "[null]"
       | _ => Fixtures.small_dump v
       end;
     json_load := fun text =>
       if String.eqb text "[null]" then Returned (PList [PNone])
       else Fixtures.small_load text |}.

(** A listing endpoint with one page of one repository. *)
Definition one_repo_api : remote :=
  {| repo_pages := [Response 200 [PNone]];
     issues_of := fun _ => Response 404 [];
     languages_of := fun _ => Response 404 [] |}.

(** A handler that checked the quota at 998 s. *)
Definition checked_handler : RateLimiter.RateLimitHandler :=
  {| RateLimiter.min_remaining := 100;
     RateLimiter.last_check := Some (998 * second);
     RateLimiter.last_rate_info := None |}.

End Answers.

(** ** github_stats.py: pull requests, commits and code changes *)

Module Activity.
Import GitHubStats.

Definition day : Z := 24 * hour.

(** The requests of these methods.  They are kept apart from
    [requests]: each body returns the calls it made, in order. *)
Inductive call : Type :=
| GetPulls (repo_name : string)
| GetCommits (repo_name : string) (page : Z)
| GetContributorStats (repo_name : string).

(** The endpoints these methods read.  [commits_of] answers by
    repository and page; [contributors_of] by repository and by whether
    the request is the one made again after a 202. *)
Record endpoints : Type := {
  pulls_of : string -> http_result (list dict);
  commits_of : string -> Z -> http_result pyval;
  contributors_of : string -> bool -> http_result (list dict)
}.

(** The configuration values these methods read, resolved. *)
Record Settings : Type := {
  days_back : Z;
  max_commits_pages : Z;
  include_code_changes : bool
}.

Definition default_settings : Settings :=
  {| days_back := 365; max_commits_pages := 10; include_code_changes := true |}.

(** *** count_pull_requests *)

Record pull_stats : Type := { total : Z; open : Z; closed : Z; merged : Z }.

Definition no_pulls : pull_stats := {| total := 0; open := 0; closed := 0; merged := 0 |}.

(** [pr.get('merged_at')] as a condition. *)
Definition is_merged (pr : dict) : bool :=
  py_truthy (default PNone (dict_get "merged_at" pr)).

(** The body of [for pr in prs]: [pr['state']] raises [KeyError] after
    the total has been incremented. *)
Definition count_pull (pr : dict) (stats : pull_stats) : outcome unit * pull_stats :=
  let stats1 := {| total := total stats + 1; open := open stats;
                   closed := closed stats; merged := merged stats |} in
  match dict_get "state" pr with
  | None => (Raised KeyError, stats1)
  | Some state =>
      let stats2 :=
        if py_eq_str state "open"
        then {| total := total stats1; open := open stats1 + 1;
                closed := closed stats1; merged := merged stats1 |}
        else {| total := total stats1; open := open stats1;
                closed := closed stats1 + 1; merged := merged stats1 |} in
      if is_merged pr
      then (Returned tt,
            {| total := total stats2; open := open stats2;
               closed := closed stats2; merged := merged stats2 + 1 |})
      else (Returned tt, stats2)
  end.

Fixpoint count_pulls (prs : list dict) (stats : pull_stats) : outcome unit * pull_stats :=
  match prs with
  | [] => (Returned tt, stats)
  | pr :: rest =>
      match count_pull pr stats with
      | (Returned _, stats1) => count_pulls rest stats1
      | (Raised e, stats1) => (Raised e, stats1)
      end
  end.

(** One turn of [for i, repo in enumerate(repos, 1)]: a status other
    than 200 and an exception both go on with the next repository, the
    counters keeping what was added before the exception. *)
Definition count_pulls_of (api : endpoints) (r : repo) (stats : pull_stats)
    (calls : list call) : pull_stats * list call :=
  let calls1 := calls ++ [GetPulls (full_name r)] in
  match pulls_of api (full_name r) with
  | RequestException _ => (stats, calls1)
  | Response status prs =>
      if negb (status =? 200) then (stats, calls1)
      else (snd (count_pulls prs stats), calls1)
  end.

Fixpoint count_pulls_from (api : endpoints) (repos : list repo) (stats : pull_stats)
    (calls : list call) : pull_stats * list call :=
  match repos with
  | [] => (stats, calls)
  | r :: rest =>
      let (stats1, calls1) := count_pulls_of api r stats calls in
      count_pulls_from api rest stats1 calls1
  end.

Definition count_pull_requests_body (api : endpoints) (repos : list repo)
  : pull_stats * list call :=
  count_pulls_from api repos no_pulls [].

(** [count_pull_requests] as decorated with [@rate_limit_aware]. *)
Definition count_pull_requests (api : endpoints) (repos : list repo)
    (h : RateLimiter.RateLimitHandler) (w : world)
  : pull_stats * list call * RateLimiter.RateLimitHandler * world :=
  RateLimiter.rate_limit_aware
    (fun h1 w1 => (count_pull_requests_body api repos, h1, w1)) h w.

(** The pull requests a repository contributes: the body of a 200
    answer, nothing otherwise. *)
Definition answered_pulls (api : endpoints) (r : repo) : list dict :=
  match pulls_of api (full_name r) with
  | Response status prs => if status =? 200 then prs else []
  | RequestException _ => []
  end.

(** *** count_commits_last_year *)

Section CommitPages.
Variable answer : Z -> http_result pyval.
Variable repo_name : string.
Variable max_pages : Z.

(** The loop [while page <= max_pages] with the [try] around it: a
    status other than 200, an empty body and an exception all end the
    turn of the repository.  [fuel] bounds the number of turns. *)
Fixpoint commit_pages (fuel : nat) (page total_commits : Z) (calls : list call)
  : Z * list call :=
  match fuel with
  | O => (total_commits, calls)
  | S fuel' =>
      if page <=? max_pages then
        let calls1 := calls ++ [GetCommits repo_name page] in
        match answer page with
        | RequestException _ => (total_commits, calls1)
        | Response status commits =>
            if negb (status =? 200) then (total_commits, calls1)
            else if negb (py_truthy commits) then (total_commits, calls1)
            else
              match py_len commits with
              | Returned n => commit_pages fuel' (page + 1) (total_commits + n) calls1
              | Raised _ => (total_commits, calls1)
              end
        end
      else (total_commits, calls)
  end.

End CommitPages.

(** What a page adds to the count when the loop goes past it. *)
Definition counted (answer : http_result pyval) : option Z :=
  match answer with
  | Response status commits =>
      if (status =? 200) && py_truthy commits then
        match py_len commits with Returned n => Some n | Raised _ => None end
      else None
  | RequestException _ => None
  end.

(** The page numbers [page], [page + 1], ... ([n] of them). *)
Fixpoint page_numbers (page : Z) (n : nat) : list Z :=
  match n with
  | O => []
  | S n' => page :: page_numbers (page + 1) n'
  end.

(** One turn of [for i, repo in enumerate(repos, 1)], from page 1. *)
Definition count_commits_of (api : endpoints) (settings : Settings) (r : repo)
    (total_commits : Z) (calls : list call) : Z * list call :=
  commit_pages (commits_of api (full_name r)) (full_name r) (max_commits_pages settings)
    (Z.to_nat (max_commits_pages settings)) 1 total_commits calls.

Fixpoint count_commits_from (api : endpoints) (settings : Settings) (repos : list repo)
    (total_commits : Z) (calls : list call) : Z * list call :=
  match repos with
  | [] => (total_commits, calls)
  | r :: rest =>
      let (total1, calls1) := count_commits_of api settings r total_commits calls in
      count_commits_from api settings rest total1 calls1
  end.

Definition count_commits_body (api : endpoints) (settings : Settings) (repos : list repo)
  : Z * list call :=
  count_commits_from api settings repos 0 [].

(** [count_commits_last_year] as decorated with [@rate_limit_aware]. *)
Definition count_commits_last_year (api : endpoints) (settings : Settings)
    (repos : list repo) (h : RateLimiter.RateLimitHandler) (w : world)
  : Z * list call * RateLimiter.RateLimitHandler * world :=
  RateLimiter.rate_limit_aware
    (fun h1 w1 => (count_commits_body api settings repos, h1, w1)) h w.

(** *** get_code_changes_stats *)

Record change_stats : Type := { additions : Z; deletions : Z; total_changes : Z }.

Definition no_changes : change_stats :=
  {| additions := 0; deletions := 0; total_changes := 0 |}.

(** The values Python's integer arithmetic and [fromtimestamp] take as
    integers: [int] and [bool]. *)
Definition py_int (v : pyval) : option Z :=
  match v with
  | PInt n => Some n
  | PBool b => Some (Z.b2z b)
  | _ => None
  end.

(** [v[key]] for a string [key]: [KeyError] on a dict without the key,
    [TypeError] on anything but a dict. *)
Definition py_item (v : pyval) (key : string) : outcome pyval :=
  match v with
  | PDict d => match dict_get key d with Some x => Returned x | None => Raised KeyError end
  | _ => Raised TypeError
  end.

(** What [for x in v] goes through: the items of a list, the characters
    of a string, the keys of a dict; [TypeError] otherwise. *)
Definition py_iter (v : pyval) : outcome (list pyval) :=
  match v with
  | PList l => Returned l
  | PStr s => Returned (List.map (fun c => PStr (String c EmptyString)) (list_ascii_of_string s))
  | PDict d => Returned (List.map (fun kv => PStr (fst kv)) d)
  | _ => Raised TypeError
  end.

(** The body of [for week in contributor['weeks']], for timestamps in
    the range of [datetime]; [since_date] in microseconds. *)
Definition add_week (since_date : Z) (week : pyval) (stats : change_stats)
  : outcome unit * change_stats :=
  match py_item week "w" with
  | Raised e => (Raised e, stats)
  | Returned t =>
      match py_int t with
      | None => (Raised TypeError, stats)
      | Some t =>
          if since_date <=? t * second then
            match py_item week "a" with
            | Raised e => (Raised e, stats)
            | Returned a =>
                match py_int a with
                | None => (Raised TypeError, stats)
                | Some a =>
                    let stats1 := {| additions := additions stats + a;
                                     deletions := deletions stats;
                                     total_changes := total_changes stats |} in
                    match py_item week "d" with
                    | Raised e => (Raised e, stats1)
                    | Returned d =>
                        match py_int d with
                        | None => (Raised TypeError, stats1)
                        | Some d =>
                            (Returned tt,
                             {| additions := additions stats1;
                                deletions := deletions stats1 + d;
                                total_changes := total_changes stats1 |})
                        end
                    end
                end
            end
          else (Returned tt, stats)
      end
  end.

Fixpoint add_weeks (since_date : Z) (weeks : list pyval) (stats : change_stats)
  : outcome unit * change_stats :=
  match weeks with
  | [] => (Returned tt, stats)
  | week :: rest =>
      match add_week since_date week stats with
      | (Returned _, stats1) => add_weeks since_date rest stats1
      | (Raised e, stats1) => (Raised e, stats1)
      end
  end.

(** The body of [for contributor in contributors]. *)
Definition add_contributor (username : string) (since_date : Z) (contributor : dict)
    (stats : change_stats) : outcome unit * change_stats :=
  match dict_get "author" contributor with
  | None => (Raised KeyError, stats)
  | Some author =>
      match py_item author "login" with
      | Raised e => (Raised e, stats)
      | Returned login =>
          if py_eq_str login username then
            match dict_get "weeks" contributor with
            | None => (Raised KeyError, stats)
            | Some weeks =>
                match py_iter weeks with
                | Raised e => (Raised e, stats)
                | Returned l => add_weeks since_date l stats
                end
            end
          else (Returned tt, stats)
      end
  end.

Fixpoint add_contributors (username : string) (since_date : Z) (contributors : list dict)
    (stats : change_stats) : outcome unit * change_stats :=
  match contributors with
  | [] => (Returned tt, stats)
  | contributor :: rest =>
      match add_contributor username since_date contributor stats with
      | (Returned _, stats1) => add_contributors username since_date rest stats1
      | (Raised e, stats1) => (Raised e, stats1)
      end
  end.

(** One turn of [for i, repo in enumerate(repos, 1)]: after a 202 the
    method sleeps 2 s and asks once more. *)
Definition changes_of (api : endpoints) (username : string) (since_date : Z) (r : repo)
    (stats : change_stats) (calls : list call) (w : world)
  : change_stats * list call * world :=
  let calls1 := calls ++ [GetContributorStats (full_name r)] in
  match contributors_of api (full_name r) false with
  | RequestException _ => (stats, calls1, w)
  | Response status contributors =>
      if status =? 202 then
        let w1 := time_sleep (2 * second) w in
        let calls2 := calls1 ++ [GetContributorStats (full_name r)] in
        match contributors_of api (full_name r) true with
        | RequestException _ => (stats, calls2, w1)
        | Response status2 contributors2 =>
            if status2 =? 200
            then (snd (add_contributors username since_date contributors2 stats), calls2, w1)
            else (stats, calls2, w1)
        end
      else if status =? 200
      then (snd (add_contributors username since_date contributors stats), calls1, w)
      else (stats, calls1, w)
  end.

Fixpoint changes_from (api : endpoints) (username : string) (since_date : Z)
    (repos : list repo) (stats : change_stats) (calls : list call) (w : world)
  : change_stats * list call * world :=
  match repos with
  | [] => (stats, calls, w)
  | r :: rest =>
      let '(stats1, calls1, w1) := changes_of api username since_date r stats calls w in
      changes_from api username since_date rest stats1 calls1 w1
  end.

(** The body of [get_code_changes_stats]; [since_date] is computed once,
    before the loop. *)
Definition get_code_changes_stats_body (api : endpoints) (settings : Settings)
    (username : string) (repos : list repo) (w : world)
  : change_stats * list call * world :=
  if negb (include_code_changes settings) then (no_changes, [], w)
  else
    let since_date := clock w - days_back settings * day in
    let '(stats, calls, w1) := changes_from api username since_date repos no_changes [] w in
    ({| additions := additions stats; deletions := deletions stats;
        total_changes := additions stats + deletions stats |}, calls, w1).

(** [get_code_changes_stats] as decorated with [@rate_limit_aware]. *)
Definition get_code_changes_stats (api : endpoints) (settings : Settings)
    (username : string) (repos : list repo) (h : RateLimiter.RateLimitHandler) (w : world)
  : change_stats * list call * RateLimiter.RateLimitHandler * world :=
  RateLimiter.rate_limit_aware
    (fun h1 w1 =>
       let '(stats, calls, w2) := get_code_changes_stats_body api settings username repos w1 in
       (stats, calls, h1, w2))
    h w.

(** Whether the statistics of a repository are still being computed when
    first asked for. *)
Definition is_pending (api : endpoints) (r : repo) : bool :=
  match contributors_of api (full_name r) false with
  | Response status _ => status =? 202
  | RequestException _ => false
  end.

(** The requests of one turn. *)
Definition stats_calls (api : endpoints) (r : repo) : list call :=
  if is_pending api r
  then [GetContributorStats (full_name r); GetContributorStats (full_name r)]
  else [GetContributorStats (full_name r)].

End Activity.

(** ** Answers for the activity endpoints *)

Module ActivityFixtures.
Import GitHubStats Activity.

Definition listed_pr (state : string) (merged_at : pyval) : dict :=
  [("number", PInt 7); ("state", PStr state); ("merged_at", merged_at)]%string.

(** A page of [n] commits. *)
Definition commit_page (n : nat) : pyval := PList (repeat (PDict []) n).

Definition week (w a d : Z) : pyval :=
  PDict [("w", PInt w); ("a", PInt a); ("d", PInt d)]%string.

Definition contributor (login : string) (weeks : list pyval) : dict :=
  [("author", PDict [("login", PStr login)]); ("weeks", PList weeks)]%string.

(** Repository [octocat/a] has three pull requests, two full pages of
    commits and statistics that are ready on the second request;
    [octocat/b] has none of these. *)
Definition octocat_endpoints : endpoints :=
  {| pulls_of := fun name =>
       if String.eqb name "octocat/a"
       then Response 200 [listed_pr "open" PNone;
                          listed_pr "closed" (PStr "2024-05-01T10:00:00Z");
                          listed_pr "closed" PNone]
       else Response 404 [];
     commits_of := fun name page =>
       if String.eqb name "octocat/a"
       then if (page <=? 2)%Z then Response 200 (commit_page 100) else Response 200 (PList [])
       else Response 409 PNone;
     contributors_of := fun name again =>
       if String.eqb name "octocat/a"
       then if again
            then Response 200 [contributor "octocat" [week 1200 10 4; week 100 50 50];
                               contributor "hubot" [week 1200 1000 1000]]
            else Response 202 []
       else Response 204 [] |}%string.

(** A period that starts at the time of the call. *)
Definition short_period : Settings :=
  {| days_back := 0; max_commits_pages := 10; include_code_changes := true |}.

(** Well-formed statistics: contributors as login and weeks, a week as
    its timestamp, additions and deletions. *)
Definition listed_week (wk : Z * Z * Z) : pyval := week wk.1.1 wk.1.2 wk.2.

Definition listed_contributor (c : string * list (Z * Z * Z)) : dict :=
  contributor c.1 (List.map listed_week c.2).

(** The weeks listed for [username] that start at [since_date] or
    later. *)
Definition own_weeks (username : string) (since_date : Z)
    (cs : list (string * list (Z * Z * Z))) : list (Z * Z * Z) :=
  List.filter (fun wk => since_date <=? wk.1.1 * second)
    (concat (List.map snd (List.filter (fun c => String.eqb c.1 username) cs))).

End ActivityFixtures.

(** ** utils.py: lists and texts *)

Module Utils.

(** The values of [range(0, stop, step)] for [0 <= stop] and a positive
    [step], from [start] on; [fuel] bounds their number. *)
Fixpoint range_from (fuel : nat) (start stop step : Z) : list Z :=
  match fuel with
  | O => []
  | S fuel' =>
      if start <? stop then start :: range_from fuel' (start + step) stop step else []
  end.

(** [range(0, stop, step)] for [0 <= stop]: a zero step raises
    [ValueError], a negative one gives nothing. *)
Definition range_to (stop step : Z) : outcome (list Z) :=
  if step =? 0 then Raised ValueError
  else if step <? 0 then Returned []
  else Returned (range_from (Z.to_nat stop) 0 stop step).

(** [lst[i:j]] for [0 <= i <= j]. *)
Definition slice {A : Type} (lst : list A) (i j : Z) : list A :=
  firstn (Z.to_nat (j - i)) (skipn (Z.to_nat i) lst).

(** [chunk_list(lst, chunk_size)] *)
Definition chunk_list {A : Type} (lst : list A) (chunk_size : Z) : outcome (list (list A)) :=
  match range_to (Z.of_nat (length lst)) chunk_size with
  | Raised e => Raised e
  | Returned starts => Returned (List.map (fun i => slice lst i (i + chunk_size)) starts)
  end.

(** [text[:stop]]: a negative [stop] counts from the end. *)
Fixpoint take (n : nat) (text : string) : string :=
  match n, text with
  | S n', String c rest => String c (take n' rest)
  | _, _ => EmptyString
  end.

Definition prefix_to (stop : Z) (text : string) : string :=
  if stop <? 0
  then take (Z.to_nat (Z.of_nat (String.length text) + stop)) text
  else take (Z.to_nat stop) text.

(** [truncate_text(text, max_length, suffix)] *)
Definition truncate_text (text : string) (max_length : Z) (suffix : string) : string :=
  if Z.of_nat (String.length text) <=? max_length then text
  else prefix_to (max_length - Z.of_nat (String.length suffix)) text +:+ suffix.

End Utils.

(** ** config.py: validation *)

Module Validation.
Import Configuration.

(** [isinstance(v, int)], with the integer: [bool] is a subclass of
    [int]. *)
Definition as_int (v : pyval) : option Z :=
  match v with
  | PInt n => Some n
  | PBool b => Some (Z.b2z b)
  | _ => None
  end.

(** [not isinstance(v, int) or v < bound] *)
Definition below (v : pyval) (bound : Z) : bool :=
  match as_int v with
  | None => true
  | Some n => n <? bound
  end.

Definition token_missing : string := "Token GitHub manquant (GITHUB_TOKEN)".
Definition username_missing : string := "Username GitHub manquant (GITHUB_USERNAME)".
Definition days_back_invalid : string := "stats.days_back doit être un entier positif".
Definition min_remaining_invalid : string :=
  "rate_limit.min_remaining doit être un entier positif".

(** [errors.append(message)] under a condition. *)
Definition append_if (condition : bool) (message : string) (errors : list string)
  : list string :=
  if condition then errors ++ [message] else errors.

(** [Config.validate()] on the configuration data [data]. *)
Definition validate (data : pyval) : bool * list string :=
  let errors := [] in
  let token := get data "github.token" PNone in
  let errors := append_if (negb (py_truthy token)) token_missing errors in
  let username := get data "github.username" PNone in
  let errors := append_if (negb (py_truthy username)) username_missing errors in
  let days_back := get data "stats.days_back" PNone in
  let errors := append_if (below days_back 1) days_back_invalid errors in
  let min_remaining := get data "rate_limit.min_remaining" PNone in
  let errors := append_if (below min_remaining 0) min_remaining_invalid errors in
  (Nat.eqb (length errors) 0, errors).

End Validation.

(** ** config.py: the configuration as shared objects *)

Module ConfigObject.

(** A value of the configuration: a scalar, or a reference to a dict.
    Dicts live in a heap, so that two dicts can hold the same dict. *)
Inductive value : Type :=
| VNone
| VBool (b : bool)
| VInt (n : Z)
| VStr (s : string)
| VDict (location : nat).

Abbreviation object := (list (string * value)).

(** [heap] holds the dicts; [data] is where [self.data] is. *)
Record config : Type := { heap : gmap nat object; data : nat }.

(** The dict at a location (every location reached from [data] holds
    one). *)
Definition deref (h : gmap nat object) (location : nat) : object :=
  default [] (h !! location).

(** [d[k] = v] on a dict kept as its items. *)
Fixpoint dict_put (k : string) (v : value) (d : object) : object :=
  match d with
  | [] => [(k, v)]
  | (k', v') :: rest =>
      if String.eqb k' k then (k', v) :: rest else (k', v') :: dict_put k v rest
  end.

(** Truth value of [if v:]. *)
Definition truthy (h : gmap nat object) (v : value) : bool :=
  match v with
  | VNone => false
  | VBool b => b
  | VInt n => negb (n =? 0)
  | VStr s => negb (String.eqb s EmptyString)
  | VDict location => match deref h location with [] => false | _ => true end
  end.

(** [key in container]: a key of a dict, a part of a string;
    [TypeError] otherwise. *)
Definition contains (h : gmap nat object) (container : value) (key : string)
  : outcome bool :=
  match container with
  | VDict location => Returned (dict_mem key (deref h location))
  | VStr s => Returned (match String.index 0 key s with Some _ => true | None => false end)
  | _ => Raised TypeError
  end.

(** The loop of [Config.get] over the keys of the path. *)
Fixpoint get_from (h : gmap nat object) (keys : list string) (v default : value) : value :=
  match keys with
  | [] => v
  | k :: rest =>
      match v with
      | VDict location =>
          match dict_get k (deref h location) with
          | Some x => get_from h rest x default
          | None => default
          end
      | _ => default
      end
  end.

(** [Config.get(key, default)] *)
Definition get (c : config) (key : string) (default : value) : value :=
  get_from (heap c) (Configuration.split_dots key) (VDict (data c)) default.

(** [text[n:]] *)
Fixpoint drop (n : nat) (text : string) : string :=
  match n, text with
  | S n', String _ rest => drop n' rest
  | _, _ => text
  end.

(** [token[:8] + '...' + token[-4:] if len(token) > 12 else '***'] on a
    string. *)
Definition mask (token : string) : string :=
  if 12 <? Z.of_nat (String.length token)
  then Utils.take 8 token +:+ "..." +:+ drop (String.length token - 4) token
  else "***".

(** The same expression on any value: [len] fails on a bool or an int,
    and a dict of more than 12 items cannot be sliced. *)
Definition masked (h : gmap nat object) (token : value) : outcome string :=
  match token with
  | VStr s => Returned (mask s)
  | VDict location =>
      if 12 <? Z.of_nat (length (deref h location)) then Raised TypeError
      else Returned "***"%string
  | _ => Raised TypeError
  end.

(** [Config.display()], without what it prints.  [dict(self.data)] is
    a new dict with the items of [self.data]: the dicts these items
    hold are shared with it. *)
Definition display (c : config) : outcome unit * config :=
  let copy := fresh (dom (heap c)) in
  let h1 := <[copy := deref (heap c) (data c)]> (heap c) in
  let c1 := {| heap := h1; data := data c |} in
  let display_data := deref h1 copy in
  match dict_get "github" display_data with
  | None => (Returned tt, c1)
  | Some github =>
      match contains h1 github "token" with
      | Raised e => (Raised e, c1)
      | Returned false => (Returned tt, c1)
      | Returned true =>
          match github with
          | VDict location =>
              let token := default VNone (dict_get "token" (deref h1 location)) in
              if truthy h1 token then
                match masked h1 token with
                | Raised e => (Raised e, c1)
                | Returned text =>
                    (Returned tt,
                     {| heap := <[location := dict_put "token" (VStr text)
                                                (deref h1 location)]> h1;
                        data := data c |})
                end
              else (Returned tt, c1)
          | _ => (Raised TypeError, c1)
          end
      end
  end.

(** A configuration with a [github] section. *)
Definition sample_config : config :=
  {| heap := {[ 0%nat := [("github", VDict 1); ("mode", VStr "batch")]%string;
                1%nat := [("token", VStr "ghp_0123456789abcdef");
                          ("username", VStr "octocat")]%string ]};
     data := 0 |}.

End ConfigObject.

(** * Properties *)

(** ** Retry policy *)

Module RetryPolicy.
Import RateLimiter.

Section Facts.
Context {St A : Type}.
Variable sleep : Z -> St -> St.
Variables max_retries delay : Z.
Variable func : St -> outcome A * St.

Local Abbreviation attempts := (attempts sleep max_retries delay func).
Local Abbreviation state_before := (state_before sleep delay func).

Lemma state_before_shift (k : nat) (s : St) :
  state_before (S k) s = state_before k (sleep delay (snd (func s))).
Proof.
  induction k as [|k IH]; [reflexivity|].
  change (state_before (S (S k)) s)
    with (sleep delay (snd (func (state_before (S k) s)))).
  now rewrite IH.
Qed.

(** A returning call ends the loop. *)
Lemma attempts_returned todo attempt last s calls zs v s1 :
  func s = (Returned v, s1) ->
  attempts (S todo) attempt last s calls zs = stop (Returned (Some v)) s1 (S calls) zs.
Proof. intros Hf. cbn. now rewrite Hf. Qed.

(** An HTTP error other than 403 ends the loop at once. *)
Lemma attempts_http_fatal todo attempt last s calls zs code s1 :
  func s = (Raised (HTTPError code), s1) -> code <> 403 ->
  attempts (S todo) attempt last s calls zs
  = stop (Raised (HTTPError code)) s1 (S calls) zs.
Proof.
  intros Hf Hcode. cbn. rewrite Hf.
  destruct (Z.eqb_spec code 403); [contradiction|reflexivity].
Qed.

(** A retried failure before the last attempt: one sleep, then on. *)
Lemma attempts_retried todo attempt last s calls zs e s1 :
  func s = (Raised e, s1) -> retried e = true ->
  attempt < max_retries - 1 -> 0 <= backoff delay e attempt ->
  attempts (S todo) attempt last s calls zs
  = attempts todo (attempt + 1) (Some e) (sleep (backoff delay e attempt) s1)
      (S calls) (zs ++ [backoff delay e attempt]).
Proof.
  intros Hf He Hlt Hpos. cbn. rewrite Hf.
  apply Z.ltb_lt in Hlt. apply Z.ltb_ge in Hpos.
  destruct e; cbn in He, Hpos |- *; rewrite ?He, ?Hlt, ?Hpos; reflexivity.
Qed.

(** A retried failure of the last attempt: no sleep. *)
Lemma attempts_retried_last todo attempt last s calls zs e s1 :
  func s = (Raised e, s1) -> retried e = true ->
  max_retries - 1 <= attempt ->
  attempts (S todo) attempt last s calls zs
  = attempts todo (attempt + 1) (Some e) s1 (S calls) zs.
Proof.
  intros Hf He Hge. cbn. rewrite Hf.
  apply Z.ltb_ge in Hge.
  destruct e; cbn in He |- *; rewrite ?He, ?Hge; reflexivity.
Qed.

(** The loop when every remaining call raises something that is not an
    [HTTPError]. *)
Lemma attempts_all_other todo : forall attempt last s calls zs,
  0 <= delay ->
  attempt + Z.of_nat (S todo) = max_retries ->
  (forall k, (k < S todo)%nat ->
     exists e, fst (func (state_before k s)) = Raised e /\ is_http_error e = false) ->
  exists e,
    fst (func (state_before todo s)) = Raised e /\
    attempts (S todo) attempt last s calls zs
    = stop (Raised e) (snd (func (state_before todo s)))
        (calls + S todo) (zs ++ repeat delay todo).
Proof.
  induction todo as [|todo IH]; intros attempt last s calls zs Hd Hsum Hall.
  - destruct (Hall 0%nat ltac:(lia)) as (e & He & Hk). cbn in He.
    exists e. split; [exact He|].
    destruct (func s) as [r s1] eqn:Hf. cbn in He. subst r.
    rewrite (attempts_retried_last _ _ _ _ _ _ e s1 Hf); [|destruct e; easy|lia].
    cbn. rewrite Hf, app_nil_r. cbn. f_equal. lia.
  - destruct (Hall 0%nat ltac:(lia)) as (e & He & Hk). cbn in He.
    destruct (func s) as [r s1] eqn:Hf. cbn in He. subst r.
    assert (Hb : backoff delay e attempt = delay) by (destruct e; easy).
    rewrite (attempts_retried _ _ _ _ _ _ e s1 Hf); [|destruct e; easy|lia|rewrite Hb; lia].
    rewrite Hb.
    destruct (IH (attempt + 1) (Some e) (sleep delay s1) (S calls) (zs ++ [delay]) Hd)
      as (e' & He' & Hrun); [lia| |].
    + intros k Hk'. specialize (Hall (S k) ltac:(lia)).
      rewrite state_before_shift, Hf in Hall. exact Hall.
    + exists e'. rewrite state_before_shift, Hf. cbn [snd].
      split; [exact He'|]. rewrite Hrun. f_equal; [lia|].
      rewrite <- app_assoc. reflexivity.
Qed.

End Facts.

(** When the wrapped function runs in the world and only adds requests,
    so does the wrapper, starting with those of the first invocation. *)
Lemma attempts_requests {A : Type} (sleep : Z -> world -> world) (max_retries delay : Z)
    (func : world -> outcome A * world) :
  (forall d s, requests (sleep d s) = requests s) ->
  (forall s, exists more, requests (func s).2 = requests s ++ more) ->
  forall todo attempt last s calls zs,
    exists more,
      requests (final (attempts sleep max_retries delay func todo attempt last s calls zs))
      = requests s ++ more.
Proof.
  intros Hsleep Hfunc.
  induction todo as [|todo IH]; intros attempt last s calls zs.
  - exists []. cbn. destruct last; cbn; now rewrite app_nil_r.
  - destruct (Hfunc s) as (m1 & Hm1). cbn [attempts].
    destruct (func s) as [r s1]. cbn [snd] in Hm1.
    assert (Hstop : forall o n l, exists more,
               requests (final (stop (A := A) o s1 n l)) = requests s ++ more)
      by (intros; exists m1; exact Hm1).
    assert (Hnext : forall a l s2 n l',
               requests s2 = requests s1 ->
               exists more,
                 requests (final (attempts sleep max_retries delay func todo a l s2 n l'))
                 = requests s ++ more).
    { intros a l s2 n l' Hs2. destruct (IH a l s2 n l') as (m2 & Hm2).
      exists (m1 ++ m2). now rewrite Hm2, Hs2, Hm1, app_assoc. }
    destruct r as [v|e]; [apply Hstop|].
    destruct e; repeat match goal with
                  | |- context [if ?c then _ else _] => destruct c
                  end;
      first [apply Hstop | apply Hnext; first [apply Hsleep | reflexivity]].
Qed.

Lemma with_retry_requests {A : Type} (sleep : Z -> world -> world) (max_retries delay : Z)
    (func : world -> outcome A * world) (s : world) :
  0 < max_retries ->
  (forall d s0, requests (sleep d s0) = requests s0) ->
  (forall s0, exists more, requests (func s0).2 = requests s0 ++ more) ->
  exists more,
    requests (final (with_retry sleep max_retries delay func s))
    = requests (func s).2 ++ more.
Proof.
  intros Hm Hsleep Hfunc. unfold with_retry.
  destruct (Z.to_nat max_retries) as [|todo] eqn:Hn; [lia|].
  cbn [attempts]. destruct (func s) as [r s1]. cbn [snd].
  assert (Hstop : forall o n l, exists more,
             requests (final (stop (A := A) o s1 n l)) = requests s1 ++ more)
    by (intros; exists []; cbn; now rewrite app_nil_r).
  assert (Hnext : forall a l s2 n l',
             requests s2 = requests s1 ->
             exists more,
               requests (final (attempts sleep max_retries delay func todo a l s2 n l'))
               = requests s1 ++ more).
  { intros a l s2 n l' Hs2.
    destruct (attempts_requests sleep max_retries delay func Hsleep Hfunc todo a l s2 n l')
      as (m2 & Hm2).
    exists m2. now rewrite Hm2, Hs2. }
  destruct r as [v|e]; [apply Hstop|].
  destruct e; repeat match goal with
                | |- context [if ?c then _ else _] => destruct c
                end;
    first [apply Hstop | apply Hnext; first [apply Hsleep | reflexivity]].
Qed.

(** C1 (as amended).  With [max_retries = 3]: an operation that fails
    with status 403 on its first two invocations and succeeds on the
    third makes the wrapper return the success value after exactly 3
    invocations, having slept [delay * 2^0] and then [delay * 2^1]; an
    operation whose three invocations all fail, each with status 403 or
    with an exception that is not an HTTP error, makes the wrapper
    re-raise the last of these exceptions after exactly 3 invocations. *)
Theorem with_retry_three_attempts {St A : Type} (sleep : Z -> St -> St) (delay : Z)
    (func : St -> outcome A * St) :
  0 <= delay ->
  (forall s0 s1 s2 s3 v,
      func s0 = (Raised (HTTPError 403), s1) ->
      func (sleep (delay * 2 ^ 0) s1) = (Raised (HTTPError 403), s2) ->
      func (sleep (delay * 2 ^ 1) s2) = (Returned v, s3) ->
      with_retry sleep 3 delay func s0
      = {| result := Returned (Some v); final := s3; invocations := 3;
           sleeps := [delay * 2 ^ 0; delay * 2 ^ 1] |})
  /\
  (forall s0 s1 s2 s3 e1 e2 e3,
      retried e1 = true -> retried e2 = true -> retried e3 = true ->
      func s0 = (Raised e1, s1) ->
      func (sleep (backoff delay e1 0) s1) = (Raised e2, s2) ->
      func (sleep (backoff delay e2 1) s2) = (Raised e3, s3) ->
      with_retry sleep 3 delay func s0
      = {| result := Raised e3; final := s3; invocations := 3;
           sleeps := [backoff delay e1 0; backoff delay e2 1] |}).
Proof.
  intros Hd.
  assert (Hb : forall e k, 0 <= k -> 0 <= backoff delay e k).
  { intros e k Hk.
    destruct e; cbn;
      first [lia | apply Z.mul_nonneg_nonneg; [lia|apply Z.pow_nonneg; lia]]. }
  split.
  - intros s0 s1 s2 s3 v H0 H1 H2. unfold with_retry.
    change (Z.to_nat 3) with 3%nat.
    rewrite (attempts_retried sleep 3 delay func _ _ _ _ _ _ _ _ H0);
      [|reflexivity|lia|apply Hb; lia].
    rewrite (attempts_retried sleep 3 delay func _ _ _ _ _ _ _ _ H1);
      [|reflexivity|lia|apply Hb; lia].
    rewrite (attempts_returned sleep 3 delay func _ _ _ _ _ _ _ _ H2).
    reflexivity.
  - intros s0 s1 s2 s3 e1 e2 e3 R1 R2 R3 H0 H1 H2. unfold with_retry.
    change (Z.to_nat 3) with 3%nat.
    rewrite (attempts_retried sleep 3 delay func _ _ _ _ _ _ _ _ H0 R1);
      [|lia|apply Hb; lia].
    rewrite (attempts_retried sleep 3 delay func _ _ _ _ _ _ _ _ H1 R2);
      [|lia|apply Hb; lia].
    rewrite (attempts_retried_last sleep 3 delay func _ _ _ _ _ _ _ _ H2 R3); [|lia].
    reflexivity.
Qed.

Lemma with_retry_three_attempts_witness :
  with_retry Fixtures.count_sleep 3 2 Fixtures.quota_twice_then_ok 0%nat
  = {| result := Returned (Some "ok"%string); final := 3%nat; invocations := 3;
       sleeps := [2; 4] |}
  /\
  with_retry Fixtures.count_sleep 3 2 Fixtures.never_ok 0%nat
  = {| result := Raised (HTTPError 403); final := 3%nat; invocations := 3;
       sleeps := [2; 2] |}.
Proof.
  split.
  - apply (proj1 (with_retry_three_attempts Fixtures.count_sleep 2
                    Fixtures.quota_twice_then_ok ltac:(lia))
             0%nat 1%nat 2%nat 3%nat "ok"%string); reflexivity.
  - apply (proj2 (with_retry_three_attempts Fixtures.count_sleep 2
                    Fixtures.never_ok ltac:(lia))
             0%nat 1%nat 2%nat 3%nat
             (HTTPError 403) (OtherException "Timeout") (HTTPError 403)); reflexivity.
Defined.

(** C1 as stated fails: an operation that fails on every invocation with
    status 500 is invoked once, not 3 times, and the wrapper raises that
    first error. *)
Lemma with_retry_always_500_once :
  (forall n, exists e, fst (Fixtures.always_500 n) = Raised e) /\
  invocations (with_retry Fixtures.count_sleep 3 2 Fixtures.always_500 0%nat) = 1%nat /\
  invocations (with_retry Fixtures.count_sleep 3 2 Fixtures.always_500 0%nat) <> 3%nat /\
  result (with_retry Fixtures.count_sleep 3 2 Fixtures.always_500 0%nat)
  = Raised (HTTPError 500).
Proof.
  split; [intros n; eexists; reflexivity|].
  repeat split; cbn; discriminate.
Qed.




End RetryPolicy.

(** ** Quota monitor *)

Module QuotaMonitor.
Import RateLimiter.

Lemma clock_sleep_seconds n w :
  clock (sleep_seconds n w) = clock w + Z.of_nat n * second.
Proof.
  induction n as [|n IH]; [cbn; lia|].
  change (sleep_seconds (S n) w) with (time_sleep second (sleep_seconds n w)).
  cbn [time_sleep clock]. rewrite IH. lia.
Qed.

Lemma slept_sleep_seconds n w :
  slept (sleep_seconds n w) = slept w ++ repeat second n.
Proof.
  induction n as [|n IH]; [cbn; now rewrite app_nil_r|].
  change (sleep_seconds (S n) w) with (time_sleep second (sleep_seconds n w)).
  cbn [time_sleep slept]. rewrite IH, <- app_assoc. f_equal.
  change [second] with (repeat second 1). rewrite <- repeat_app.
  f_equal. lia.
Qed.

Lemma sleep_seconds_unfold n w :
  sleep_seconds (S n) w = sleep_seconds n (time_sleep second w).
Proof. unfold sleep_seconds. now rewrite Nat.iter_succ_r. Qed.

Lemma sleep_seconds_keeps n w :
  quota_answers (sleep_seconds n w) = quota_answers w /\
  requests (sleep_seconds n w) = requests w /\
  cache_dir (sleep_seconds n w) = cache_dir w.
Proof.
  induction n as [|n IH]; [easy|].
  change (sleep_seconds (S n) w) with (time_sleep second (sleep_seconds n w)).
  exact IH.
Qed.

(** The loop sleeps whole seconds until the deadline is reached: [n]
    sleeps when the deadline lies in the [n]-th second from now. *)
Lemma wait_loop_deadline n : forall fuel end_time w,
  (n <= fuel)%nat ->
  end_time <= clock w + Z.of_nat n * second ->
  (n <> 0%nat -> clock w + (Z.of_nat n - 1) * second < end_time) ->
  wait_loop fuel end_time w = sleep_seconds n w.
Proof.
  induction n as [|n IH]; intros fuel end_time w Hfuel Hle Hgt.
  - assert (Hc : (clock w <? end_time) = false) by (apply Z.ltb_ge; lia).
    destruct fuel; cbn; now rewrite Hc.
  - assert (Hc : (clock w <? end_time) = true).
    { apply Z.ltb_lt. specialize (Hgt ltac:(lia)). unfold second in *. lia. }
    destruct fuel as [|fuel]; [lia|].
    cbn [wait_loop]. rewrite Hc, sleep_seconds_unfold.
    apply IH; cbn [time_sleep clock]; [lia|lia|].
    intros Hn. specialize (Hgt ltac:(lia)). lia.
Qed.

(** [_wait_with_progress(seconds)] sleeps [seconds], rounded up to a
    whole second, in one-second steps. *)
Lemma wait_with_progress_sleeps seconds w :
  0 <= seconds ->
  wait_with_progress seconds w
  = sleep_seconds (Z.to_nat ((seconds + second - 1) / second)) w.
Proof.
  intros Hs. unfold wait_with_progress.
  apply wait_loop_deadline; unfold second in *.
  - apply Z2Nat.inj_le; Z.div_mod_to_equations; lia.
  - rewrite Z2Nat.id by (Z.div_mod_to_equations; lia).
    Z.div_mod_to_equations; lia.
  - intros _. rewrite Z2Nat.id by (Z.div_mod_to_equations; lia).
    Z.div_mod_to_equations; lia.
Qed.

(** The world after the quota request. *)
Lemma get_rate_limit_answer r rest w :
  quota_answers w = r :: rest ->
  get_rate_limit w
  = (r, {| clock := clock w; quota_answers := rest; slept := slept w;
           requests := requests w ++ [GetRateLimit]; cache_dir := cache_dir w |}).
Proof. intros Hq. unfold get_rate_limit. now rewrite Hq. Qed.

Lemma get_rate_limit_keeps w :
  clock (snd (get_rate_limit w)) = clock w /\
  slept (snd (get_rate_limit w)) = slept w /\
  requests (snd (get_rate_limit w)) = requests w ++ [GetRateLimit].
Proof. unfold get_rate_limit. destruct (quota_answers w); easy. Qed.

Lemma check_rate_limit_keeps h w :
  clock (snd (check_rate_limit h w)) = clock w /\
  slept (snd (check_rate_limit h w)) = slept w /\
  requests (snd (check_rate_limit h w)) = requests w ++ [GetRateLimit] /\
  min_remaining (snd (fst (check_rate_limit h w))) = min_remaining h.
Proof.
  unfold check_rate_limit.
  pose proof (get_rate_limit_keeps w) as K.
  destruct (get_rate_limit w) as [[rem lim rst usd|e] w1]; cbn in K |- *; tauto.
Qed.

(** Whatever [wait_if_needed] does, the sleeps it adds are one-second
    sleeps and the clock has moved by their number. *)
Lemma wait_if_needed_sleeps force_check h w :
  exists n : nat,
    slept (wait_if_needed force_check h w).2 = slept w ++ repeat second n /\
    clock (wait_if_needed force_check h w).2 = clock w + Z.of_nat n * second.
Proof.
  unfold wait_if_needed.
  destruct (recently_checked force_check h w).
  { exists 0%nat. cbn. rewrite app_nil_r. split; [reflexivity|lia]. }
  pose proof (check_rate_limit_keeps h w) as (Kc & Ks & _).
  destruct (check_rate_limit h w) as [[info h1] w1]. cbn in Kc, Ks.
  destruct (remaining info <? min_remaining h1);
    [destruct (Z.ltb_spec 0 (reset_datetime info - clock w1))|].
  - rewrite wait_with_progress_sleeps by (unfold second; lia).
    eexists. cbn [snd]. rewrite slept_sleep_seconds, clock_sleep_seconds, Kc, Ks.
    split; reflexivity.
  - exists 0%nat. cbn. rewrite app_nil_r, Ks, Kc. split; [reflexivity|lia].
  - exists 0%nat. cbn. rewrite app_nil_r, Ks, Kc. split; [reflexivity|lia].
Qed.

(** [wait_if_needed] leaves the cache directory alone and adds at most the
    quota request to the requests. *)
Lemma wait_if_needed_keeps force_check h w :
  cache_dir (wait_if_needed force_check h w).2 = cache_dir w /\
  exists asked, requests (wait_if_needed force_check h w).2 = requests w ++ asked.
Proof.
  unfold wait_if_needed.
  destruct (recently_checked force_check h w).
  { split; [reflexivity|]. exists []. cbn. now rewrite app_nil_r. }
  assert (Kd : cache_dir (check_rate_limit h w).2 = cache_dir w).
  { unfold check_rate_limit, get_rate_limit.
    destruct (quota_answers w) as [|[rem lim rst usd|e] rest]; reflexivity. }
  pose proof (check_rate_limit_keeps h w) as (_ & _ & Kr & _).
  destruct (check_rate_limit h w) as [[info h1] w1]. cbn [snd] in Kd, Kr.
  assert (Hw : forall n,
             cache_dir (sleep_seconds n w1) = cache_dir w /\
             exists asked, requests (sleep_seconds n w1) = requests w ++ asked).
  { intros n. destruct (sleep_seconds_keeps n w1) as (_ & Hr & Hd).
    rewrite Hr, Hd, Kr, Kd. split; [reflexivity|]. now exists [GetRateLimit]. }
  destruct (remaining info <? min_remaining h1);
    [destruct (Z.ltb_spec 0 (reset_datetime info - clock w1))|]; cbn [snd].
  - rewrite wait_with_progress_sleeps by (unfold second; lia). apply Hw.
  - apply (Hw 0%nat).
  - apply (Hw 0%nat).
Qed.

(** C3.  When the status is freshly checked: with [min_remaining = 100],
    [remaining = 50] and the reset 30 s ahead, [wait_if_needed] sleeps
    35 s (in one-second steps) and returns true; with [remaining = 200]
    it returns false without sleeping; when the clock is at or past the
    reset it returns false without sleeping.  In every case each sleep
    it performs lasts one second, so none is negative. *)
Theorem wait_if_needed_quota :
  (forall force_check h w lim rst usd rest,
      recently_checked force_check h w = false ->
      min_remaining h = 100 ->
      quota_answers w = CoreOk 50 lim rst usd :: rest ->
      rst * second = clock w + 30 * second ->
      (wait_if_needed force_check h w).1.1 = true /\
      clock (wait_if_needed force_check h w).2 = clock w + 35 * second /\
      slept (wait_if_needed force_check h w).2 = slept w ++ repeat second 35)
  /\
  (forall force_check h w lim rst usd rest,
      recently_checked force_check h w = false ->
      min_remaining h = 100 ->
      quota_answers w = CoreOk 200 lim rst usd :: rest ->
      (wait_if_needed force_check h w).1.1 = false /\
      clock (wait_if_needed force_check h w).2 = clock w /\
      slept (wait_if_needed force_check h w).2 = slept w)
  /\
  (forall force_check h w rem lim rst usd rest,
      recently_checked force_check h w = false ->
      quota_answers w = CoreOk rem lim rst usd :: rest ->
      rst * second <= clock w ->
      (wait_if_needed force_check h w).1.1 = false /\
      clock (wait_if_needed force_check h w).2 = clock w /\
      slept (wait_if_needed force_check h w).2 = slept w)
  /\
  (forall force_check h w,
      exists n : nat,
        slept (wait_if_needed force_check h w).2 = slept w ++ repeat second n /\
        clock (wait_if_needed force_check h w).2 = clock w + Z.of_nat n * second /\
        0 < second).
Proof.
  split; [|split; [|split]].
  - intros force_check h w lim rst usd rest Hfresh Hmin Hq Hreset.
    unfold wait_if_needed, check_rate_limit.
    rewrite Hfresh, (get_rate_limit_answer _ _ _ Hq). cbn.
    rewrite Hmin. cbn.
    replace (rst * second - clock w) with (30 * second) by lia.
    change (0 <? 30 * second) with true. cbn iota.
    rewrite wait_with_progress_sleeps by (unfold second; lia).
    change (Z.to_nat ((30 * second + 5 * second + second - 1) / second)) with 35%nat.
    cbn [fst snd].
    rewrite clock_sleep_seconds, slept_sleep_seconds. cbn. repeat split; lia.
  - intros force_check h w lim rst usd rest Hfresh Hmin Hq.
    unfold wait_if_needed, check_rate_limit.
    rewrite Hfresh, (get_rate_limit_answer _ _ _ Hq). cbn.
    rewrite Hmin. cbn. repeat split.
  - intros force_check h w rem lim rst usd rest Hfresh Hq Hpast.
    unfold wait_if_needed, check_rate_limit.
    rewrite Hfresh, (get_rate_limit_answer _ _ _ Hq). cbn.
    assert (Hw : (0 <? rst * second - clock w) = false) by (apply Z.ltb_ge; lia).
    rewrite Hw. destruct (rem <? min_remaining h); repeat split.
  - intros force_check h w.
    destruct (wait_if_needed_sleeps force_check h w) as (n & Hs & Hc).
    exists n. repeat split; [exact Hs|exact Hc].
Qed.

Lemma wait_if_needed_quota_witness :
  ((wait_if_needed false (init 100) Fixtures.low_quota_world).1.1 = true /\
   clock (wait_if_needed false (init 100) Fixtures.low_quota_world).2
   = clock Fixtures.low_quota_world + 35 * second /\
   slept (wait_if_needed false (init 100) Fixtures.low_quota_world).2
   = slept Fixtures.low_quota_world ++ repeat second 35)
  /\
  ((wait_if_needed false (init 100) Fixtures.fair_quota_world).1.1 = false /\
   clock (wait_if_needed false (init 100) Fixtures.fair_quota_world).2
   = clock Fixtures.fair_quota_world /\
   slept (wait_if_needed false (init 100) Fixtures.fair_quota_world).2
   = slept Fixtures.fair_quota_world)
  /\
  ((wait_if_needed false (init 100) Fixtures.past_reset_world).1.1 = false /\
   clock (wait_if_needed false (init 100) Fixtures.past_reset_world).2
   = clock Fixtures.past_reset_world /\
   slept (wait_if_needed false (init 100) Fixtures.past_reset_world).2
   = slept Fixtures.past_reset_world).
Proof.
  destruct wait_if_needed_quota as (Hlow & Hfair & Hpast & _).
  split; [|split].
  - apply (Hlow false (init 100) Fixtures.low_quota_world 5000 1030 4950 []);
      reflexivity.
  - apply (Hfair false (init 100) Fixtures.fair_quota_world 5000 1030 4800 []);
      reflexivity.
  - apply (Hpast false (init 100) Fixtures.past_reset_world 50 5000 990 4950 []);
      [reflexivity|reflexivity|vm_compute; discriminate].
Defined.

(** C4 (as amended).  When the quota call fails, [check_rate_limit]
    raises nothing and returns the fallback status, 5000 remaining of
    5000 with the reset at the present time, and leaves the cached
    status and check time as they were.  When the call succeeds, it
    caches the status it returns and the time of the check, and a
    [wait_if_needed()] less than 5 seconds after that check returns
    false without a new request. *)
Theorem check_rate_limit_fallback_and_cache (h : RateLimitHandler) (w : world) :
  ((quota_answers w = [] \/ exists e rest, quota_answers w = RequestFailed e :: rest) ->
   (check_rate_limit h w).1.1
   = {| remaining := 5000; limit := 5000; reset := 0;
        reset_datetime := clock w; used := 0 |} /\
   (check_rate_limit h w).1.2 = h)
  /\
  (forall rem lim rst usd rest,
      quota_answers w = CoreOk rem lim rst usd :: rest ->
      (check_rate_limit h w).1.1
      = {| remaining := rem; limit := lim; reset := rst;
           reset_datetime := rst * second; used := usd |} /\
      last_check (check_rate_limit h w).1.2 = Some (clock w) /\
      last_rate_info (check_rate_limit h w).1.2 = Some (check_rate_limit h w).1.1 /\
      forall w2,
        clock w2 - clock w < 5 * second ->
        wait_if_needed false (check_rate_limit h w).1.2 w2
        = (false, (check_rate_limit h w).1.2, w2)).
Proof.
  split.
  - intros Hfail. unfold check_rate_limit, get_rate_limit.
    destruct Hfail as [Hq|(e & rest & Hq)]; rewrite Hq; cbn; split; reflexivity.
  - intros rem lim rst usd rest Hq.
    unfold check_rate_limit. rewrite (get_rate_limit_answer _ _ _ Hq). cbn.
    repeat split. intros w2 Hw2.
    unfold wait_if_needed, recently_checked. cbn.
    apply Z.ltb_lt in Hw2. now rewrite Hw2.
Qed.

Lemma check_rate_limit_fallback_and_cache_witness :
  ((check_rate_limit (init 100) Fixtures.degraded_world).1.1
   = {| remaining := 5000; limit := 5000; reset := 0;
        reset_datetime := clock Fixtures.degraded_world; used := 0 |} /\
   (check_rate_limit (init 100) Fixtures.degraded_world).1.2 = init 100)
  /\
  (last_check (check_rate_limit (init 100) Fixtures.fair_quota_world).1.2
   = Some (clock Fixtures.fair_quota_world) /\
   wait_if_needed false (check_rate_limit (init 100) Fixtures.fair_quota_world).1.2
     (time_sleep (4 * second) Fixtures.low_quota_world)
   = (false, (check_rate_limit (init 100) Fixtures.fair_quota_world).1.2,
      time_sleep (4 * second) Fixtures.low_quota_world)).
Proof.
  split.
  - apply (proj1 (check_rate_limit_fallback_and_cache (init 100) Fixtures.degraded_world)).
    right. exists ConnectionError, [CoreOk 4000 5000 2000 1000]. reflexivity.
  - destruct (proj2 (check_rate_limit_fallback_and_cache (init 100)
                       Fixtures.fair_quota_world) 200 5000 1030 4800 [] eq_refl)
      as (_ & Hcheck & _ & Hskip).
    split; [exact Hcheck|]. apply Hskip. vm_compute. reflexivity.
Defined.

(** C4 as stated fails: after a failed quota call nothing is cached, and
    a [wait_if_needed()] at the same instant asks the quota endpoint
    again. *)
Lemma check_rate_limit_fallback_not_cached :
  remaining (check_rate_limit (init 100) Fixtures.degraded_world).1.1 = 5000 /\
  last_check (check_rate_limit (init 100) Fixtures.degraded_world).1.2 = None /\
  last_rate_info (check_rate_limit (init 100) Fixtures.degraded_world).1.2 = None /\
  requests (check_rate_limit (init 100) Fixtures.degraded_world).2 = [GetRateLimit] /\
  requests
    (wait_if_needed false
       (check_rate_limit (init 100) Fixtures.degraded_world).1.2
       (check_rate_limit (init 100) Fixtures.degraded_world).2).2
  = [GetRateLimit; GetRateLimit].
Proof. repeat split. Qed.

End QuotaMonitor.

(** ** Cache store *)

Module CacheStore.
Import CacheManager.

Lemma ends_with_unfold suffix name :
  ends_with suffix name
  = if String.eqb name suffix then true
    else match name with
         | EmptyString => false
         | String _ rest => ends_with suffix rest
         end.
Proof. destruct name; reflexivity. Qed.

Lemma ends_with_app suffix name : ends_with suffix (name +:+ suffix) = true.
Proof.
  induction name as [|c name IH]; rewrite ends_with_unfold.
  - change (EmptyString +:+ suffix)%string with suffix. now rewrite String.eqb_refl.
  - destruct (String.eqb _ _); [reflexivity|exact IH].
Qed.

Section Facts.
Context `{PyLib}.

Lemma cache_file_is_json key : is_json_name (cache_file key) = true.
Proof. apply ends_with_app. Qed.

(** Removing a cache entry lowers the number of cache files by one. *)
Lemma total_files_unlink key f w :
  cache_dir w !! cache_file key = Some f ->
  total_files (get_cache_info (unlink (cache_file key) w))
  = total_files (get_cache_info w) - 1.
Proof.
  intros Hf. unfold get_cache_info, unlink, json_files. cbn.
  rewrite map_filter_delete.
  assert (Hin : filter (fun entry => is_json_name entry.1 = true) (cache_dir w)
                  !! cache_file key = Some f).
  { apply map_lookup_filter_Some. split; [exact Hf|apply cache_file_is_json]. }
  rewrite map_size_delete, Hin.
  assert (size (filter (fun entry => is_json_name entry.1 = true) (cache_dir w)) <> 0%nat).
  { intros Hz. apply map_size_empty_inv in Hz. rewrite Hz in Hin.
    now rewrite lookup_empty in Hin. }
  lia.
Qed.

Lemma lookup_write_file name text w :
  cache_dir (write_file name text w) !! name
  = Some {| content := text; st_mtime := clock w |}.
Proof. unfold write_file. cbn. apply lookup_insert_eq. Qed.

Lemma lookup_unlink name w : cache_dir (unlink name w) !! name = None.
Proof. unfold unlink. cbn. apply lookup_delete_eq. Qed.

(** [get] on an entry that is neither expired nor corrupted. *)
Lemma get_fresh key max_age_hours w f :
  cache_dir w !! cache_file key = Some f ->
  is_expired max_age_hours f w = false ->
  get key max_age_hours w
  = match json_load (content f) with
    | Returned v => (Returned (Some v), w)
    | Raised e =>
        if is_JSONDecodeError e || is_IOError e
        then (Returned None, unlink (cache_file key) w)
        else (Raised e, w)
    end.
Proof.
  intros Hf Hage. unfold get. now rewrite Hf, Hage.
Qed.

Lemma get_expired key max_age_hours w f :
  cache_dir w !! cache_file key = Some f ->
  is_expired max_age_hours f w = true ->
  get key max_age_hours w = (Returned None, unlink (cache_file key) w).
Proof.
  intros Hf Hage. unfold get. now rewrite Hf, Hage.
Qed.

Lemma get_missing key max_age_hours w :
  cache_dir w !! cache_file key = None ->
  get key max_age_hours w = (Returned None, w).
Proof. intros Hf. unfold get. now rewrite Hf. Qed.

End Facts.

(** The library of the examples reads back what it writes. *)
Lemma small_lib_round_trip (v : pyval) (text : string) :
  Fixtures.small_dump v = Dumped text -> Fixtures.small_load text = Returned v.
Proof.
  destruct v as [|[]| | |[|]| |]; cbn; intros Hd; try discriminate;
    injection Hd as <-; reflexivity.
Qed.







(** A stored [null] is read back as [None], which a Python caller cannot
    tell from an absent entry. *)
Remark get_stored_null `{PyLib} (key : string) (max_age_hours : Z) (w : world) (f : file) :
  cache_dir w !! cache_file key = Some f ->
  is_expired max_age_hours f w = false ->
  json_load (content f) = Returned PNone ->
  get key max_age_hours w = (Returned (Some PNone), w) /\
  to_py (Some PNone) = to_py None.
Proof.
  intros Hf Hage Hload. rewrite (get_fresh _ _ _ _ Hf Hage), Hload. split; reflexivity.
Qed.

End CacheStore.

(** ** Issue counting *)

Module IssueCounting.
Import GitHubStats.

Lemma length_filter_split {X : Type} (p : X -> bool) (l : list X) :
  (length (List.filter p l) + length (List.filter (fun x => negb (p x)) l))%nat = length l.
Proof.
  induction l as [|x l IH]; [reflexivity|].
  cbn. destruct (p x); cbn; lia.
Qed.

(** An issue with a state adds one to the total and one to exactly one
    of the two buckets. *)
Lemma count_issue_one_bucket (issue : list (string * pyval)) (stats : issue_stats) :
  dict_mem "state" issue = true ->
  (count_issue issue stats).1 = Returned tt /\
  total (count_issue issue stats).2 = total stats + 1 /\
  ((open (count_issue issue stats).2 = open stats + 1 /\
    closed (count_issue issue stats).2 = closed stats)
   \/
   (open (count_issue issue stats).2 = open stats /\
    closed (count_issue issue stats).2 = closed stats + 1)).
Proof.
  unfold dict_mem, count_issue. intros Hstate.
  destruct (dict_get "state" issue) as [state|]; [|discriminate].
  destruct (py_eq_str state "open"); cbn; auto.
Qed.

Lemma count_listed_totals (issues : list (list (string * pyval))) : forall stats,
  Forall (fun i => dict_mem "state" i = true) issues ->
  (count_listed issues stats).1 = Returned tt /\
  total (count_listed issues stats).2 = total stats + Z.of_nat (length issues) /\
  open (count_listed issues stats).2 + closed (count_listed issues stats).2
  = open stats + closed stats + Z.of_nat (length issues).
Proof.
  induction issues as [|issue issues IH]; intros stats Hall.
  - cbn. repeat split; lia.
  - inversion Hall as [|? ? Hstate Hrest]; subst.
    destruct (count_issue_one_bucket issue stats Hstate) as (Hr & Ht & Hb).
    cbn [count_listed].
    destruct (count_issue issue stats) as [r stats1]. cbn in Hr, Ht, Hb. subst r.
    destruct (IH stats1 Hrest) as (Hr' & Ht' & Hb').
    rewrite Hr', Ht', Hb'. cbn [length]. repeat split; lia.
Qed.

Lemma without_pull_requests_stated (issues : list (list (string * pyval))) :
  Forall (fun i => dict_mem "pull_request" i = false -> dict_mem "state" i = true) issues ->
  Forall (fun i => dict_mem "state" i = true) (without_pull_requests issues).
Proof.
  induction 1 as [|i issues Hi _ IH]; cbn; [constructor|].
  destruct (dict_mem "pull_request" i); cbn; [exact IH|].
  constructor; [now apply Hi|exact IH].
Qed.

(** C8.  For a repository whose issue listing answers with 5 items, 3
    of them carrying the [pull_request] key, [count_issues] reports a
    total of 2, and the open and closed counts add up to the total:
    every counted item went to exactly one of the two.  (The items that
    are not pull requests have a [state], as the API gives them.) *)
Theorem count_issues_excludes_pull_requests (api : remote) (r : repo)
    (issues : list (list (string * pyval))) (h : RateLimiter.RateLimitHandler) (w : world) :
  issues_of api (full_name r) = Response 200 issues ->
  Forall (fun i => dict_mem "pull_request" i = false -> dict_mem "state" i = true) issues ->
  length issues = 5%nat ->
  length (List.filter (fun i => dict_mem "pull_request" i) issues) = 3%nat ->
  total (count_issues api [r] h w).1.1 = 2 /\
  open (count_issues api [r] h w).1.1 + closed (count_issues api [r] h w).1.1
  = total (count_issues api [r] h w).1.1 /\
  (forall issue stats,
      In issue (without_pull_requests issues) ->
      total (count_issue issue stats).2 = total stats + 1 /\
      ((open (count_issue issue stats).2 = open stats + 1 /\
        closed (count_issue issue stats).2 = closed stats)
       \/
       (open (count_issue issue stats).2 = open stats /\
        closed (count_issue issue stats).2 = closed stats + 1))).
Proof.
  intros Hapi Hstate Hlen Hpulls.
  pose proof (without_pull_requests_stated issues Hstate) as Hwf.
  assert (Hkept : length (without_pull_requests issues) = 2%nat).
  { pose proof (length_filter_split (fun i => dict_mem "pull_request" i) issues) as Hs.
    unfold without_pull_requests. lia. }
  unfold count_issues, RateLimiter.rate_limit_aware.
  destruct (RateLimiter.wait_if_needed false h w) as [[waited h1] w1].
  unfold count_issues_body. cbn [count_issues_from]. unfold count_issues_of.
  rewrite Hapi. cbn [Z.eqb negb fst snd Pos.eqb].
  destruct (count_listed_totals (without_pull_requests issues) no_issues Hwf)
    as (_ & Ht & Hb).
  rewrite Hkept in Ht, Hb. cbn in Ht, Hb.
  split; [exact Ht|]. split; [lia|].
  intros issue stats Hin.
  rewrite List.Forall_forall in Hwf.
  destruct (count_issue_one_bucket issue stats (Hwf issue Hin)) as (_ & Ht' & Hb').
  split; assumption.
Qed.

Lemma count_issues_excludes_pull_requests_witness :
  total (count_issues Fixtures.two_repos_api [Fixtures.repo_a]
           (RateLimiter.init 100) Fixtures.fair_quota_world).1.1 = 2 /\
  open (count_issues Fixtures.two_repos_api [Fixtures.repo_a]
          (RateLimiter.init 100) Fixtures.fair_quota_world).1.1
  + closed (count_issues Fixtures.two_repos_api [Fixtures.repo_a]
              (RateLimiter.init 100) Fixtures.fair_quota_world).1.1
  = total (count_issues Fixtures.two_repos_api [Fixtures.repo_a]
             (RateLimiter.init 100) Fixtures.fair_quota_world).1.1.
Proof.
  destruct (count_issues_excludes_pull_requests Fixtures.two_repos_api Fixtures.repo_a
              Fixtures.five_listed (RateLimiter.init 100) Fixtures.fair_quota_world)
    as (Ht & Hb & _).
  - reflexivity.
  - repeat constructor.
  - reflexivity.
  - reflexivity.
  - split; assumption.
Defined.

End IssueCounting.

(** ** Language statistics *)

Module LanguageStatistics.
Import GitHubStats.

(** *** Accumulation *)

Lemma dict_get_dict_set (k k' : string) (v : Z) (d : list (string * Z)) :
  dict_get k (dict_set k' v d) = if String.eqb k' k then Some v else dict_get k d.
Proof.
  induction d as [|[k0 v0] d IH]; cbn.
  - destruct (String.eqb k' k); reflexivity.
  - destruct (String.eqb_spec k0 k') as [->|Hne]; cbn.
    + destruct (String.eqb k' k); reflexivity.
    + rewrite IH. destruct (String.eqb_spec k0 k) as [->|Hne'].
      * destruct (String.eqb_spec k' k); [congruence|reflexivity].
      * reflexivity.
Qed.

Lemma sum_values_cons (x : string * Z) (d : list (string * Z)) :
  sum_values (x :: d) = x.2 + sum_values d.
Proof. reflexivity. Qed.

Lemma sum_values_dict_set (k : string) (v : Z) (d : list (string * Z)) :
  sum_values (dict_set k v d) = sum_values d - default 0 (dict_get k d) + v.
Proof.
  induction d as [|[k0 v0] d IH]; cbn [dict_set dict_get].
  - cbn. lia.
  - destruct (String.eqb k0 k); rewrite !sum_values_cons;
      cbn [snd default from_option id]; [|rewrite IH]; lia.
Qed.

Lemma add_languages_get (lang : string) (languages : list (string * Z)) :
  forall language_bytes,
    default 0 (dict_get lang (add_languages languages language_bytes))
    = default 0 (dict_get lang language_bytes) + bytes_of lang languages.
Proof.
  induction languages as [|[l b] languages IH]; intros language_bytes; cbn; [lia|].
  rewrite IH, dict_get_dict_set. destruct (String.eqb_spec l lang) as [->|Hne]; cbn; lia.
Qed.

Lemma add_languages_sum (languages : list (string * Z)) : forall language_bytes,
  sum_values (add_languages languages language_bytes)
  = sum_values language_bytes + sum_values languages.
Proof.
  induction languages as [|[l b] languages IH]; intros language_bytes;
    cbn [add_languages].
  - change (sum_values []) with 0. lia.
  - rewrite IH, sum_values_dict_set, sum_values_cons. cbn [snd]. lia.
Qed.

Lemma collect_languages_step (api : remote) (r : repo) (repos : list repo)
    (language_bytes : list (string * Z)) (w : world) :
  collect_languages api (r :: repos) language_bytes w
  = collect_languages api repos
      (add_languages (answered_languages api r) language_bytes)
      (log_request (GetLanguages (full_name r)) w).
Proof.
  cbn [collect_languages]. unfold answered_languages.
  destruct (languages_of api (full_name r)) as [status languages|e]; [|reflexivity].
  destruct (status =? 200); reflexivity.
Qed.

(** Every language ends up with the sum of the bytes the repositories
    list for it. *)
Lemma collect_languages_get (api : remote) (lang : string) (repos : list repo) :
  forall language_bytes w,
    default 0 (dict_get lang (collect_languages api repos language_bytes w).1)
    = default 0 (dict_get lang language_bytes)
      + sum_Z (List.map (fun r => bytes_of lang (answered_languages api r)) repos).
Proof.
  induction repos as [|r repos IH]; intros language_bytes w.
  - cbn [collect_languages List.map fst]. change (sum_Z []) with 0. lia.
  - rewrite collect_languages_step, IH, add_languages_get.
    cbn [List.map]. unfold sum_Z. cbn [fold_right]. lia.
Qed.

(** *** Percentages *)

Lemma round_half_even_error (n d : Z) :
  d <> 0 ->
  2 * Z.abs (round_half_even n d * Z.abs d - (if d <? 0 then - n else n)) <= Z.abs d.
Proof.
  intros Hd. unfold round_half_even.
  set (n' := if d <? 0 then - n else n). set (d' := Z.abs d).
  assert (Hpos : 0 < d') by (subst d'; lia).
  pose proof (Z.div_mod n' d' ltac:(lia)) as Hdm.
  pose proof (Z.mod_pos_bound n' d' Hpos) as Hr.
  set (q := n' / d') in *. set (r := n' mod d') in *.
  destruct (Z.ltb_spec (2 * r) d'); [nia|].
  destruct (Z.ltb_spec d' (2 * r)); [nia|].
  destruct (Z.even q); nia.
Qed.

Lemma percentages_sum_error (total_bytes : Z) (language_bytes : list (string * Z)) :
  total_bytes <> 0 ->
  2 * Z.abs (Z.abs total_bytes
               * sum_values (List.map (fun kv => (kv.1, percentage kv.2 total_bytes))
                               language_bytes)
             - sign_of total_bytes * 10000 * sum_values language_bytes)
  <= Z.of_nat (length language_bytes) * Z.abs total_bytes.
Proof.
  intros Ht. induction language_bytes as [|[lang b] l IH]; [cbn; lia|].
  cbn [List.map sum_values fold_right length fst snd].
  fold (sum_values (List.map (fun kv => (kv.1, percentage kv.2 total_bytes)) l)).
  fold (sum_values l).
  pose proof (round_half_even_error (b * 10000) total_bytes Ht) as He.
  fold (percentage b total_bytes) in He.
  unfold sign_of in *. destruct (total_bytes <? 0); nia.
Qed.

(** *** Sorting *)

Lemma insert_desc_sum x l : sum_values (insert_desc x l) = x.2 + sum_values l.
Proof.
  induction l as [|y l IH]; [reflexivity|].
  cbn [insert_desc]. destruct (x.2 <? y.2); [|reflexivity].
  cbn [sum_values fold_right]. fold (sum_values (insert_desc x l)). fold (sum_values l).
  rewrite IH. lia.
Qed.

Lemma insert_desc_length x l : length (insert_desc x l) = S (length l).
Proof.
  induction l as [|y l IH]; [reflexivity|].
  cbn [insert_desc]. destruct (x.2 <? y.2); cbn; [now rewrite IH|reflexivity].
Qed.

Lemma insert_desc_perm x l : Permutation (x :: l) (insert_desc x l).
Proof.
  induction l as [|y l IH]; [reflexivity|].
  cbn [insert_desc]. destruct (x.2 <? y.2); [|reflexivity].
  rewrite perm_swap. now apply perm_skip.
Qed.

Lemma insert_desc_sorted x l : Sorted desc l -> Sorted desc (insert_desc x l).
Proof.
  induction 1 as [|y l Hs IH Hhd]; cbn [insert_desc].
  - repeat constructor.
  - destruct (Z.ltb_spec x.2 y.2) as [Hlt|Hge].
    + constructor; [exact IH|].
      destruct l as [|z l]; cbn [insert_desc].
      * constructor. unfold desc. lia.
      * destruct (x.2 <? z.2); constructor; [|unfold desc; lia].
        now inversion Hhd.
    + constructor; [now constructor|]. constructor. exact Hge.
Qed.

Lemma sorted_desc_sum l : sum_values (sorted_desc l) = sum_values l.
Proof.
  induction l as [|x l IH]; [reflexivity|].
  cbn [sorted_desc fold_right]. fold (sorted_desc l).
  rewrite insert_desc_sum, IH. reflexivity.
Qed.

Lemma sorted_desc_length l : length (sorted_desc l) = length l.
Proof.
  induction l as [|x l IH]; [reflexivity|].
  cbn [sorted_desc fold_right]. fold (sorted_desc l).
  now rewrite insert_desc_length, IH.
Qed.

Lemma sorted_desc_perm l : Permutation l (sorted_desc l).
Proof.
  induction l as [|x l IH]; [reflexivity|].
  cbn [sorted_desc fold_right]. fold (sorted_desc l).
  rewrite <- insert_desc_perm. now apply perm_skip.
Qed.

Lemma sorted_desc_sorted l : Sorted desc (sorted_desc l).
Proof.
  induction l as [|x l IH]; [constructor|].
  cbn [sorted_desc fold_right]. fold (sorted_desc l).
  now apply insert_desc_sorted.
Qed.

(** *** The method *)

Lemma collect_languages_any_world (api : remote) (repos : list repo) :
  forall language_bytes w w',
    (collect_languages api repos language_bytes w).1
    = (collect_languages api repos language_bytes w').1.
Proof.
  induction repos as [|r repos IH]; intros language_bytes w w'; [reflexivity|].
  rewrite !collect_languages_step. apply IH.
Qed.

Lemma get_language_stats_value (config : Config) (api : remote) (repos : list repo)
    (h : RateLimiter.RateLimitHandler) (w : world) :
  include_languages config = true ->
  (get_language_stats config api repos h w).1.1
  = language_percentages (collect_languages api repos [] w).1.
Proof.
  intros Hon. unfold get_language_stats, RateLimiter.rate_limit_aware.
  destruct (RateLimiter.wait_if_needed false h w) as [[waited h1] w1].
  unfold get_language_stats_body. rewrite Hon. cbn [negb].
  rewrite (surjective_pairing (collect_languages api repos [] w1)). cbn [fst].
  now rewrite (collect_languages_any_world api repos [] w1 w).
Qed.

Lemma language_percentages_sum (language_bytes : list (string * Z)) :
  sum_values language_bytes <> 0 ->
  2 * Z.abs (sum_values (language_percentages language_bytes) - 10000)
  <= Z.of_nat (length (language_percentages language_bytes)).
Proof.
  intros Ht. unfold language_percentages.
  destruct (Z.eqb_spec (sum_values language_bytes) 0) as [|_]; [contradiction|].
  rewrite sorted_desc_sum, sorted_desc_length, length_map.
  pose proof (percentages_sum_error (sum_values language_bytes) language_bytes Ht) as He.
  set (t := sum_values language_bytes) in *.
  set (p := sum_values _) in *.
  set (k := Z.of_nat (length language_bytes)) in *.
  unfold sign_of in He. destruct (Z.ltb_spec t 0); nia.
Qed.



End LanguageStatistics.

(** ** Repository listing *)

Module RepositoryListing.
Import GitHubStats.

(** The paginated fetch starts by requesting its first page. *)
Lemma fetch_pages_requests (answers : list (http_result (list pyval))) :
  forall per_page page repos w,
    exists more,
      requests (fetch_pages answers per_page page repos w).2
      = requests w ++ GetUserRepos per_page page :: more.
Proof.
  induction answers as [|answer answers IH]; intros per_page page repos w.
  - exists []. reflexivity.
  - cbn [fetch_pages]. destruct answer as [status data|e]; [|exists []; reflexivity].
    destruct (is_error_status status); [exists []; reflexivity|].
    destruct data as [|item data]; [exists []; reflexivity|].
    destruct (IH per_page (page + 1) (repos ++ item :: data)
                (log_request (GetUserRepos per_page page) w)) as (more & Hmore).
    exists (GetUserRepos per_page (page + 1) :: more).
    rewrite Hmore. cbn [log_request requests]. now rewrite <- app_assoc.
Qed.

Section Facts.
Context `{PyLib}.
Variable username : string.
Variable config : Config.
Variable api : remote.

Lemma set_requests key data w : requests (CacheManager.set key data w).2 = requests w.
Proof.
  unfold CacheManager.set.
  destruct (json_dump data) as [text|e written]; [reflexivity|].
  destruct (CacheManager.is_TypeError e || CacheManager.is_IOError e); reflexivity.
Qed.

Lemma fetch_all_repos_requests w :
  exists more,
    requests (fetch_all_repos username config api w).2
    = requests w ++ GetUserRepos (max_repos_per_page config) 1 :: more.
Proof.
  unfold fetch_all_repos.
  destruct (fetch_pages_requests (repo_pages api) (max_repos_per_page config) 1 [] w)
    as (more & Hmore).
  exists more.
  destruct (fetch_pages (repo_pages api) (max_repos_per_page config) 1 [] w)
    as [[repos|e] w1]; cbn [snd] in Hmore |- *; [|exact Hmore].
  destruct (cache_enabled config); [|exact Hmore].
  pose proof (set_requests (repos_cache_key username) (PList repos) w1) as Hset.
  destruct (CacheManager.set (repos_cache_key username) (PList repos) w1)
    as [[stored|e] w2]; cbn [snd] in Hset |- *; now rewrite Hset.
Qed.

Lemma get_requests key max_age_hours w :
  requests (CacheManager.get key max_age_hours w).2 = requests w.
Proof.
  unfold CacheManager.get.
  destruct (cache_dir w !! CacheManager.cache_file key) as [f|]; [|reflexivity].
  destruct (CacheManager.is_expired max_age_hours f w); [reflexivity|].
  destruct (json_load (content f)) as [v|e]; [reflexivity|].
  destruct (CacheManager.is_JSONDecodeError e || CacheManager.is_IOError e); reflexivity.
Qed.

(** The body only adds requests. *)
Lemma get_all_repos_body_requests w :
  exists more, requests (get_all_repos_body username config api w).2 = requests w ++ more.
Proof.
  assert (Hfetch : forall w0, exists more,
             requests (fetch_all_repos username config api w0).2 = requests w0 ++ more).
  { intros w0. destruct (fetch_all_repos_requests w0) as (more & Hmore). eauto. }
  unfold get_all_repos_body. destruct (cache_enabled config); [|apply Hfetch].
  pose proof (get_requests (repos_cache_key username) (cache_max_age_hours config) w) as Hget.
  destruct (CacheManager.get (repos_cache_key username) (cache_max_age_hours config) w)
    as [[r|e] w1]; cbn [snd] in Hget |- *.
  - destruct (py_truthy (CacheManager.to_py r)).
    + exists []. destruct (py_len (CacheManager.to_py r)); cbn [snd];
        now rewrite app_nil_r.
    + rewrite <- Hget. apply Hfetch.
  - exists []. now rewrite app_nil_r.
Qed.

(** On a cache entry holding the empty list the body requests page 1,
    whether the entry has expired or not. *)
Lemma get_all_repos_body_empty_list w f :
  cache_enabled config = true ->
  cache_dir w !! CacheManager.cache_file (repos_cache_key username) = Some f ->
  json_load (content f) = Returned (PList []) ->
  exists more,
    requests (get_all_repos_body username config api w).2
    = requests w ++ GetUserRepos (max_repos_per_page config) 1 :: more.
Proof.
  intros Hon Hf Hload. unfold get_all_repos_body. rewrite Hon.
  destruct (CacheManager.is_expired (cache_max_age_hours config) f w) eqn:Hage.
  - rewrite (CacheStore.get_expired _ _ _ _ Hf Hage). cbn [CacheManager.to_py py_truthy].
    apply (fetch_all_repos_requests
             (CacheManager.unlink (CacheManager.cache_file (repos_cache_key username)) w)).
  - rewrite (CacheStore.get_fresh _ _ _ _ Hf Hage), Hload.
    cbn [CacheManager.to_py py_truthy]. apply fetch_all_repos_requests.
Qed.

(** The body of [get_all_repos] on a cache entry that [get] reads as
    [v]. *)
Lemma get_all_repos_body_cached w f v :
  cache_enabled config = true ->
  cache_dir w !! CacheManager.cache_file (repos_cache_key username) = Some f ->
  CacheManager.is_expired (cache_max_age_hours config) f w = false ->
  json_load (content f) = Returned v ->
  get_all_repos_body username config api w
  = if py_truthy v
    then match py_len v with
         | Returned _ => (Returned v, w)
         | Raised e => (Raised e, w)
         end
    else fetch_all_repos username config api w.
Proof.
  intros Hon Hf Hage Hload. unfold get_all_repos_body. rewrite Hon.
  rewrite (CacheStore.get_fresh _ _ _ _ Hf Hage), Hload. reflexivity.
Qed.

End Facts.



End RepositoryListing.

(** ** Retry policy: budget and schedule *)

Module RetryBudget.
Import RateLimiter.

Section Facts.
Context {St A : Type}.
Variable sleep : Z -> St -> St.
Variables max_retries delay : Z.
Variable func : St -> outcome A * St.

Local Abbreviation attempts := (attempts sleep max_retries delay func).

(** The loop calls [func] at most [todo] times, at least once when
    [todo] is not 0, and sleeps only between two calls. *)
Lemma attempts_bounded todo : forall attempt last s calls zs,
  attempt + Z.of_nat todo = max_retries ->
  (todo = 0%nat /\
   invocations (attempts todo attempt last s calls zs) = calls /\
   sleeps (attempts todo attempt last s calls zs) = zs /\
   final (attempts todo attempt last s calls zs) = s)
  \/
  (todo <> 0%nat /\
   (calls < invocations (attempts todo attempt last s calls zs) <= calls + todo)%nat /\
   (length (sleeps (attempts todo attempt last s calls zs)) + calls + 1
    <= length zs + invocations (attempts todo attempt last s calls zs))%nat).
Proof.
  induction todo as [|todo IH]; intros attempt last s calls zs Hsum.
  - left. cbn. destruct last; cbn; auto.
  - right. split; [discriminate|]. cbn [RateLimiter.attempts].
    destruct (func s) as [r s1].
    assert (Hstop : forall o,
               (calls < invocations (stop (A := A) o s1 (S calls) zs) <= calls + S todo)%nat /\
               (length (sleeps (stop (A := A) o s1 (S calls) zs)) + calls + 1
                <= length zs + invocations (stop (A := A) o s1 (S calls) zs))%nat)
      by (intros; cbn; lia).
    assert (Hlast : forall e,
               (attempt <? max_retries - 1) = false ->
               (calls < invocations (attempts todo (attempt + 1) (Some e) s1 (S calls) zs)
                <= calls + S todo)%nat /\
               (length (sleeps (attempts todo (attempt + 1) (Some e) s1 (S calls) zs))
                + calls + 1
                <= length zs
                   + invocations (attempts todo (attempt + 1) (Some e) s1 (S calls) zs))%nat).
    { intros e Hge. apply Z.ltb_ge in Hge.
      destruct (IH (attempt + 1) (Some e) s1 (S calls) zs ltac:(lia))
        as [(_ & Hi & Hz & _)|(Hne & _)]; [rewrite Hi, Hz; lia|lia]. }
    assert (Hnext : forall e d,
               (attempt <? max_retries - 1) = true ->
               (calls < invocations (attempts todo (attempt + 1) (Some e) (sleep d s1)
                                       (S calls) (zs ++ [d]))
                <= calls + S todo)%nat /\
               (length (sleeps (attempts todo (attempt + 1) (Some e) (sleep d s1)
                                  (S calls) (zs ++ [d])))
                + calls + 1
                <= length zs
                   + invocations (attempts todo (attempt + 1) (Some e) (sleep d s1)
                                    (S calls) (zs ++ [d])))%nat).
    { intros e d Hlt. apply Z.ltb_lt in Hlt.
      destruct (IH (attempt + 1) (Some e) (sleep d s1) (S calls) (zs ++ [d]) ltac:(lia))
        as [(Hz & _)|(_ & Hi & Hl)]; [lia|].
      rewrite length_app in Hl. cbn [length] in Hl. lia. }
    destruct r as [v|e]; [apply Hstop|].
    destruct e; cbv zeta;
      repeat match goal with
        | |- context [if ?c then _ else _] => destruct c eqn:?
        end;
      first [ apply Hstop
            | apply Hnext; first [assumption|reflexivity]
            | apply Hlast; first [assumption|reflexivity] ].
Qed.

End Facts.

(** X1.  [with_retry] never calls the wrapped function more than
    [max_retries] times, and it sleeps only between two calls, so fewer
    times than it calls.  With a budget of zero or less the function is
    never called: the wrapper returns [None] and leaves the state as it
    is. *)
Theorem with_retry_budget {St A : Type} (sleep : Z -> St -> St) (max_retries delay : Z)
    (func : St -> outcome A * St) (s : St) :
  (invocations (with_retry sleep max_retries delay func s) <= Z.to_nat max_retries)%nat /\
  (length (sleeps (with_retry sleep max_retries delay func s))
   <= invocations (with_retry sleep max_retries delay func s) - 1)%nat /\
  (max_retries <= 0 ->
   with_retry sleep max_retries delay func s
   = {| result := Returned None; final := s; invocations := 0; sleeps := [] |}) /\
  (0 < max_retries ->
   (1 <= invocations (with_retry sleep max_retries delay func s))%nat).
Proof.
  unfold with_retry.
  destruct (attempts_bounded sleep max_retries delay func (Z.to_nat max_retries)
              (max_retries - Z.of_nat (Z.to_nat max_retries)) None s 0%nat [] ltac:(lia))
    as [(Hz & Hi & Hs & Hf)|(Hnz & Hi & Hs)].
  - assert (Hneg : max_retries <= 0) by lia.
    rewrite Hz. cbn. repeat split; lia.
  - assert (Hpos : 0 < max_retries) by lia.
    replace (max_retries - Z.of_nat (Z.to_nat max_retries)) with 0 in * by lia.
    cbn [length] in Hs. repeat split; try lia.
Qed.

Lemma with_retry_budget_witness :
  with_retry Fixtures.count_sleep 0 2 Fixtures.always_500 7%nat
  = {| result := Returned None; final := 7%nat; invocations := 0; sleeps := [] |} /\
  (1 <= invocations (with_retry Fixtures.count_sleep 3 2 Fixtures.always_500 7%nat))%nat.
Proof.
  split.
  - apply (with_retry_budget Fixtures.count_sleep 0 2 Fixtures.always_500 7%nat). lia.
  - apply (with_retry_budget Fixtures.count_sleep 3 2 Fixtures.always_500 7%nat). lia.
Defined.

(** The loop when every remaining call is refused with status 403. *)
Lemma attempts_all_quota {St A : Type} (sleep : Z -> St -> St) (max_retries delay : Z)
    (func : St -> outcome A * St) (todo : nat) :
  forall attempt last s calls zs,
    0 <= delay -> 0 <= attempt ->
    attempt + Z.of_nat (S todo) = max_retries ->
    (forall k, (k <= todo)%nat ->
       fst (func (RetrySchedule.quota_state sleep delay func attempt k s))
       = Raised (HTTPError 403)) ->
    attempts sleep max_retries delay func (S todo) attempt last s calls zs
    = stop (Raised (HTTPError 403))
        (snd (func (RetrySchedule.quota_state sleep delay func attempt todo s)))
        (calls + S todo) (zs ++ RetrySchedule.schedule delay attempt todo).
Proof.
  induction todo as [|todo IH]; intros attempt last s calls zs Hd Ha Hsum Hall.
  - pose proof (Hall 0%nat ltac:(lia)) as H0. cbn in H0.
    destruct (func s) as [r s1] eqn:Hf. cbn in H0. subst r.
    rewrite (RetryPolicy.attempts_retried_last _ _ _ _ _ _ _ _ _ _ _ _ Hf);
      [|reflexivity|lia].
    cbn. rewrite Hf, app_nil_r. cbn. f_equal. lia.
  - pose proof (Hall 0%nat ltac:(lia)) as H0. cbn in H0.
    destruct (func s) as [r s1] eqn:Hf. cbn in H0. subst r.
    assert (Hw : 0 <= delay * 2 ^ attempt)
      by (apply Z.mul_nonneg_nonneg; [lia|apply Z.pow_nonneg; lia]).
    rewrite (RetryPolicy.attempts_retried _ _ _ _ _ _ _ _ _ _ _ _ Hf);
      [|reflexivity|lia|exact Hw].
    cbn [backoff RetrySchedule.quota_state RetrySchedule.schedule]. rewrite Hf. cbn [snd].
    rewrite IH; [|lia|lia|lia|].
    + f_equal; [lia|]. now rewrite <- app_assoc.
    + intros k Hk. specialize (Hall (S k) ltac:(lia)).
      cbn [RetrySchedule.quota_state] in Hall. now rewrite Hf in Hall.
Qed.

Lemma schedule_sum (delay : Z) (n : nat) : forall attempt,
  0 <= attempt ->
  GitHubStats.sum_Z (RetrySchedule.schedule delay attempt n)
  = delay * 2 ^ attempt * (2 ^ Z.of_nat n - 1).
Proof.
  induction n as [|n IH]; intros attempt Ha.
  - cbn. lia.
  - cbn [RetrySchedule.schedule]. unfold GitHubStats.sum_Z in *. cbn [fold_right].
    rewrite IH by lia.
    rewrite Nat2Z.inj_succ, Z.pow_succ_r, (Z.pow_add_r 2 attempt 1), Z.pow_1_r by lia.
    ring.
Qed.

(** X2.  When every invocation is refused with status 403, the wrapper
    calls the function [max_retries] times, waits [delay * 2^k] after the
    [k]-th refusal for k = 0 .. [max_retries - 2] ([delay * (2^(max_retries
    - 1) - 1)] in all) and raises the last refusal. *)
Theorem with_retry_quota_backoff {St A : Type} (sleep : Z -> St -> St)
    (max_retries delay : Z) (func : St -> outcome A * St) (s : St) :
  0 <= delay -> 0 < max_retries ->
  (forall k, (k < Z.to_nat max_retries)%nat ->
     fst (func (RetrySchedule.quota_state sleep delay func 0 k s))
     = Raised (HTTPError 403)) ->
  with_retry sleep max_retries delay func s
  = {| result := Raised (HTTPError 403);
       final := snd (func (RetrySchedule.quota_state sleep delay func 0
                             (Z.to_nat max_retries - 1) s));
       invocations := Z.to_nat max_retries;
       sleeps := RetrySchedule.schedule delay 0 (Z.to_nat max_retries - 1) |} /\
  GitHubStats.sum_Z (sleeps (with_retry sleep max_retries delay func s))
  = delay * (2 ^ (max_retries - 1) - 1).
Proof.
  intros Hd Hm Hall. unfold with_retry.
  destruct (Z.to_nat max_retries) as [|todo] eqn:Hn; [lia|].
  replace (S todo - 1)%nat with todo by lia.
  rewrite (attempts_all_quota sleep max_retries delay func todo 0 None s 0%nat []);
    [|lia|lia|lia|intros k Hk; apply Hall; lia].
  split; [reflexivity|].
  cbn [sleeps stop app]. rewrite schedule_sum by lia.
  replace (Z.of_nat todo) with (max_retries - 1) by lia. cbn. ring.
Qed.

Lemma with_retry_quota_backoff_witness :
  with_retry Fixtures.count_sleep 5 2 RetrySchedule.always_403 0%nat
  = {| result := Raised (HTTPError 403); final := 5%nat; invocations := 5;
       sleeps := [2; 4; 8; 16] |} /\
  GitHubStats.sum_Z (sleeps (with_retry Fixtures.count_sleep 5 2 RetrySchedule.always_403 0%nat))
  = 2 * (2 ^ (5 - 1) - 1).
Proof.
  apply (with_retry_quota_backoff Fixtures.count_sleep 5 2 RetrySchedule.always_403 0%nat).
  - lia.
  - lia.
  - intros k _. reflexivity.
Defined.

(** X3.  With a negative [delay] and at least two attempts, a first
    invocation that fails with a retried failure makes the wrapper raise
    the [ValueError] of [time.sleep] after that one invocation, in place
    of the failure of the function. *)
Theorem with_retry_negative_delay {St A : Type} (sleep : Z -> St -> St)
    (max_retries delay : Z) (func : St -> outcome A * St) (s s1 : St) (e : pyexn) :
  delay < 0 -> 1 < max_retries ->
  func s = (Raised e, s1) -> retried e = true ->
  with_retry sleep max_retries delay func s
  = {| result := Raised ValueError; final := s1; invocations := 1; sleeps := [] |}.
Proof.
  intros Hd Hm Hf He. unfold with_retry.
  destruct (Z.to_nat max_retries) as [|todo] eqn:Hn; [lia|].
  cbn [attempts]. rewrite Hf.
  assert (Hlt : (0 <? max_retries - 1) = true) by (apply Z.ltb_lt; lia).
  assert (Hneg : (delay <? 0) = true) by (apply Z.ltb_lt; lia).
  assert (Hneg' : (delay * 2 ^ 0 <? 0) = true) by (apply Z.ltb_lt; lia).
  destruct e; cbn in He |- *; rewrite ?He, ?Hlt, ?Hneg, ?Hneg'; reflexivity.
Qed.

Lemma with_retry_negative_delay_witness :
  with_retry Fixtures.count_sleep 3 (-2) Fixtures.always_timeout 0%nat
  = {| result := Raised ValueError; final := 1%nat; invocations := 1; sleeps := [] |}.
Proof.
  apply (with_retry_negative_delay Fixtures.count_sleep 3 (-2) Fixtures.always_timeout
           0%nat 1%nat (OtherException "Timeout")); [lia|lia|reflexivity|reflexivity].
Defined.

End RetryBudget.

(** ** Quota monitor: waiting and requests *)

Module QuotaWaiting.
Import RateLimiter.

(** X4.  [wait_if_needed] returns true only after a fresh check that
    found fewer than [min_remaining] requests left and the reset ahead;
    it then returns with the clock at least 5 s and less than 6 s past
    the reset.  When it returns false it has not slept. *)
Theorem wait_if_needed_past_reset (force_check : bool) (h : RateLimitHandler) (w : world) :
  ((wait_if_needed force_check h w).1.1 = true ->
   recently_checked force_check h w = false /\
   remaining (check_rate_limit h w).1.1 < min_remaining h /\
   clock w < reset_datetime (check_rate_limit h w).1.1 /\
   reset_datetime (check_rate_limit h w).1.1 + 5 * second
   <= clock (wait_if_needed force_check h w).2
   < reset_datetime (check_rate_limit h w).1.1 + 6 * second)
  /\
  ((wait_if_needed force_check h w).1.1 = false ->
   clock (wait_if_needed force_check h w).2 = clock w /\
   slept (wait_if_needed force_check h w).2 = slept w).
Proof.
  unfold wait_if_needed.
  destruct (recently_checked force_check h w); [split; [discriminate|auto]|].
  pose proof (QuotaMonitor.check_rate_limit_keeps h w) as (Kc & Ks & _ & Km).
  destruct (check_rate_limit h w) as [[info h1] w1]. cbn [fst snd] in *.
  destruct (Z.ltb_spec (remaining info) (min_remaining h1));
    [destruct (Z.ltb_spec 0 (reset_datetime info - clock w1))|];
    cbn [fst snd]; (split; [|try discriminate; now rewrite ?Kc, ?Ks]); try discriminate.
  intros _.
  rewrite QuotaMonitor.wait_with_progress_sleeps by (unfold second; lia).
  rewrite QuotaMonitor.clock_sleep_seconds.
  rewrite Z2Nat.id by (unfold second; Z.div_mod_to_equations; lia).
  repeat split; try lia; unfold second in *; Z.div_mod_to_equations; lia.
Qed.

Lemma wait_if_needed_past_reset_witness :
  reset_datetime (check_rate_limit (init 100) Fixtures.low_quota_world).1.1 + 5 * second
  <= clock (wait_if_needed false (init 100) Fixtures.low_quota_world).2
  < reset_datetime (check_rate_limit (init 100) Fixtures.low_quota_world).1.1 + 6 * second
  /\
  slept (wait_if_needed false (init 100) Fixtures.fair_quota_world).2
  = slept Fixtures.fair_quota_world.
Proof.
  split.
  - apply (proj1 (wait_if_needed_past_reset false (init 100) Fixtures.low_quota_world)).
    vm_compute. reflexivity.
  - apply (proj2 (wait_if_needed_past_reset false (init 100) Fixtures.fair_quota_world)).
    reflexivity.
Defined.

(** X5.  [wait_if_needed] asks the quota endpoint once, unless a check
    was made less than 5 s ago and [force_check] is off, in which case it
    asks nothing.  With [force_check], and on a handler that has never
    checked, it always asks. *)
Theorem wait_if_needed_requests (force_check : bool) (h : RateLimitHandler) (w : world) :
  requests (wait_if_needed force_check h w).2
  = requests w ++ (if recently_checked force_check h w then [] else [GetRateLimit]) /\
  recently_checked true h w = false /\
  (last_check h = None -> recently_checked force_check h w = false) /\
  (recently_checked force_check h w = true ->
   wait_if_needed force_check h w = (false, h, w)).
Proof.
  split; [|split; [|split]].
  - unfold wait_if_needed.
    destruct (recently_checked force_check h w); [cbn; now rewrite app_nil_r|].
    pose proof (QuotaMonitor.check_rate_limit_keeps h w) as (_ & _ & Kr & _).
    destruct (check_rate_limit h w) as [[info h1] w1]. cbn [snd] in Kr.
    destruct (remaining info <? min_remaining h1);
      [destruct (Z.ltb_spec 0 (reset_datetime info - clock w1))|]; cbn [snd]; try exact Kr.
    rewrite QuotaMonitor.wait_with_progress_sleeps by (unfold second; lia).
    destruct (QuotaMonitor.sleep_seconds_keeps
                (Z.to_nat ((reset_datetime info - clock w1 + 5 * second + second - 1)
                           / second)) w1) as (_ & Hr & _).
    now rewrite Hr.
  - unfold recently_checked. destruct (last_check h); reflexivity.
  - intros Hnone. unfold recently_checked. now rewrite Hnone.
  - intros Hrecent. unfold wait_if_needed. now rewrite Hrecent.
Qed.

Lemma wait_if_needed_requests_witness :
  recently_checked false (init 100) Fixtures.fair_quota_world = false /\
  wait_if_needed false (check_rate_limit (init 100) Fixtures.fair_quota_world).1.2
    (check_rate_limit (init 100) Fixtures.fair_quota_world).2
  = (false, (check_rate_limit (init 100) Fixtures.fair_quota_world).1.2,
     (check_rate_limit (init 100) Fixtures.fair_quota_world).2).
Proof.
  split.
  - apply (wait_if_needed_requests false (init 100) Fixtures.fair_quota_world). reflexivity.
  - apply (wait_if_needed_requests false
             (check_rate_limit (init 100) Fixtures.fair_quota_world).1.2
             (check_rate_limit (init 100) Fixtures.fair_quota_world).2).
    reflexivity.
Defined.

(** X6.  When the quota call fails, [wait_if_needed] does not wait,
    whatever [min_remaining] is: it returns false with the clock and the
    handler as they were, so the next call checks again. *)
Theorem wait_if_needed_quota_unavailable (force_check : bool) (h : RateLimitHandler)
    (w : world) :
  recently_checked force_check h w = false ->
  (quota_answers w = [] \/ exists e rest, quota_answers w = RequestFailed e :: rest) ->
  (wait_if_needed force_check h w).1.1 = false /\
  (wait_if_needed force_check h w).1.2 = h /\
  clock (wait_if_needed force_check h w).2 = clock w /\
  slept (wait_if_needed force_check h w).2 = slept w /\
  recently_checked force_check h (wait_if_needed force_check h w).2 = false.
Proof.
  intros Hfresh Hfail. unfold wait_if_needed, check_rate_limit, get_rate_limit.
  rewrite Hfresh.
  destruct Hfail as [Hq|(e & rest & Hq)]; rewrite Hq; cbn;
    rewrite Z.sub_diag; cbn; destruct (5000 <? min_remaining h); cbn; auto.
Qed.

Lemma wait_if_needed_quota_unavailable_witness :
  (wait_if_needed false (init 9000) Fixtures.degraded_world).1.1 = false /\
  (wait_if_needed false (init 9000) Fixtures.degraded_world).1.2 = init 9000 /\
  clock (wait_if_needed false (init 9000) Fixtures.degraded_world).2
  = clock Fixtures.degraded_world /\
  slept (wait_if_needed false (init 9000) Fixtures.degraded_world).2
  = slept Fixtures.degraded_world /\
  recently_checked false (init 9000)
    (wait_if_needed false (init 9000) Fixtures.degraded_world).2 = false.
Proof.
  apply (wait_if_needed_quota_unavailable false (init 9000) Fixtures.degraded_world).
  - reflexivity.
  - right. exists ConnectionError, [CoreOk 4000 5000 2000 1000]. reflexivity.
Defined.

End QuotaWaiting.

(** ** Cache store: delete, clear, overwriting and the constructor *)

Module CacheOperations.
Import CacheManager.

Lemma json_files_lookup (d : gmap string file) (name : string) :
  json_files d !! name = if is_json_name name then d !! name else None.
Proof.
  unfold json_files. destruct (is_json_name name) eqn:Hn.
  - destruct (d !! name) as [f|] eqn:Hf.
    + apply map_lookup_filter_Some. now split.
    + apply map_lookup_filter_None. left. exact Hf.
  - apply map_lookup_filter_None. right. intros f _ Hp. cbn [fst] in Hp. congruence.
Qed.

Lemma json_files_insert (d : gmap string file) (name : string) (f : file) :
  is_json_name name = true -> json_files (<[name := f]> d) = <[name := f]> (json_files d).
Proof.
  intros Hn. apply map_eq. intros k. rewrite json_files_lookup.
  destruct (decide (name = k)) as [->|Hne].
  - now rewrite Hn, !lookup_insert_eq.
  - rewrite !lookup_insert_ne by exact Hne. now rewrite json_files_lookup.
Qed.

Lemma json_files_cleared (d : gmap string file) :
  json_files (filter (fun entry => is_json_name entry.1 = false) d) = ∅.
Proof.
  apply map_eq. intros k. rewrite json_files_lookup, lookup_empty.
  destruct (is_json_name k) eqn:Hk; [|reflexivity].
  apply map_lookup_filter_None. right. intros f _ Hp. cbn [fst] in Hp. congruence.
Qed.

Lemma clear_keeps_other (w : world) (name : string) :
  is_json_name name = false -> cache_dir (clear w).2 !! name = cache_dir w !! name.
Proof.
  intros Hname. unfold clear. cbn.
  destruct (cache_dir w !! name) as [f|] eqn:Hf.
  - apply map_lookup_filter_Some. now split.
  - apply map_lookup_filter_None. now left.
Qed.

Section Facts.
Context `{PyLib}.

(** What [set] leaves in the directory, whether it succeeds or not. *)
Lemma set_directory (key : string) (data : pyval) (w : world) :
  exists text,
    cache_dir (set key data w).2
    = <[cache_file key := {| content := text; st_mtime := clock w |}]> (cache_dir w) /\
    clock (set key data w).2 = clock w.
Proof.
  unfold set. destruct (json_dump data) as [text|e written].
  - exists text. split; reflexivity.
  - exists written.
    destruct (is_TypeError e || is_IOError e); split; reflexivity.
Qed.

(** X7.  [delete] returns true exactly when the entry exists; the entry
    is then gone, the file count one lower, a [get] finds nothing and a
    second [delete] returns false.  On a missing entry it changes
    nothing. *)
Theorem delete_entry (key : string) (w : world) :
  ((delete key w).1 = true <-> is_Some (cache_dir w !! cache_file key)) /\
  (cache_dir w !! cache_file key = None -> delete key w = (false, w)) /\
  (is_Some (cache_dir w !! cache_file key) ->
   total_files (get_cache_info (delete key w).2) = total_files (get_cache_info w) - 1) /\
  (forall max_age_hours,
      get key max_age_hours (delete key w).2 = (Returned None, (delete key w).2)) /\
  (delete key (delete key w).2).1 = false.
Proof.
  unfold delete.
  destruct (cache_dir w !! cache_file key) as [f|] eqn:Hf; cbn [fst snd].
  - split; [split; [intros _; eauto|reflexivity]|].
    split; [discriminate|].
    split; [intros _; apply (CacheStore.total_files_unlink _ _ _ Hf)|].
    split.
    + intros age. apply CacheStore.get_missing. apply CacheStore.lookup_unlink.
    + now rewrite CacheStore.lookup_unlink.
  - split; [split; [discriminate|intros [? ?]; discriminate]|].
    split; [reflexivity|]. split; [intros [? ?]; discriminate|].
    split.
    + intros age. now apply CacheStore.get_missing.
    + now rewrite Hf.
Qed.


(** X9.  A [set] whose [json.dump] fails still replaces the file of the
    key: the entry holds the text written before the failure, stamped
    with the present time.  When that text does not parse, the payload
    stored before is lost: the next [get] removes the file and returns
    absent. *)
Theorem set_failure_replaces_entry (key : string) (data : pyval) (w : world)
    (e : pyexn) (written : string) (max_age_hours : Z) :
  json_dump data = DumpRaised e written ->
  cache_dir (set key data w).2 !! cache_file key
  = Some {| content := written; st_mtime := clock w |} /\
  (json_load written = Raised JSONDecodeError -> 0 <= max_age_hours ->
   (get key max_age_hours (set key data w).2).1 = Returned None /\
   cache_dir (get key max_age_hours (set key data w).2).2 !! cache_file key = None).
Proof.
  intros Hdump.
  assert (Hdir : cache_dir (set key data w).2
                 = <[cache_file key := {| content := written; st_mtime := clock w |}]>
                     (cache_dir w) /\
                 clock (set key data w).2 = clock w).
  { unfold set. rewrite Hdump.
    destruct (is_TypeError e || is_IOError e); split; reflexivity. }
  destruct Hdir as (Hdir & Hclock).
  split; [now rewrite Hdir, lookup_insert_eq|].
  intros Hload Hage.
  rewrite (CacheStore.get_fresh key max_age_hours (set key data w).2
             {| content := written; st_mtime := clock w |}).
  - cbn [content]. rewrite Hload. cbn. split; [reflexivity|].
    apply lookup_delete_eq.
  - now rewrite Hdir, lookup_insert_eq.
  - unfold is_expired. cbn. rewrite Hclock. apply Z.ltb_ge. unfold hour, second. lia.
Qed.

End Facts.

Lemma delete_entry_witness :
  let w := Fixtures.world_with_entry "repos_octocat" "[]" in
  total_files (get_cache_info (delete (H := Fixtures.small_lib) "repos_octocat" w).2)
  = total_files (get_cache_info w) - 1.
Proof.
  intros w.
  apply (delete_entry (H := Fixtures.small_lib) "repos_octocat" w).
  eexists. apply lookup_singleton_eq.
Defined.


Lemma set_failure_replaces_entry_witness :
  let w := Fixtures.world_with_entry "repos_octocat" "[]" in
  let failed := (set (H := Fixtures.small_lib) "repos_octocat" (PList [PNone]) w) in
  (get (H := Fixtures.small_lib) "repos_octocat" 24 w).1 = Returned (Some (PList [])) /\
  failed.1 = Returned false /\
  (get (H := Fixtures.small_lib) "repos_octocat" 24 failed.2).1 = Returned None /\
  cache_dir (get (H := Fixtures.small_lib) "repos_octocat" 24 failed.2).2
    !! cache_file (H := Fixtures.small_lib) "repos_octocat" = None.
Proof.
  intros w failed. split; [reflexivity|]. split; [reflexivity|].
  apply (set_failure_replaces_entry (H := Fixtures.small_lib) "repos_octocat"
           (PList [PNone]) w TypeError "[" 24); [reflexivity|reflexivity|lia].
Defined.



(** X11.  The constructor writes [.gitignore] once and never overwrites
    it; the file is not counted as a cache file, [clear] keeps it, and no
    [set] touches it. *)
Theorem init_gitignore `{PyLib} (w : world) :
  is_Some (cache_dir (CacheSetup.init w) !! CacheSetup.gitignore_name) /\
  (forall f, cache_dir w !! CacheSetup.gitignore_name = Some f -> CacheSetup.init w = w) /\
  CacheSetup.init (CacheSetup.init w) = CacheSetup.init w /\
  total_files (get_cache_info (CacheSetup.init w)) = total_files (get_cache_info w) /\
  cache_dir (clear (CacheSetup.init w)).2 !! CacheSetup.gitignore_name
  = cache_dir (CacheSetup.init w) !! CacheSetup.gitignore_name /\
  (forall key data,
      cache_dir (set key data (CacheSetup.init w)).2 !! CacheSetup.gitignore_name
      = cache_dir (CacheSetup.init w) !! CacheSetup.gitignore_name).
Proof.
  assert (Hnot : is_json_name CacheSetup.gitignore_name = false) by reflexivity.
  assert (Hsome : is_Some (cache_dir (CacheSetup.init w) !! CacheSetup.gitignore_name)).
  { unfold CacheSetup.init.
    destruct (cache_dir w !! CacheSetup.gitignore_name) as [f|] eqn:Hf.
    - rewrite Hf. eauto.
    - rewrite CacheStore.lookup_write_file. eauto. }
  split; [exact Hsome|]. split; [|split; [|split; [|split]]].
  - intros f Hf. unfold CacheSetup.init. now rewrite Hf.
  - destruct Hsome as [f Hf]. unfold CacheSetup.init at 1. now rewrite Hf.
  - unfold CacheSetup.init.
    destruct (cache_dir w !! CacheSetup.gitignore_name) as [f|] eqn:Hf; [reflexivity|].
    unfold get_cache_info, write_file. cbn [total_files cache_dir with_cache_dir].
    f_equal. f_equal. apply map_eq. intros k. rewrite !json_files_lookup.
    destruct (is_json_name k) eqn:Hk; [|reflexivity].
    apply lookup_insert_ne. intros <-. congruence.
  - now apply clear_keeps_other.
  - intros key data.
    destruct (set_directory key data (CacheSetup.init w)) as (text & Hdir & _).
    rewrite Hdir. apply lookup_insert_ne.
    intros Heq. pose proof (CacheStore.cache_file_is_json key) as Hj.
    rewrite Heq in Hj. congruence.
Qed.

Lemma init_gitignore_witness :
  let w := CacheSetup.init (Fixtures.world_with_entry "repos_octocat" "[]") in
  CacheSetup.init w = w.
Proof.
  intros w.
  apply (proj1 (proj2 (init_gitignore (H := Fixtures.small_lib) w))
           {| content := CacheSetup.gitignore_text; st_mtime := 1000 * second |}).
  vm_compute. reflexivity.
Defined.

End CacheOperations.

(** ** Configuration paths *)

Module ConfigurationPaths.
Import Configuration.

Lemma dict_get_dict_put (k k' : string) (v : pyval) (d : list (string * pyval)) :
  dict_get k (dict_put k' v d) = if String.eqb k' k then Some v else dict_get k d.
Proof.
  induction d as [|[k0 v0] d IH]; cbn.
  - destruct (String.eqb k' k); reflexivity.
  - destruct (String.eqb_spec k0 k') as [->|Hne]; cbn.
    + destruct (String.eqb k' k); reflexivity.
    + rewrite IH. destruct (String.eqb_spec k0 k) as [->|Hne'].
      * destruct (String.eqb_spec k' k); [congruence|reflexivity].
      * reflexivity.
Qed.

Lemma split_dots_not_nil (key : string) : split_dots key <> [].
Proof.
  destruct key as [|c rest]; cbn; [discriminate|].
  destruct (Ascii.eqb c _); [discriminate|].
  destruct (split_dots rest); discriminate.
Qed.

Lemma get_from_empty_dict (keys : list string) (default : pyval) :
  keys <> [] -> get_from keys (PDict []) default = default.
Proof. destruct keys; [congruence|reflexivity]. Qed.

(** On a path with at least one key: what is stored is read back, and
    where storing fails reading gives the default. *)
Lemma set_in_get_from (keys : list string) : forall value data default,
  keys <> [] ->
  match set_in keys value data with
  | Returned data' => get_from keys data' default = value
  | Raised e => e = TypeError /\ get_from keys data default = default
  end.
Proof.
  induction keys as [|k rest IH]; intros value data default Hne; [congruence|].
  cbn [set_in]. destruct data as [| | | | |d|]; try (split; reflexivity).
  destruct rest as [|k2 rest].
  - cbn. now rewrite dict_get_dict_put, String.eqb_refl.
  - specialize (IH value (match dict_get k d with Some c => c | None => PDict [] end)
                  default ltac:(discriminate)).
    destruct (set_in (k2 :: rest) value _) as [child'|e].
    + cbn [get_from]. now rewrite dict_get_dict_put, String.eqb_refl.
    + destruct IH as [-> Hget]. split; [reflexivity|].
      cbn [get_from]. destruct (dict_get k d) as [c|]; [exact Hget|reflexivity].
Qed.

(** Storing along one path leaves what is read along a path that leaves
    it at some key. *)
Lemma set_in_other_path (common : list string) :
  forall a b rest1 rest2 value data data' default,
    a <> b ->
    set_in (common ++ a :: rest1) value data = Returned data' ->
    get_from (common ++ b :: rest2) data' default
    = get_from (common ++ b :: rest2) data default.
Proof.
  induction common as [|k common IH];
    intros a b rest1 rest2 value data data' default Hab Hset.
  - cbn [app set_in] in Hset. destruct data as [| | | | |d|]; try discriminate.
    assert (Hd : exists x, data' = PDict (dict_put a x d)).
    { destruct rest1; [injection Hset as <-; eauto|].
      destruct (set_in _ _ _) as [child'|e]; [|discriminate].
      injection Hset as <-. eauto. }
    destruct Hd as (x & ->). cbn [app get_from].
    rewrite dict_get_dict_put. destruct (String.eqb_spec a b); [contradiction|reflexivity].
  - cbn [app set_in] in Hset. destruct data as [| | | | |d|]; try discriminate.
    destruct (common ++ a :: rest1) as [|k2 more] eqn:Hmore;
      [destruct common; discriminate|].
    destruct (set_in (k2 :: more) value _) as [child'|e] eqn:Hchild; [|discriminate].
    injection Hset as <-. rewrite <- Hmore in Hchild.
    cbn [app get_from]. rewrite dict_get_dict_put, String.eqb_refl.
    rewrite (IH a b rest1 rest2 value _ child' default Hab Hchild).
    destruct (dict_get k d) as [c|]; [reflexivity|].
    apply get_from_empty_dict. destruct common; discriminate.
Qed.

(** X12.  [Config.set] followed by [Config.get] of the same key gives the
    value stored, whatever the default.  [set] can only fail with
    [TypeError], when the path runs through a value that is not a dict,
    and on such a path [get] does not fail but gives the default. *)
Theorem config_set_then_get (data : pyval) (key : string) (value default : pyval) :
  match set data key value with
  | Returned data' => get data' key default = value
  | Raised e => e = TypeError /\ get data key default = default
  end.
Proof. unfold set, get. apply set_in_get_from, split_dots_not_nil. Qed.



End ConfigurationPaths.

(** ** Issue counting over all repositories *)

Module IssueTotals.
Import GitHubStats.

Lemma count_issues_of_answered (api : remote) (r : repo) (stats : issue_stats) (w : world) :
  count_issues_of api r stats w
  = ((count_listed (Answers.answered_issues api r) stats).2,
     log_request (GetIssues (full_name r)) w).
Proof.
  unfold count_issues_of, Answers.answered_issues.
  destruct (issues_of api (full_name r)) as [status issues|e]; [|reflexivity].
  destruct (status =? 200); reflexivity.
Qed.

Lemma count_listed_app (good rest : list (list (string * pyval))) : forall stats,
  Forall (fun i => dict_mem "state" i = true) good ->
  count_listed (good ++ rest) stats = count_listed rest (count_listed good stats).2.
Proof.
  induction good as [|issue good IH]; intros stats Hgood; [reflexivity|].
  inversion Hgood as [|? ? Hstate Hrest]; subst.
  destruct (IssueCounting.count_issue_one_bucket issue stats Hstate) as (Hr & _).
  cbn [app count_listed].
  destruct (count_issue issue stats) as [o stats1]. cbn in Hr. subst o.
  now apply IH.
Qed.

Lemma count_issues_from_totals (api : remote) (repos : list repo) : forall stats w,
  Forall (fun r => Forall (fun i => dict_mem "state" i = true) (Answers.answered_issues api r))
    repos ->
  total (count_issues_from api repos stats w).1
  = total stats
    + sum_Z (List.map (fun r => Z.of_nat (length (Answers.answered_issues api r))) repos) /\
  open (count_issues_from api repos stats w).1 + closed (count_issues_from api repos stats w).1
  = open stats + closed stats
    + sum_Z (List.map (fun r => Z.of_nat (length (Answers.answered_issues api r))) repos).
Proof.
  induction repos as [|r repos IH]; intros stats w Hall.
  - cbn. unfold sum_Z. cbn. lia.
  - inversion Hall as [|? ? Hr Hrest]; subst.
    cbn [count_issues_from]. rewrite count_issues_of_answered.
    destruct (IssueCounting.count_listed_totals _ stats Hr) as (_ & Ht & Hb).
    destruct (IH (count_listed (Answers.answered_issues api r) stats).2
                (log_request (GetIssues (full_name r)) w) Hrest) as (Ht' & Hb').
    rewrite Ht', Hb', Ht, Hb. cbn [List.map]. unfold sum_Z. cbn [fold_right]. lia.
Qed.

Lemma count_issues_from_requests (api : remote) (repos : list repo) : forall stats w,
  requests (count_issues_from api repos stats w).2
  = requests w ++ List.map (fun r => GetIssues (full_name r)) repos.
Proof.
  induction repos as [|r repos IH]; intros stats w.
  - cbn. now rewrite app_nil_r.
  - cbn [count_issues_from]. rewrite count_issues_of_answered, IH.
    cbn. now rewrite <- app_assoc.
Qed.

(** X14.  [count_issues] asks for the issues of every repository, once
    each and in order, whatever the answers.  A repository whose answer
    is not a 200, or whose request raises, adds nothing and does not stop
    the loop: the total is the number of listed items without the
    [pull_request] key over the repositories that answer 200, and open
    plus closed equals the total (for items that have a [state]). *)
Theorem count_issues_over_repositories (api : remote) (repos : list repo) (w : world) :
  requests (count_issues_body api repos w).2
  = requests w ++ List.map (fun r => GetIssues (full_name r)) repos /\
  (Forall (fun r => Forall (fun i => dict_mem "state" i = true)
                      (Answers.answered_issues api r)) repos ->
   total (count_issues_body api repos w).1
   = sum_Z (List.map (fun r => Z.of_nat (length (Answers.answered_issues api r))) repos) /\
   open (count_issues_body api repos w).1 + closed (count_issues_body api repos w).1
   = total (count_issues_body api repos w).1).
Proof.
  unfold count_issues_body. split; [apply count_issues_from_requests|].
  intros Hall.
  destruct (count_issues_from_totals api repos no_issues w Hall) as (Ht & Hb).
  rewrite Ht, Hb. cbn. split; lia.
Qed.

Lemma count_issues_over_repositories_witness :
  total (count_issues_body Fixtures.two_repos_api
           [Answers.repo_gone; Fixtures.repo_a; Fixtures.repo_b]
           Fixtures.fair_quota_world).1
  = sum_Z (List.map (fun r => Z.of_nat (length (Answers.answered_issues
                                                 Fixtures.two_repos_api r)))
             [Answers.repo_gone; Fixtures.repo_a; Fixtures.repo_b]) /\
  open (count_issues_body Fixtures.two_repos_api
          [Answers.repo_gone; Fixtures.repo_a; Fixtures.repo_b]
          Fixtures.fair_quota_world).1
  + closed (count_issues_body Fixtures.two_repos_api
              [Answers.repo_gone; Fixtures.repo_a; Fixtures.repo_b]
              Fixtures.fair_quota_world).1
  = total (count_issues_body Fixtures.two_repos_api
             [Answers.repo_gone; Fixtures.repo_a; Fixtures.repo_b]
             Fixtures.fair_quota_world).1.
Proof.
  apply (count_issues_over_repositories Fixtures.two_repos_api
           [Answers.repo_gone; Fixtures.repo_a; Fixtures.repo_b] Fixtures.fair_quota_world).
  repeat constructor.
Defined.

(** X15.  A listed issue without a [state] is added to the total and to
    neither bucket, and the items listed after it in the same answer are
    not counted at all: after such an answer open plus closed falls short
    of the total. *)
Theorem count_issues_item_without_state (api : remote) (r : repo)
    (listed good rest : list (list (string * pyval))) (bad : list (string * pyval))
    (stats : issue_stats) (w : world) :
  issues_of api (full_name r) = Response 200 listed ->
  without_pull_requests listed = good ++ bad :: rest ->
  Forall (fun i => dict_mem "state" i = true) good ->
  dict_mem "state" bad = false ->
  total (count_issues_of api r stats w).1 = total stats + Z.of_nat (length good) + 1 /\
  open (count_issues_of api r stats w).1 + closed (count_issues_of api r stats w).1
  = open stats + closed stats + Z.of_nat (length good).
Proof.
  intros Hapi Hsplit Hgood Hbad.
  rewrite count_issues_of_answered. unfold Answers.answered_issues.
  rewrite Hapi. cbn [Z.eqb Pos.eqb fst snd]. rewrite Hsplit, (count_listed_app _ _ _ Hgood).
  destruct (IssueCounting.count_listed_totals good stats Hgood) as (_ & Ht & Hb).
  cbn [count_listed]. unfold count_issue. unfold dict_mem in Hbad.
  destruct (dict_get "state" bad); [discriminate|]. cbn. lia.
Qed.

Lemma count_issues_item_without_state_witness :
  let api := {| repo_pages := [];
                issues_of := fun _ =>
                  Response 200 [Fixtures.listed_issue "open";
                                [("title", PStr "no state")];
                                Fixtures.listed_issue "closed"]%string;
                languages_of := fun _ => Response 404 [] |} in
  total (count_issues_of api Fixtures.repo_a no_issues Fixtures.fair_quota_world).1 = 2 /\
  open (count_issues_of api Fixtures.repo_a no_issues Fixtures.fair_quota_world).1
  + closed (count_issues_of api Fixtures.repo_a no_issues Fixtures.fair_quota_world).1 = 1.
Proof.
  intros api.
  apply (count_issues_item_without_state api Fixtures.repo_a
           [Fixtures.listed_issue "open"; [("title", PStr "no state")];
            Fixtures.listed_issue "closed"]%string
           [Fixtures.listed_issue "open"]%string [Fixtures.listed_issue "closed"]%string
           [("title", PStr "no state")]%string no_issues Fixtures.fair_quota_world).
  - reflexivity.
  - reflexivity.
  - repeat constructor.
  - reflexivity.
Defined.

End IssueTotals.

(** ** Repository listing: pagination, cache and retries *)

Module RepositoryFetch.
Import GitHubStats.

Lemma log_requests_app (rs rs' : list request) (w : world) :
  Answers.log_requests (rs ++ rs') w = Answers.log_requests rs' (Answers.log_requests rs w).
Proof. unfold Answers.log_requests. apply fold_left_app. Qed.

Lemma log_requests_fields (rs : list request) : forall w,
  requests (Answers.log_requests rs w) = requests w ++ rs /\
  clock (Answers.log_requests rs w) = clock w /\
  slept (Answers.log_requests rs w) = slept w /\
  quota_answers (Answers.log_requests rs w) = quota_answers w /\
  cache_dir (Answers.log_requests rs w) = cache_dir w.
Proof.
  induction rs as [|r rs IH]; intros w.
  - cbn. now rewrite app_nil_r.
  - change (Answers.log_requests (r :: rs) w)
      with (Answers.log_requests rs (log_request r w)).
    destruct (IH (log_request r w)) as (Hr & Hc & Hs & Hq & Hd).
    rewrite Hr, Hc, Hs, Hq, Hd. cbn. now rewrite <- app_assoc.
Qed.

(** The loop goes past every full page, asking for one page after the
    other and keeping what they hold. *)
Lemma fetch_pages_full (full : list (http_result (list pyval))) :
  forall rest per_page page repos w,
    forallb Answers.is_full_page full = true ->
    fetch_pages (full ++ rest) per_page page repos w
    = fetch_pages rest per_page (page + Z.of_nat (length full))
        (repos ++ concat (List.map Answers.page_data full))
        (Answers.log_requests (Answers.page_requests per_page page (length full)) w).
Proof.
  induction full as [|answer full IH]; intros rest per_page page repos w Hfull.
  - cbn. now rewrite Z.add_0_r, app_nil_r.
  - cbn [forallb] in Hfull. apply andb_prop in Hfull as [Ha Hfull].
    destruct answer as [status data|e]; [|discriminate]. cbn in Ha.
    apply andb_prop in Ha as [Hs Hd].
    cbn [app fetch_pages]. destruct (is_error_status status); [discriminate|].
    destruct data as [|item data]; [discriminate|].
    rewrite (IH rest per_page (page + 1) _ _ Hfull).
    cbn [length Answers.page_requests List.map concat Answers.page_data].
    rewrite <- app_assoc. f_equal. lia.
Qed.

(** X16.  The listing loop asks for pages 1, 2, ... in order and stops at
    the first page that is empty or missing, returning the repositories
    of the pages before it in order; it issues one request more than
    there are full pages.  When the page after the full ones answers
    with an error status or the request raises, the loop raises that
    error after the same requests and what was fetched is dropped. *)
Theorem fetch_pages_until_empty (full rest : list (http_result (list pyval)))
    (per_page : Z) (w : world) :
  forallb Answers.is_full_page full = true ->
  ((rest = [] \/ exists last more, rest = last :: more /\ Answers.is_last_page last = true) ->
   fetch_pages (full ++ rest) per_page 1 [] w
   = (Returned (concat (List.map Answers.page_data full)),
      Answers.log_requests (Answers.page_requests per_page 1 (S (length full))) w))
  /\
  (forall bad more e,
      rest = bad :: more -> Answers.page_error bad = Some e ->
      fetch_pages (full ++ rest) per_page 1 [] w
      = (Raised e,
         Answers.log_requests (Answers.page_requests per_page 1 (S (length full))) w)).
Proof.
  intros Hfull.
  assert (Hlog : forall rs r w0,
             log_request r (Answers.log_requests rs w0) = Answers.log_requests (rs ++ [r]) w0).
  { intros. now rewrite log_requests_app. }
  assert (Hreq : forall n page,
             Answers.page_requests per_page page n ++ [GetUserRepos per_page (page + Z.of_nat n)]
             = Answers.page_requests per_page page (S n)).
  { induction n as [|n IHn]; intros page.
    - cbn. now rewrite Z.add_0_r.
    - change (Answers.page_requests per_page page (S (S n)))
        with (GetUserRepos per_page page :: Answers.page_requests per_page (page + 1) (S n)).
      rewrite <- (IHn (page + 1)). cbn [Answers.page_requests app].
      do 4 f_equal. lia. }
  split.
  - intros Hend. rewrite (fetch_pages_full full rest per_page 1 [] w Hfull). cbn [app].
    destruct Hend as [->|(last & more & -> & Hlast)].
    + cbn [fetch_pages]. now rewrite Hlog, Hreq.
    + destruct last as [status [|item data]|e]; try discriminate.
      cbn in Hlast. cbn [fetch_pages].
      destruct (is_error_status status); [discriminate|]. now rewrite Hlog, Hreq.
  - intros bad more e -> Hbad.
    rewrite (fetch_pages_full full (bad :: more) per_page 1 [] w Hfull). cbn [app].
    destruct bad as [status data|e']; cbn in Hbad; cbn [fetch_pages].
    + destruct (is_error_status status); [|discriminate].
      injection Hbad as <-. now rewrite Hlog, Hreq.
    + injection Hbad as <-. now rewrite Hlog, Hreq.
Qed.

Lemma fetch_pages_until_empty_witness :
  fetch_pages (repo_pages Fixtures.two_repos_api) 100 1 [] Fixtures.fair_quota_world
  = (Returned [PDict [("full_name", PStr "octocat/a")];
               PDict [("full_name", PStr "octocat/b")]]%string,
     Answers.log_requests [GetUserRepos 100 1; GetUserRepos 100 2] Fixtures.fair_quota_world)
  /\
  fetch_pages (repo_pages Fixtures.two_repos_api ++ [Response 502 []]) 100 1 []
    Fixtures.fair_quota_world
  = (Raised (HTTPError 502),
     Answers.log_requests [GetUserRepos 100 1; GetUserRepos 100 2] Fixtures.fair_quota_world).
Proof.
  split.
  - apply (proj1 (fetch_pages_until_empty (repo_pages Fixtures.two_repos_api) [] 100
                    Fixtures.fair_quota_world eq_refl)).
    now left.
  - apply (proj2 (fetch_pages_until_empty (repo_pages Fixtures.two_repos_api)
                    [Response 502 []] 100 Fixtures.fair_quota_world eq_refl)
             (Response 502 []) [] (HTTPError 502)); reflexivity.
Defined.

Lemma fetch_pages_keeps (answers : list (http_result (list pyval))) :
  forall per_page page repos w,
    clock (fetch_pages answers per_page page repos w).2 = clock w /\
    cache_dir (fetch_pages answers per_page page repos w).2 = cache_dir w /\
    slept (fetch_pages answers per_page page repos w).2 = slept w.
Proof.
  induction answers as [|answer answers IH]; intros per_page page repos w; [easy|].
  cbn [fetch_pages]. destruct answer as [status data|e]; [|easy].
  destruct (is_error_status status); [easy|].
  destruct data as [|item data]; [easy|].
  destruct (IH per_page (page + 1) (repos ++ item :: data)
              (log_request (GetUserRepos per_page page) w)) as (Hc & Hd & Hs).
  now rewrite Hc, Hd, Hs.
Qed.

Section Facts.
Context `{PyLib}.
Variable username : string.
Variable config : Config.
Variable api : remote.

(** With nothing usable in the cache the body is the fetch. *)
Lemma get_all_repos_body_cold (w : world) :
  cache_enabled config = false \/
  cache_dir w !! CacheManager.cache_file (repos_cache_key username) = None ->
  get_all_repos_body username config api w = fetch_all_repos username config api w.
Proof.
  intros Hcold. unfold get_all_repos_body.
  destruct (cache_enabled config); [|reflexivity].
  destruct Hcold as [Hoff|Hmiss]; [discriminate|].
  now rewrite (CacheStore.get_missing _ _ _ Hmiss).
Qed.

(** A refused first page makes the body raise after that one request. *)
Lemma get_all_repos_body_refused (w : world) (status : Z) (data : list pyval)
    (more : list (http_result (list pyval))) :
  cache_enabled config = false \/
  cache_dir w !! CacheManager.cache_file (repos_cache_key username) = None ->
  repo_pages api = Response status data :: more ->
  is_error_status status = true ->
  get_all_repos_body username config api w
  = (Raised (HTTPError status),
     log_request (GetUserRepos (max_repos_per_page config) 1) w).
Proof.
  intros Hcold Hpages Herr. rewrite (get_all_repos_body_cold w Hcold).
  unfold fetch_all_repos. rewrite Hpages. cbn [fetch_pages]. now rewrite Herr.
Qed.

End Facts.

(** X17.  On a cold cache, a fetch that brings at least one repository
    stores the list, and a later call, made while the entry is untouched
    and no older than the configured age, returns the same list from the
    cache without any request.  (The list is one that [json] writes and
    reads back.) *)
Theorem get_all_repos_fills_cache `{PyLib} (username : string) (config : Config)
    (api : remote) (w fetched : world) (repos : list pyval) (text : string) :
  cache_enabled config = true ->
  cache_dir w !! CacheManager.cache_file (repos_cache_key username) = None ->
  fetch_pages (repo_pages api) (max_repos_per_page config) 1 [] w = (Returned repos, fetched) ->
  repos <> [] ->
  json_dump (PList repos) = Dumped text ->
  json_load text = Returned (PList repos) ->
  (get_all_repos_body username config api w).1 = Returned (PList repos) /\
  forall w',
    cache_dir w' !! CacheManager.cache_file (repos_cache_key username)
    = cache_dir (get_all_repos_body username config api w).2
        !! CacheManager.cache_file (repos_cache_key username) ->
    clock w' - clock w <= cache_max_age_hours config * hour ->
    get_all_repos_body username config api w' = (Returned (PList repos), w').
Proof.
  intros Hon Hmiss Hfetch Hne Hdump Hload.
  pose proof (fetch_pages_keeps (repo_pages api) (max_repos_per_page config) 1 [] w)
    as (Hclock & _). rewrite Hfetch in Hclock. cbn [snd] in Hclock.
  rewrite (get_all_repos_body_cold username config api w (or_intror Hmiss)).
  unfold fetch_all_repos. rewrite Hfetch, Hon. unfold CacheManager.set. rewrite Hdump.
  cbn [fst snd]. split; [reflexivity|].
  intros w' Hsame Hage. rewrite CacheStore.lookup_write_file in Hsame.
  unfold get_all_repos_body. rewrite Hon.
  rewrite (CacheStore.get_fresh _ _ _ _ Hsame); cbn [content].
  - rewrite Hload. cbn [CacheManager.to_py py_truthy].
    destruct repos as [|r repos]; [congruence|reflexivity].
  - unfold CacheManager.is_expired. cbn. apply Z.ltb_ge. lia.
Qed.

(** X18.  With the quota checked less than 5 s ago and nothing usable in
    the cache: when the listing endpoint refuses page 1 with status 403,
    [get_all_repos] asks for page 1 three times, sleeping 2 s and then
    4 s in between, and raises the refusal; when it refuses with another
    error status, [get_all_repos] asks once, sleeps not at all and raises
    that error. *)
Theorem get_all_repos_refused `{PyLib} (username : string) (config : Config)
    (api : remote) (h : RateLimiter.RateLimitHandler) (w : world)
    (status : Z) (data : list pyval) (more : list (http_result (list pyval))) :
  RateLimiter.recently_checked false h w = true ->
  cache_enabled config = false \/
  cache_dir w !! CacheManager.cache_file (repos_cache_key username) = None ->
  repo_pages api = Response status data :: more ->
  is_error_status status = true ->
  let ask := log_request (GetUserRepos (max_repos_per_page config) 1) in
  (status = 403 ->
   get_all_repos username config api h w
   = (Raised (HTTPError 403), h,
      ask (time_sleep (4 * second) (ask (time_sleep (2 * second) (ask w))))))
  /\
  (status <> 403 ->
   get_all_repos username config api h w = (Raised (HTTPError status), h, ask w)).
Proof.
  intros Hrecent Hcold Hpages Herr ask.
  unfold get_all_repos, RateLimiter.rate_limit_aware, RateLimiter.wait_if_needed.
  rewrite Hrecent. cbv beta iota zeta.
  unfold RateLimiter.with_retry. change (Z.to_nat 3) with 3%nat.
  assert (Hbody : forall w0,
             cache_dir w0 = cache_dir w ->
             get_all_repos_body username config api w0 = (Raised (HTTPError status), ask w0)).
  { intros w0 Hdir. apply (get_all_repos_body_refused username config api w0 status data more);
      [|exact Hpages|exact Herr].
    destruct Hcold as [Hoff|Hmiss]; [now left|right; now rewrite Hdir]. }
  split.
  - intros ->.
    rewrite (RetryPolicy.attempts_retried _ _ _ _ _ _ _ _ _ _ _ _ (Hbody w eq_refl));
      [|reflexivity|lia|cbn; lia].
    match goal with
    | |- context [RateLimiter.attempts _ _ _ _ _ _ _ ?w0 _ _] =>
        rewrite (RetryPolicy.attempts_retried _ _ _ _ _ _ _ _ _ _ _ _ (Hbody w0 eq_refl));
          [|reflexivity|lia|cbn; lia]
    end.
    match goal with
    | |- context [RateLimiter.attempts _ _ _ _ _ _ _ ?w0 _ _] =>
        rewrite (RetryPolicy.attempts_retried_last _ _ _ _ _ _ _ _ _ _ _ _
                   (Hbody w0 eq_refl));
          [|reflexivity|lia]
    end.
    reflexivity.
  - intros Hne.
    now rewrite (RetryPolicy.attempts_http_fatal _ _ _ _ _ _ _ _ _ _ _ _ (Hbody w eq_refl) Hne).
Qed.

Lemma get_all_repos_fills_cache_witness :
  let first := get_all_repos_body (H := Answers.listing_lib) "octocat" default_config
                 Answers.one_repo_api (Fixtures.world_at_1000 []) in
  first.1 = Returned (PList [PNone]) /\
  get_all_repos_body (H := Answers.listing_lib) "octocat" default_config
    Answers.one_repo_api (time_sleep hour first.2)
  = (Returned (PList [PNone]), time_sleep hour first.2).
Proof.
  intros first.
  destruct (get_all_repos_fills_cache (H := Answers.listing_lib) "octocat" default_config
              Answers.one_repo_api (Fixtures.world_at_1000 [])
              (log_request (GetUserRepos 100 2)
                 (log_request (GetUserRepos 100 1) (Fixtures.world_at_1000 [])))
              [PNone] "[null]")
    as (Hfirst & Hnext);
    [reflexivity|reflexivity|reflexivity|discriminate|reflexivity|reflexivity|].
  split; [exact Hfirst|].
  apply Hnext; [reflexivity|vm_compute; discriminate].
Defined.

Lemma get_all_repos_refused_witness :
  let ask := log_request (GetUserRepos 100 1) in
  get_all_repos (H := Fixtures.small_lib) "octocat" default_config
    (Answers.refusing_api 403) Answers.checked_handler (Fixtures.world_at_1000 [])
  = (Raised (HTTPError 403), Answers.checked_handler,
     ask (time_sleep (4 * second)
            (ask (time_sleep (2 * second) (ask (Fixtures.world_at_1000 []))))))
  /\
  get_all_repos (H := Fixtures.small_lib) "octocat" default_config
    (Answers.refusing_api 500) Answers.checked_handler (Fixtures.world_at_1000 [])
  = (Raised (HTTPError 500), Answers.checked_handler, ask (Fixtures.world_at_1000 [])).
Proof.
  intros ask. split.
  - apply (proj1 (get_all_repos_refused (H := Fixtures.small_lib) "octocat" default_config
                    (Answers.refusing_api 403) Answers.checked_handler
                    (Fixtures.world_at_1000 []) 403 [] []
                    eq_refl (or_intror eq_refl) eq_refl eq_refl)).
    reflexivity.
  - apply (proj2 (get_all_repos_refused (H := Fixtures.small_lib) "octocat" default_config
                    (Answers.refusing_api 500) Answers.checked_handler
                    (Fixtures.world_at_1000 []) 500 [] []
                    eq_refl (or_intror eq_refl) eq_refl eq_refl)).
    discriminate.
Defined.

End RepositoryFetch.

(** ** Language statistics: requests, keys and range *)

Module LanguageRange.
Import GitHubStats.

Lemma dict_set_in (k k' : string) (v : Z) (d : list (string * Z)) :
  In k' (List.map fst (dict_set k v d)) <-> k' = k \/ In k' (List.map fst d).
Proof.
  induction d as [|[k0 v0] d IH]; cbn [dict_set List.map fst In].
  - intuition.
  - destruct (String.eqb_spec k0 k) as [->|Hne]; cbn [List.map fst In].
    + intuition.
    + rewrite IH. intuition.
Qed.

Lemma dict_set_nodup (k : string) (v : Z) (d : list (string * Z)) :
  List.NoDup (List.map fst d) -> List.NoDup (List.map fst (dict_set k v d)).
Proof.
  induction d as [|[k0 v0] d IH]; cbn [dict_set List.map fst]; intros Hd.
  - constructor; [intros []|constructor].
  - apply List.NoDup_cons_iff in Hd as [Hk0 Hd].
    destruct (String.eqb_spec k0 k) as [->|Hne]; cbn [List.map fst];
      apply List.NoDup_cons_iff; split; auto.
    rewrite dict_set_in. intros [->|Hin]; [congruence|contradiction].
Qed.

Lemma dict_set_nonneg (k : string) (v : Z) (d : list (string * Z)) :
  0 <= v -> Forall (fun kv => 0 <= kv.2) d -> Forall (fun kv => 0 <= kv.2) (dict_set k v d).
Proof.
  intros Hv. induction d as [|[k0 v0] d IH]; cbn [dict_set]; intros Hd.
  - now constructor.
  - inversion Hd as [|? ? H0 Hrest]; subst.
    destruct (String.eqb k0 k); constructor; auto.
Qed.

Lemma dict_get_nonneg (k : string) (d : list (string * Z)) :
  Forall (fun kv => 0 <= kv.2) d -> 0 <= default 0 (dict_get k d).
Proof.
  induction d as [|[k0 v0] d IH]; cbn [dict_get]; intros Hd; [cbn; lia|].
  inversion Hd as [|? ? H0 Hrest]; subst.
  destruct (String.eqb k0 k); [exact H0|auto].
Qed.

Lemma add_languages_keeps (languages : list (string * Z)) : forall language_bytes,
  Forall (fun kv => 0 <= kv.2) languages ->
  List.NoDup (List.map fst language_bytes) /\ Forall (fun kv => 0 <= kv.2) language_bytes ->
  List.NoDup (List.map fst (add_languages languages language_bytes)) /\
  Forall (fun kv => 0 <= kv.2) (add_languages languages language_bytes).
Proof.
  induction languages as [|[l b] languages IH]; intros language_bytes Hl [Hk Hv];
    cbn [add_languages]; [now split|].
  inversion Hl as [|? ? Hb Hrest]; subst. cbn [snd] in Hb.
  apply IH; [exact Hrest|]. split.
  - now apply dict_set_nodup.
  - apply dict_set_nonneg; [|exact Hv].
    pose proof (dict_get_nonneg l language_bytes Hv). lia.
Qed.

Lemma add_languages_nodup (languages : list (string * Z)) : forall language_bytes,
  List.NoDup (List.map fst language_bytes) ->
  List.NoDup (List.map fst (add_languages languages language_bytes)).
Proof.
  induction languages as [|[l b] languages IH]; intros language_bytes Hk;
    cbn [add_languages]; [exact Hk|].
  apply IH. now apply dict_set_nodup.
Qed.

Lemma collect_languages_nodup (api : remote) (repos : list repo) :
  forall language_bytes w,
    List.NoDup (List.map fst language_bytes) ->
    List.NoDup (List.map fst (collect_languages api repos language_bytes w).1).
Proof.
  induction repos as [|r repos IH]; intros language_bytes w Hk; [exact Hk|].
  rewrite LanguageStatistics.collect_languages_step. apply IH.
  now apply add_languages_nodup.
Qed.

Lemma collect_languages_nonneg (api : remote) (repos : list repo) :
  forall language_bytes w,
    Forall (fun r => Forall (fun kv => 0 <= kv.2) (answered_languages api r)) repos ->
    List.NoDup (List.map fst language_bytes) /\ Forall (fun kv => 0 <= kv.2) language_bytes ->
    Forall (fun kv => 0 <= kv.2) (collect_languages api repos language_bytes w).1.
Proof.
  induction repos as [|r repos IH]; intros language_bytes w Hall Hinv; [apply Hinv|].
  inversion Hall as [|? ? Hr Hrest]; subst.
  rewrite LanguageStatistics.collect_languages_step. apply IH; [exact Hrest|].
  now apply add_languages_keeps.
Qed.

Lemma collect_languages_requests (api : remote) (repos : list repo) :
  forall language_bytes w,
    requests (collect_languages api repos language_bytes w).2
    = requests w ++ List.map (fun r => GetLanguages (full_name r)) repos.
Proof.
  induction repos as [|r repos IH]; intros language_bytes w.
  - cbn. now rewrite app_nil_r.
  - rewrite LanguageStatistics.collect_languages_step, IH. cbn. now rewrite <- app_assoc.
Qed.

Lemma nonneg_le_sum (d : list (string * Z)) :
  Forall (fun kv => 0 <= kv.2) d ->
  0 <= sum_values d /\ Forall (fun kv => kv.2 <= sum_values d) d.
Proof.
  induction d as [|[k v] d IH]; intros Hd; [split; [cbn; lia|constructor]|].
  inversion Hd as [|? ? Hv Hrest]; subst. cbn [snd] in Hv.
  destruct (IH Hrest) as [Hs Hle].
  rewrite LanguageStatistics.sum_values_cons. cbn [snd]. split; [lia|].
  constructor; [cbn [snd]; lia|].
  eapply Forall_impl; [exact Hle|]. cbn beta. intros kv Hkv. lia.
Qed.

Lemma percentage_range (bytes_count total_bytes : Z) :
  0 <= bytes_count <= total_bytes -> 0 < total_bytes ->
  0 <= percentage bytes_count total_bytes <= 10000.
Proof.
  intros Hb Ht. unfold percentage, round_half_even.
  destruct (Z.ltb_spec total_bytes 0); [lia|].
  rewrite Z.abs_eq by lia.
  pose proof (Z.div_mod (bytes_count * 10000) total_bytes ltac:(lia)) as Hdm.
  pose proof (Z.mod_pos_bound (bytes_count * 10000) total_bytes Ht) as Hr.
  set (q := bytes_count * 10000 / total_bytes) in *.
  set (r := (bytes_count * 10000) mod total_bytes) in *.
  assert (Hq : 0 <= q) by (subst q; apply Z.div_pos; lia).
  assert (Hq' : q <= 10000) by nia.
  assert (Hfull : q = 10000 -> r = 0) by nia.
  destruct (Z.ltb_spec (2 * r) total_bytes); [lia|].
  assert (q < 10000) by lia.
  destruct (Z.ltb_spec total_bytes (2 * r)); [lia|].
  destruct (Z.even q); lia.
Qed.

Lemma language_percentages_nodup (language_bytes : list (string * Z)) :
  List.NoDup (List.map fst language_bytes) ->
  List.NoDup (List.map fst (language_percentages language_bytes)).
Proof.
  intros Hk. unfold language_percentages.
  destruct (sum_values language_bytes =? 0); [constructor|].
  eapply Permutation_NoDup.
  - apply Permutation_map, LanguageStatistics.sorted_desc_perm.
  - rewrite List.map_map. cbn [fst]. exact Hk.
Qed.

Lemma language_percentages_range (language_bytes : list (string * Z)) :
  Forall (fun kv => 0 <= kv.2) language_bytes ->
  Forall (fun kv => 0 <= kv.2 <= 10000) (language_percentages language_bytes).
Proof.
  intros Hv. unfold language_percentages.
  destruct (Z.eqb_spec (sum_values language_bytes) 0) as [|Hne]; [constructor|].
  destruct (nonneg_le_sum language_bytes Hv) as [Hs Hle].
  eapply Permutation_Forall; [apply LanguageStatistics.sorted_desc_perm|].
  apply List.Forall_map. apply List.Forall_forall. intros kv Hin. cbn [snd].
  apply percentage_range; [|lia].
  rewrite List.Forall_forall in Hv, Hle. split; [now apply Hv|now apply Hle].
Qed.



End LanguageRange.

(** ** Pull request counting *)

Module PullRequestTotals.
Import GitHubStats Activity.

(** What the counters satisfy at any point of the loops. *)
Definition counters_ok (stats : pull_stats) : Prop :=
  0 <= merged stats <= total stats /\ 0 <= open stats /\ 0 <= closed stats /\
  open stats + closed stats <= total stats.

Lemma count_pull_step (pr : dict) (stats : pull_stats) :
  total (count_pull pr stats).2 = total stats + 1 /\
  merged stats <= merged (count_pull pr stats).2 <= merged stats + 1 /\
  open stats <= open (count_pull pr stats).2 /\
  closed stats <= closed (count_pull pr stats).2 /\
  open (count_pull pr stats).2 + closed (count_pull pr stats).2
  <= open stats + closed stats + 1 /\
  (dict_mem "state" pr = true ->
   (count_pull pr stats).1 = Returned tt /\
   open (count_pull pr stats).2 + closed (count_pull pr stats).2
   = open stats + closed stats + 1 /\
   merged (count_pull pr stats).2 = merged stats + (if is_merged pr then 1 else 0)).
Proof.
  unfold count_pull, dict_mem.
  destruct (dict_get "state" pr) as [state|]; cbn [fst snd total open closed merged].
  - destruct (py_eq_str state "open"), (is_merged pr);
      cbn [fst snd total open closed merged]; repeat split; lia.
  - repeat split; try lia; try discriminate.
Qed.

Lemma count_pulls_ok (prs : list dict) : forall stats,
  counters_ok stats -> counters_ok (count_pulls prs stats).2.
Proof.
  induction prs as [|pr prs IH]; intros stats Hok; [exact Hok|].
  cbn [count_pulls].
  pose proof (count_pull_step pr stats) as (Ht & Hm & Ho & Hc & Hb & _).
  destruct (count_pull pr stats) as [[[]|e] stats1]; cbn [fst snd] in *.
  - apply IH. unfold counters_ok in *. lia.
  - unfold counters_ok in *. lia.
Qed.

Lemma count_pulls_totals (prs : list dict) : forall stats,
  Forall (fun pr => dict_mem "state" pr = true) prs ->
  total (count_pulls prs stats).2 = total stats + Z.of_nat (length prs) /\
  open (count_pulls prs stats).2 + closed (count_pulls prs stats).2
  = open stats + closed stats + Z.of_nat (length prs) /\
  merged (count_pulls prs stats).2
  = merged stats + Z.of_nat (length (List.filter is_merged prs)).
Proof.
  induction prs as [|pr prs IH]; intros stats Hall; [cbn; lia|].
  inversion Hall as [|? ? Hstate Hrest]; subst.
  cbn [count_pulls List.filter].
  pose proof (count_pull_step pr stats) as (Ht & _ & _ & _ & _ & Hgood).
  destruct (Hgood Hstate) as (Hr & Hb & Hm).
  destruct (count_pull pr stats) as [o stats1]; cbn [fst snd] in *. subst o.
  destruct (IH stats1 Hrest) as (Ht' & Hb' & Hm').
  rewrite Ht', Hb', Hm', Ht, Hb, Hm.
  destruct (is_merged pr); cbn [length]; lia.
Qed.

Lemma count_pulls_of_answered (api : endpoints) (r : repo) (stats : pull_stats)
    (calls : list call) :
  count_pulls_of api r stats calls
  = ((count_pulls (answered_pulls api r) stats).2, calls ++ [GetPulls (full_name r)]).
Proof.
  unfold count_pulls_of, answered_pulls.
  destruct (pulls_of api (full_name r)) as [status prs|e]; [|reflexivity].
  destruct (status =? 200); reflexivity.
Qed.

Lemma count_pulls_from_facts (api : endpoints) (repos : list repo) : forall stats calls,
  (count_pulls_from api repos stats calls).2
  = calls ++ List.map (fun r => GetPulls (full_name r)) repos /\
  (counters_ok stats -> counters_ok (count_pulls_from api repos stats calls).1) /\
  (Forall (fun r => Forall (fun pr => dict_mem "state" pr = true) (answered_pulls api r))
     repos ->
   total (count_pulls_from api repos stats calls).1
   = total stats
     + sum_Z (List.map (fun r => Z.of_nat (length (answered_pulls api r))) repos) /\
   open (count_pulls_from api repos stats calls).1
   + closed (count_pulls_from api repos stats calls).1
   = open stats + closed stats
     + sum_Z (List.map (fun r => Z.of_nat (length (answered_pulls api r))) repos) /\
   merged (count_pulls_from api repos stats calls).1
   = merged stats
     + sum_Z (List.map (fun r => Z.of_nat (length (List.filter is_merged
                                                     (answered_pulls api r)))) repos)).
Proof.
  induction repos as [|r repos IH]; intros stats calls.
  - cbn. rewrite app_nil_r. unfold sum_Z. cbn.
    split; [reflexivity|]. split; [auto|]. intros _. lia.
  - cbn [count_pulls_from]. rewrite count_pulls_of_answered.
    destruct (IH (count_pulls (answered_pulls api r) stats).2
                (calls ++ [GetPulls (full_name r)])) as (Hcalls & Hok & Hsum).
    split; [rewrite Hcalls; cbn; now rewrite <- app_assoc|].
    split; [intros Hstats; apply Hok; now apply count_pulls_ok|].
    intros Hall. inversion Hall as [|? ? Hr Hrest]; subst.
    destruct (Hsum Hrest) as (Ht & Hb & Hm).
    destruct (count_pulls_totals _ stats Hr) as (Ht' & Hb' & Hm').
    rewrite Ht, Hb, Hm, Ht', Hb', Hm'. cbn [List.map]. unfold sum_Z. cbn [fold_right].
    repeat split; lia.
Qed.

(** X20.  [count_pull_requests] asks for the pull requests of every
    repository, once each and in order, whatever the answers.  Its
    counters always satisfy 0 <= merged <= total and open + closed <=
    total.  When every listed item has a [state], the total is the number
    of items over the repositories that answer 200, open plus closed
    equals the total, and merged is the number of items with a
    [merged_at] that is set. *)
Theorem count_pull_requests_totals (api : endpoints) (repos : list repo)
    (h : RateLimiter.RateLimitHandler) (w : world) :
  (count_pull_requests api repos h w).1.1.2
  = List.map (fun r => GetPulls (full_name r)) repos /\
  0 <= merged (count_pull_requests api repos h w).1.1.1
    <= total (count_pull_requests api repos h w).1.1.1 /\
  0 <= open (count_pull_requests api repos h w).1.1.1 /\
  0 <= closed (count_pull_requests api repos h w).1.1.1 /\
  open (count_pull_requests api repos h w).1.1.1
  + closed (count_pull_requests api repos h w).1.1.1
  <= total (count_pull_requests api repos h w).1.1.1 /\
  (Forall (fun r => Forall (fun pr => dict_mem "state" pr = true) (answered_pulls api r))
     repos ->
   total (count_pull_requests api repos h w).1.1.1
   = sum_Z (List.map (fun r => Z.of_nat (length (answered_pulls api r))) repos) /\
   open (count_pull_requests api repos h w).1.1.1
   + closed (count_pull_requests api repos h w).1.1.1
   = total (count_pull_requests api repos h w).1.1.1 /\
   merged (count_pull_requests api repos h w).1.1.1
   = sum_Z (List.map (fun r => Z.of_nat (length (List.filter is_merged
                                                   (answered_pulls api r)))) repos)).
Proof.
  unfold count_pull_requests, RateLimiter.rate_limit_aware.
  destruct (RateLimiter.wait_if_needed false h w) as [[waited h1] w1]. cbn [fst snd].
  unfold count_pull_requests_body.
  destruct (count_pulls_from_facts api repos no_pulls []) as (Hcalls & Hok & Hsum).
  split; [exact Hcalls|].
  assert (Hstart : counters_ok no_pulls) by (unfold counters_ok; cbn; lia).
  destruct (Hok Hstart) as (Hm & Ho & Hc & Hb).
  split; [exact Hm|]. split; [exact Ho|]. split; [exact Hc|]. split; [exact Hb|].
  intros Hall. destruct (Hsum Hall) as (Ht & Hb' & Hm').
  rewrite Ht, Hb', Hm'. cbn. repeat split; lia.
Qed.

Lemma count_pull_requests_totals_witness :
  let repos := [Fixtures.repo_a; Fixtures.repo_b] in
  let stats := (count_pull_requests ActivityFixtures.octocat_endpoints repos
                  (RateLimiter.init 100) Fixtures.fair_quota_world).1.1.1 in
  total stats
  = sum_Z (List.map (fun r => Z.of_nat (length (answered_pulls
                                                 ActivityFixtures.octocat_endpoints r)))
             repos) /\
  open stats + closed stats = total stats /\
  merged stats
  = sum_Z (List.map (fun r => Z.of_nat (length (List.filter is_merged
                                                 (answered_pulls
                                                    ActivityFixtures.octocat_endpoints r))))
             repos).
Proof.
  intros repos stats.
  apply (count_pull_requests_totals ActivityFixtures.octocat_endpoints repos
           (RateLimiter.init 100) Fixtures.fair_quota_world).
  repeat constructor.
Defined.

End PullRequestTotals.

(** ** Commit counting: pages *)

Module CommitPaging.
Import GitHubStats Activity.

Section Pages.
Variable answer : Z -> http_result pyval.
Variable repo_name : string.
Variable max_pages : Z.

Local Abbreviation commit_pages := (commit_pages answer repo_name max_pages).

(** A page that is not counted ends the turn after its request. *)
Lemma commit_pages_stop (fuel : nat) (page total_commits : Z) (calls : list call) :
  page <= max_pages -> counted (answer page) = None ->
  commit_pages (S fuel) page total_commits calls
  = (total_commits, calls ++ [GetCommits repo_name page]).
Proof.
  intros Hpage Hnone. cbn [Activity.commit_pages].
  destruct (Z.leb_spec page max_pages); [|lia].
  unfold counted in Hnone.
  destruct (answer page) as [status commits|e]; [|reflexivity].
  destruct (status =? 200); cbn [negb andb] in *; [|reflexivity].
  destruct (py_truthy commits); cbn [negb] in *; [|reflexivity].
  destruct (py_len commits); [discriminate|reflexivity].
Qed.

(** A counted page adds its length, and the loop goes on. *)
Lemma commit_pages_next (fuel : nat) (page total_commits n : Z) (calls : list call) :
  page <= max_pages -> counted (answer page) = Some n ->
  commit_pages (S fuel) page total_commits calls
  = commit_pages fuel (page + 1) (total_commits + n)
      (calls ++ [GetCommits repo_name page]).
Proof.
  intros Hpage Hsome. cbn [Activity.commit_pages].
  destruct (Z.leb_spec page max_pages); [|lia].
  unfold counted in Hsome.
  destruct (answer page) as [status commits|e]; [|discriminate].
  destruct (status =? 200); cbn [negb andb] in *; [|discriminate].
  destruct (py_truthy commits); cbn [negb] in *; [|discriminate].
  destruct (py_len commits); [|discriminate]. now injection Hsome as ->.
Qed.

Lemma commit_pages_over (fuel : nat) (page total_commits : Z) (calls : list call) :
  max_pages < page -> commit_pages fuel page total_commits calls = (total_commits, calls).
Proof.
  intros Hover. destruct fuel as [|fuel]; [reflexivity|]. cbn [Activity.commit_pages].
  destruct (Z.leb_spec page max_pages); [lia|reflexivity].
Qed.

(** With enough fuel for the pages that are left, the result does not
    depend on the fuel. *)
Lemma commit_pages_fuel (fuel : nat) : forall fuel' page total_commits calls,
  (Z.to_nat (max_pages - page + 1) <= fuel)%nat ->
  (Z.to_nat (max_pages - page + 1) <= fuel')%nat ->
  commit_pages fuel page total_commits calls = commit_pages fuel' page total_commits calls.
Proof.
  induction fuel as [|fuel IH]; intros fuel' page total_commits calls Hf Hf'.
  - rewrite (commit_pages_over fuel') by lia. reflexivity.
  - destruct (Z.le_gt_cases page max_pages) as [Hle|Hgt];
      [|now rewrite !commit_pages_over by lia].
    destruct fuel' as [|fuel']; [lia|].
    destruct (counted (answer page)) as [n|] eqn:Hc.
    + rewrite !(commit_pages_next _ _ _ n) by assumption. apply IH; lia.
    + now rewrite !commit_pages_stop by assumption.
Qed.

(** The loop from the first of [k] counted pages. *)
Lemma commit_pages_counted (k : nat) : forall fuel page total_commits calls,
  page + Z.of_nat k - 1 <= max_pages ->
  Forall (fun p => is_Some (counted (answer p))) (page_numbers page k) ->
  (page + Z.of_nat k <= max_pages -> counted (answer (page + Z.of_nat k)) = None) ->
  (Z.to_nat (max_pages - page + 1) <= fuel)%nat ->
  commit_pages fuel page total_commits calls
  = (total_commits
     + sum_Z (List.map (fun p => default 0 (counted (answer p))) (page_numbers page k)),
     calls ++ List.map (GetCommits repo_name)
                (page_numbers page (if page + Z.of_nat k <=? max_pages then S k else k))).
Proof.
  induction k as [|k IH]; intros fuel page total_commits calls Hin Hall Hend Hfuel.
  - change (Z.of_nat 0) with 0 in *. rewrite !Z.add_0_r in *.
    cbn [page_numbers List.map]. change (sum_Z []) with 0. rewrite ?Z.add_0_r.
    destruct (Z.leb_spec page max_pages) as [Hle|Hgt].
    + destruct fuel as [|fuel]; [lia|].
      rewrite commit_pages_stop by auto. reflexivity.
    + rewrite commit_pages_over by lia. cbn [page_numbers List.map].
      now rewrite app_nil_r.
  - cbn [page_numbers] in Hall. inversion Hall as [|? ? [n Hn] Hrest]; subst.
    destruct fuel as [|fuel]; [lia|].
    rewrite (commit_pages_next _ _ _ n) by (auto; lia).
    rewrite (IH fuel (page + 1)); [| lia | exact Hrest | | lia].
    + replace (page + 1 + Z.of_nat k) with (page + Z.of_nat (S k)) by lia.
      change (page_numbers page (S k)) with (page :: page_numbers (page + 1) k).
      cbn [List.map]. rewrite Hn. cbn [default from_option id].
      unfold sum_Z. cbn [fold_right]. f_equal; [lia|].
      destruct (page + Z.of_nat (S k) <=? max_pages);
        cbn [page_numbers List.map]; now rewrite <- app_assoc.
    + replace (page + 1 + Z.of_nat k) with (page + Z.of_nat (S k)) by lia. exact Hend.
Qed.

(** The turn of a repository does not depend on what was counted
    before. *)
Lemma commit_pages_from_zero (fuel : nat) : forall page total_commits calls,
  commit_pages fuel page total_commits calls
  = (total_commits + (commit_pages fuel page 0 []).1,
     calls ++ (commit_pages fuel page 0 []).2).
Proof.
  induction fuel as [|fuel IH]; intros page total_commits calls.
  - cbn. now rewrite Z.add_0_r, app_nil_r.
  - destruct (Z.le_gt_cases page max_pages) as [Hle|Hgt].
    + destruct (counted (answer page)) as [n|] eqn:Hc.
      * rewrite !(commit_pages_next _ _ _ n) by assumption.
        rewrite (IH (page + 1) (total_commits + n)), (IH (page + 1) (0 + n)).
        cbn [fst snd]. rewrite <- app_assoc. f_equal. lia.
      * rewrite !commit_pages_stop by assumption. cbn [fst snd]. f_equal. lia.
    + rewrite !commit_pages_over by lia. cbn [fst snd]. now rewrite Z.add_0_r, app_nil_r.
Qed.

(** The requests of a turn are for consecutive pages within
    [max_pages]. *)
Lemma commit_pages_calls (fuel : nat) : forall page total_commits,
  exists n, (n <= fuel)%nat /\ (Z.of_nat n <= Z.max 0 (max_pages - page + 1)) /\
    (commit_pages fuel page total_commits []).2
    = List.map (GetCommits repo_name) (page_numbers page n).
Proof.
  induction fuel as [|fuel IH]; intros page total_commits.
  - exists 0%nat. split; [lia|]. split; [lia|reflexivity].
  - destruct (Z.le_gt_cases page max_pages) as [Hle|Hgt].
    + destruct (counted (answer page)) as [n|] eqn:Hc.
      * rewrite (commit_pages_next _ _ _ n) by assumption.
        rewrite commit_pages_from_zero. cbn [snd].
        destruct (IH (page + 1) 0) as (m & Hm & Hb & Hcalls).
        exists (S m). rewrite Hcalls. split; [lia|]. split; [lia|reflexivity].
      * rewrite commit_pages_stop by assumption.
        exists 1%nat. split; [lia|]. split; [lia|reflexivity].
    + rewrite commit_pages_over by lia. exists 0%nat.
      split; [lia|]. split; [lia|reflexivity].
Qed.

End Pages.

Lemma count_commits_from_sum (api : endpoints) (settings : Settings) (repos : list repo) :
  forall total_commits calls,
    count_commits_from api settings repos total_commits calls
    = (total_commits
       + sum_Z (List.map (fun r => (count_commits_of api settings r 0 []).1) repos),
       calls ++ concat (List.map (fun r => (count_commits_of api settings r 0 []).2) repos)).
Proof.
  induction repos as [|r repos IH]; intros total_commits calls.
  - cbn. now rewrite Z.add_0_r, app_nil_r.
  - cbn [count_commits_from]. unfold count_commits_of at 1.
    rewrite commit_pages_from_zero. rewrite IH.
    cbn [List.map concat]. unfold sum_Z, count_commits_of. cbn [fold_right].
    rewrite <- app_assoc. f_equal. lia.
Qed.

(** X21.  In [count_commits_last_year], for a repository whose first
    [k] pages of commits ([k] at most [max_commits_pages]) are answered
    with status 200 and a non-empty body that has a length, and whose
    next page, if still within [max_commits_pages], is not: the count
    grows by the lengths of these [k] pages, and the method asks for
    pages 1 .. k + 1, or 1 .. k when [k] is [max_commits_pages].  So the
    count of a repository stops at [max_commits_pages] pages, and the
    page after is never asked for.  A larger loop budget changes
    nothing. *)
Theorem count_commits_stops (api : endpoints) (settings : Settings) (r : repo)
    (k : nat) (total_commits : Z) (calls : list call) :
  Z.of_nat k <= max_commits_pages settings ->
  Forall (fun p => is_Some (counted (commits_of api (full_name r) p))) (page_numbers 1 k) ->
  (Z.of_nat k < max_commits_pages settings ->
   counted (commits_of api (full_name r) (1 + Z.of_nat k)) = None) ->
  count_commits_of api settings r total_commits calls
  = (total_commits
     + sum_Z (List.map (fun p => default 0 (counted (commits_of api (full_name r) p)))
                (page_numbers 1 k)),
     calls ++ List.map (GetCommits (full_name r))
                (page_numbers 1 (if Z.of_nat k <? max_commits_pages settings
                                 then S k else k))) /\
  forall fuel,
    (Z.to_nat (max_commits_pages settings) <= fuel)%nat ->
    commit_pages (commits_of api (full_name r)) (full_name r) (max_commits_pages settings)
      fuel 1 total_commits calls
    = count_commits_of api settings r total_commits calls.
Proof.
  intros Hk Hall Hend. unfold count_commits_of. split.
  - rewrite (commit_pages_counted _ _ _ k); [| lia | exact Hall | | lia].
    + f_equal. f_equal. f_equal.
      destruct (Z.leb_spec (1 + Z.of_nat k) (max_commits_pages settings)),
               (Z.ltb_spec (Z.of_nat k) (max_commits_pages settings)); (reflexivity || lia).
    + intros Hle. apply Hend. lia.
  - intros fuel Hfuel. apply commit_pages_fuel; lia.
Qed.

Lemma count_commits_stops_witness :
  count_commits_of ActivityFixtures.octocat_endpoints default_settings Fixtures.repo_a 0 []
  = (0 + sum_Z (List.map (fun p => default 0 (counted (commits_of
                                                     ActivityFixtures.octocat_endpoints
                                                     (full_name Fixtures.repo_a) p)))
                  (page_numbers 1 2)),
     [] ++ List.map (GetCommits (full_name Fixtures.repo_a))
             (page_numbers 1 (if Z.of_nat 2 <? max_commits_pages default_settings
                              then 3%nat else 2%nat))).
Proof.
  refine (proj1 (count_commits_stops ActivityFixtures.octocat_endpoints default_settings
                   Fixtures.repo_a 2 0 [] _ _ _)).
  - cbn. lia.
  - repeat constructor; eexists; reflexivity.
  - intros _. reflexivity.
Defined.

(** X22.  [count_commits_last_year] makes at most [max_commits_pages]
    requests per repository, for consecutive pages from 1; with
    [max_commits_pages] at 0 or below it makes none and returns 0.  The
    turns of the repositories are independent: the result is the sum,
    and the requests the concatenation, of what each repository gives on
    its own, so a repository that fails takes nothing from the others. *)
Theorem count_commits_budget (api : endpoints) (settings : Settings) (repos : list repo)
    (h : RateLimiter.RateLimitHandler) (w : world) :
  (count_commits_last_year api settings repos h w).1.1.1
  = sum_Z (List.map (fun r => (count_commits_of api settings r 0 []).1) repos) /\
  (count_commits_last_year api settings repos h w).1.1.2
  = concat (List.map (fun r => (count_commits_of api settings r 0 []).2) repos) /\
  (forall r, exists n,
      (n <= Z.to_nat (max_commits_pages settings))%nat /\
      (count_commits_of api settings r 0 []).2
      = List.map (GetCommits (full_name r)) (page_numbers 1 n)) /\
  (length (count_commits_last_year api settings repos h w).1.1.2
   <= Z.to_nat (max_commits_pages settings) * length repos)%nat /\
  (max_commits_pages settings <= 0 ->
   (count_commits_last_year api settings repos h w).1.1 = (0, [])).
Proof.
  unfold count_commits_last_year, RateLimiter.rate_limit_aware.
  destruct (RateLimiter.wait_if_needed false h w) as [[waited h1] w1]. cbn [fst snd].
  unfold count_commits_body. rewrite count_commits_from_sum. cbn [fst snd app].
  assert (Hturn : forall r, exists n,
             (n <= Z.to_nat (max_commits_pages settings))%nat /\
             (count_commits_of api settings r 0 []).2
             = List.map (GetCommits (full_name r)) (page_numbers 1 n)).
  { intros r. unfold count_commits_of.
    destruct (commit_pages_calls (commits_of api (full_name r)) (full_name r)
                (max_commits_pages settings) (Z.to_nat (max_commits_pages settings)) 1 0)
      as (n & Hn & _ & Hcalls).
    exists n. now split. }
  split; [lia|]. split; [reflexivity|]. split; [exact Hturn|]. split.
  - induction repos as [|r repos IH]; [cbn; lia|].
    cbn [List.map concat length]. rewrite length_app.
    destruct (Hturn r) as (n & Hn & ->). rewrite length_map.
    assert (Hlen : forall m page, length (page_numbers page m) = m)
      by (induction m; intros; cbn; [reflexivity|now f_equal]).
    rewrite Hlen. lia.
  - intros Hzero.
    assert (Hnone : forall r, count_commits_of api settings r 0 [] = (0, [])).
    { intros r. unfold count_commits_of. replace (Z.to_nat (max_commits_pages settings))
        with 0%nat by lia. reflexivity. }
    assert (Hsum : forall l,
               sum_Z (List.map (fun r => (count_commits_of api settings r 0 []).1) l) = 0).
    { induction l as [|r l IH]; [reflexivity|].
      cbn [List.map]. unfold sum_Z in *. cbn [fold_right]. rewrite Hnone, IH. reflexivity. }
    assert (Hcat : forall l,
               concat (List.map (fun r => (count_commits_of api settings r 0 []).2) l) = []).
    { induction l as [|r l IH]; [reflexivity|].
      cbn [List.map concat]. rewrite Hnone, IH. reflexivity. }
    rewrite Hsum, Hcat. reflexivity.
Qed.

Lemma count_commits_budget_witness :
  (count_commits_last_year ActivityFixtures.octocat_endpoints
     {| days_back := 365; max_commits_pages := 0; include_code_changes := true |}
     [Fixtures.repo_a; Fixtures.repo_b] (RateLimiter.init 100)
     Fixtures.fair_quota_world).1.1 = (0, []).
Proof.
  apply (count_commits_budget ActivityFixtures.octocat_endpoints
           {| days_back := 365; max_commits_pages := 0; include_code_changes := true |}
           [Fixtures.repo_a; Fixtures.repo_b] (RateLimiter.init 100)
           Fixtures.fair_quota_world).
  cbn. lia.
Defined.

End CommitPaging.

(** ** Code changes: requests, waiting and failures *)

Module CodeChanges.
Import GitHubStats Activity.

Lemma changes_of_effects (api : endpoints) (username : string) (since_date : Z) (r : repo)
    (stats : change_stats) (calls : list call) (w : world) :
  (changes_of api username since_date r stats calls w).1.2 = calls ++ stats_calls api r /\
  (changes_of api username since_date r stats calls w).2
  = (if is_pending api r then time_sleep (2 * second) w else w).
Proof.
  unfold changes_of, stats_calls, is_pending.
  destruct (contributors_of api (full_name r) false) as [status contributors|e];
    [|split; reflexivity].
  destruct (status =? 202).
  - destruct (contributors_of api (full_name r) true) as [status2 contributors2|e];
      [destruct (status2 =? 200)|]; cbn [fst snd]; now rewrite <- app_assoc.
  - destruct (status =? 200); split; reflexivity.
Qed.

Lemma changes_from_effects (api : endpoints) (username : string) (since_date : Z)
    (repos : list repo) : forall stats calls w,
  (changes_from api username since_date repos stats calls w).1.2
  = calls ++ concat (List.map (stats_calls api) repos) /\
  slept (changes_from api username since_date repos stats calls w).2
  = slept w ++ repeat (2 * second) (length (List.filter (is_pending api) repos)) /\
  clock (changes_from api username since_date repos stats calls w).2
  = clock w + 2 * second * Z.of_nat (length (List.filter (is_pending api) repos)) /\
  requests (changes_from api username since_date repos stats calls w).2 = requests w /\
  cache_dir (changes_from api username since_date repos stats calls w).2 = cache_dir w.
Proof.
  induction repos as [|r repos IH]; intros stats calls w.
  - cbn. rewrite !app_nil_r. repeat split; lia.
  - cbn [changes_from].
    pose proof (changes_of_effects api username since_date r stats calls w) as (Hc & Hw).
    destruct (changes_of api username since_date r stats calls w) as [[stats1 calls1] w1].
    cbn [fst snd] in Hc, Hw. subst calls1 w1.
    destruct (IH stats1 (calls ++ stats_calls api r)
                (if is_pending api r then time_sleep (2 * second) w else w))
      as (Hcalls & Hs & Hk & Hr & Hd).
    rewrite Hcalls, Hs, Hk, Hr, Hd. cbn [List.map concat List.filter].
    rewrite <- app_assoc.
    destruct (is_pending api r); cbn [length repeat time_sleep slept clock requests cache_dir];
      rewrite <- ?app_assoc; repeat split; try reflexivity; lia.
Qed.

(** X23.  [get_code_changes_stats] asks for the contributor statistics
    of every repository in order: once, or twice when the first answer
    is a 202, with one sleep of 2 s before the second request and no
    third request whatever the second answer.  [total_changes] is the
    sum of the additions and deletions returned.  Switched off, the
    method returns zeros without any request or sleep. *)
Theorem get_code_changes_stats_requests (api : endpoints) (settings : Settings)
    (username : string) (repos : list repo) (h : RateLimiter.RateLimitHandler) (w : world) :
  total_changes (get_code_changes_stats api settings username repos h w).1.1.1
  = additions (get_code_changes_stats api settings username repos h w).1.1.1
    + deletions (get_code_changes_stats api settings username repos h w).1.1.1 /\
  (include_code_changes settings = false ->
   get_code_changes_stats api settings username repos h w
   = (no_changes, [], (RateLimiter.wait_if_needed false h w).1.2,
      (RateLimiter.wait_if_needed false h w).2)) /\
  (include_code_changes settings = true ->
   (get_code_changes_stats api settings username repos h w).1.1.2
   = concat (List.map (stats_calls api) repos) /\
   slept (get_code_changes_stats api settings username repos h w).2
   = slept (RateLimiter.wait_if_needed false h w).2
     ++ repeat (2 * second) (length (List.filter (is_pending api) repos)) /\
   clock (get_code_changes_stats api settings username repos h w).2
   = clock (RateLimiter.wait_if_needed false h w).2
     + 2 * second * Z.of_nat (length (List.filter (is_pending api) repos)) /\
   requests (get_code_changes_stats api settings username repos h w).2
   = requests (RateLimiter.wait_if_needed false h w).2 /\
   cache_dir (get_code_changes_stats api settings username repos h w).2
   = cache_dir (RateLimiter.wait_if_needed false h w).2).
Proof.
  unfold get_code_changes_stats, RateLimiter.rate_limit_aware.
  destruct (RateLimiter.wait_if_needed false h w) as [[waited h1] w1]. cbn [fst snd].
  unfold get_code_changes_stats_body.
  destruct (include_code_changes settings); cbn [negb].
  - pose proof (changes_from_effects api username (clock w1 - days_back settings * day)
                  repos no_changes [] w1) as Heff.
    destruct (changes_from api username (clock w1 - days_back settings * day) repos
                no_changes [] w1) as [[stats calls] w2].
    cbn [fst snd app] in *.
    split; [reflexivity|]. split; [discriminate|]. intros _. exact Heff.
  - split; [reflexivity|]. split; [reflexivity|discriminate].
Qed.

Lemma get_code_changes_stats_requests_witness :
  let result := get_code_changes_stats ActivityFixtures.octocat_endpoints
                  ActivityFixtures.short_period "octocat"
                  [Fixtures.repo_a; Fixtures.repo_b] (RateLimiter.init 100)
                  Fixtures.fair_quota_world in
  result.1.1.2 = [GetContributorStats "octocat/a"; GetContributorStats "octocat/a";
                  GetContributorStats "octocat/b"]%string /\
  slept result.2
  = slept (RateLimiter.wait_if_needed false (RateLimiter.init 100)
             Fixtures.fair_quota_world).2 ++ [2 * second].
Proof.
  intros result.
  destruct (proj2 (proj2 (get_code_changes_stats_requests ActivityFixtures.octocat_endpoints
                            ActivityFixtures.short_period "octocat"
                            [Fixtures.repo_a; Fixtures.repo_b] (RateLimiter.init 100)
                            Fixtures.fair_quota_world)) eq_refl)
    as (Hcalls & Hslept & _).
  split; [exact Hcalls|exact Hslept].
Defined.

Lemma add_contributors_app (username : string) (since_date : Z) (good rest : list dict) :
  forall stats,
    (add_contributors username since_date good stats).1 = Returned tt ->
    add_contributors username since_date (good ++ rest) stats
    = add_contributors username since_date rest
        (add_contributors username since_date good stats).2.
Proof.
  induction good as [|c good IH]; intros stats Hgood; [reflexivity|].
  cbn [app add_contributors] in *.
  destruct (add_contributor username since_date c stats) as [[[]|e] stats1].
  - now apply IH.
  - discriminate.
Qed.

(** X24.  A contributor entry whose [author] is missing or is not an
    object (null for a deleted account) ends the turn of the repository:
    the changes counted before it are kept, and the entries listed after
    it are not counted, the user's own among them. *)
Theorem changes_of_without_author (api : endpoints) (username : string) (since_date : Z)
    (r : repo) (stats : change_stats) (calls : list call) (w : world)
    (good rest : list dict) (bad : dict) :
  contributors_of api (full_name r) false = Response 200 (good ++ bad :: rest) ->
  (add_contributors username since_date good stats).1 = Returned tt ->
  dict_get "author" bad = None \/ dict_get "author" bad = Some PNone ->
  changes_of api username since_date r stats calls w
  = ((add_contributors username since_date good stats).2,
     calls ++ [GetContributorStats (full_name r)], w).
Proof.
  intros Hapi Hgood Hbad. unfold changes_of. rewrite Hapi. cbn [Z.eqb Pos.eqb].
  rewrite (add_contributors_app _ _ _ _ _ Hgood). cbn [add_contributors].
  unfold add_contributor. destruct Hbad as [->| ->]; reflexivity.
Qed.

Lemma changes_of_without_author_witness :
  let api := {| pulls_of := fun _ => Response 404 [];
                commits_of := fun _ _ => Response 404 PNone;
                contributors_of := fun _ _ =>
                  Response 200 [ActivityFixtures.contributor "hubot"
                                  [ActivityFixtures.week 900 7 7];
                                [("author", PNone); ("weeks", PList [])]%string;
                                ActivityFixtures.contributor "octocat"
                                  [ActivityFixtures.week 900 10 4]] |} in
  changes_of api "octocat" 0 Fixtures.repo_a no_changes [] Fixtures.fair_quota_world
  = (no_changes, [GetContributorStats "octocat/a"], Fixtures.fair_quota_world).
Proof.
  intros api.
  apply (changes_of_without_author api "octocat" 0 Fixtures.repo_a no_changes []
           Fixtures.fair_quota_world
           [ActivityFixtures.contributor "hubot" [ActivityFixtures.week 900 7 7]]
           [ActivityFixtures.contributor "octocat" [ActivityFixtures.week 900 10 4]]
           [("author", PNone); ("weeks", PList [])]%string).
  - reflexivity.
  - reflexivity.
  - now right.
Defined.

Lemma add_weeks_listed (since_date : Z) (weeks : list (Z * Z * Z)) : forall stats,
  add_weeks since_date (List.map ActivityFixtures.listed_week weeks) stats
  = (Returned tt,
     {| additions := additions stats
                     + sum_Z (List.map (fun wk => wk.1.2)
                                (List.filter (fun wk => since_date <=? wk.1.1 * second) weeks));
        deletions := deletions stats
                     + sum_Z (List.map (fun wk => wk.2)
                                (List.filter (fun wk => since_date <=? wk.1.1 * second) weeks));
        total_changes := total_changes stats |}).
Proof.
  induction weeks as [|[[t a] d] weeks IH]; intros stats.
  - cbn. unfold sum_Z. cbn. rewrite !Z.add_0_r. now destruct stats.
  - cbn [List.map add_weeks List.filter fst snd].
    change (add_week since_date (ActivityFixtures.listed_week (t, a, d)) stats)
      with (if since_date <=? t * second
            then (Returned tt,
                  {| additions := additions stats + a; deletions := deletions stats + d;
                     total_changes := total_changes stats |})
            else (Returned tt, stats)).
    destruct (since_date <=? t * second); rewrite IH; cbn [additions deletions total_changes];
      [|reflexivity].
    cbn [List.map fst snd]. unfold sum_Z. cbn [fold_right]. do 2 f_equal; lia.
Qed.

Lemma add_contributors_listed (username : string) (since_date : Z)
    (cs : list (string * list (Z * Z * Z))) : forall stats,
  add_contributors username since_date (List.map ActivityFixtures.listed_contributor cs) stats
  = (Returned tt,
     {| additions := additions stats
                     + sum_Z (List.map (fun wk => wk.1.2)
                                (ActivityFixtures.own_weeks username since_date cs));
        deletions := deletions stats
                     + sum_Z (List.map (fun wk => wk.2)
                                (ActivityFixtures.own_weeks username since_date cs));
        total_changes := total_changes stats |}).
Proof.
  assert (Hsum : forall l l', sum_Z (l ++ l') = sum_Z l + sum_Z l').
  { induction l as [|x l IHl]; intros l'; [reflexivity|].
    cbn [app]. unfold sum_Z in *. cbn [fold_right]. rewrite IHl. lia. }
  unfold ActivityFixtures.own_weeks.
  induction cs as [|[login weeks] cs IH]; intros stats.
  - cbn. unfold sum_Z. cbn. rewrite !Z.add_0_r. now destruct stats.
  - cbn [List.map add_contributors List.filter fst snd].
    change (add_contributor username since_date
              (ActivityFixtures.listed_contributor (login, weeks)) stats)
      with (if String.eqb login username
            then add_weeks since_date (List.map ActivityFixtures.listed_week weeks) stats
            else (Returned tt, stats)).
    destruct (String.eqb login username).
    + rewrite add_weeks_listed, IH. cbn [additions deletions total_changes].
      cbn [List.map concat snd]. rewrite List.filter_app, !List.map_app, !Hsum.
      do 2 f_equal; lia.
    + now rewrite IH.
Qed.



End CodeChanges.

(** ** Utilities: chunks and truncation *)

Module UtilityFacts.
Import Utils.

Lemma range_from_chunks {A : Type} (lst : list A) (size : Z) (fuel : nat) :
  forall start,
    0 < size -> 0 <= start ->
    (Z.to_nat (Z.of_nat (length lst) - start) <= fuel)%nat ->
    concat (List.map (fun i => slice lst i (i + size))
              (range_from fuel start (Z.of_nat (length lst)) size))
    = skipn (Z.to_nat start) lst /\
    Forall (fun chunk => (1 <= length chunk)%nat /\ Z.of_nat (length chunk) <= size)
      (List.map (fun i => slice lst i (i + size))
         (range_from fuel start (Z.of_nat (length lst)) size)).
Proof.
  induction fuel as [|fuel IH]; intros start Hsize Hstart Hfuel.
  - cbn. split; [|constructor]. symmetry. apply List.skipn_all2. lia.
  - cbn [range_from]. destruct (Z.ltb_spec start (Z.of_nat (length lst))) as [Hlt|Hge].
    + destruct (IH (start + size) Hsize ltac:(lia) ltac:(lia)) as [Hcat Hall].
      cbn [List.map concat]. split.
      * rewrite Hcat. unfold slice.
        replace (start + size - start) with size by lia.
        replace (Z.to_nat (start + size)) with (Z.to_nat start + Z.to_nat size)%nat by lia.
        rewrite Nat.add_comm, <- List.skipn_skipn. apply List.firstn_skipn.
      * constructor; [|exact Hall]. unfold slice.
        replace (start + size - start) with size by lia.
        rewrite List.length_firstn, List.length_skipn. lia.
    + cbn. split; [|constructor]. symmetry. apply List.skipn_all2. lia.
Qed.

(** X26.  [chunk_list] with a positive [chunk_size] cuts the list into
    chunks that, put back together, give the list: no chunk is empty and
    none is longer than [chunk_size].  A [chunk_size] of 0 raises
    [ValueError]; a negative one returns the empty list, whatever the
    list holds. *)
Theorem chunk_list_partition {A : Type} (lst : list A) (chunk_size : Z) :
  (0 < chunk_size ->
   exists chunks,
     chunk_list lst chunk_size = Returned chunks /\
     concat chunks = lst /\
     Forall (fun chunk => (1 <= length chunk)%nat /\ Z.of_nat (length chunk) <= chunk_size)
       chunks) /\
  (chunk_size = 0 -> chunk_list lst chunk_size = Raised ValueError) /\
  (chunk_size < 0 -> chunk_list lst chunk_size = Returned []).
Proof.
  unfold chunk_list, range_to. split; [|split].
  - intros Hpos.
    destruct (Z.eqb_spec chunk_size 0); [lia|]. destruct (Z.ltb_spec chunk_size 0); [lia|].
    eexists. split; [reflexivity|].
    destruct (range_from_chunks lst chunk_size (Z.to_nat (Z.of_nat (length lst))) 0
                Hpos ltac:(lia) ltac:(lia)) as [Hcat Hall].
    split; [exact Hcat|exact Hall].
  - intros ->. reflexivity.
  - intros Hneg. destruct (Z.eqb_spec chunk_size 0); [lia|].
    destruct (Z.ltb_spec chunk_size 0); [reflexivity|lia].
Qed.

Lemma chunk_list_partition_witness :
  (exists chunks,
      chunk_list [1; 2; 3; 4; 5] 2 = Returned chunks /\
      concat chunks = [1; 2; 3; 4; 5] /\
      Forall (fun chunk => (1 <= length chunk)%nat /\ Z.of_nat (length chunk) <= 2) chunks) /\
  chunk_list [1; 2; 3; 4; 5] 0 = Raised ValueError /\
  chunk_list [1; 2; 3; 4; 5] (-2) = Returned [].
Proof.
  split; [|split].
  - apply (chunk_list_partition [1; 2; 3; 4; 5] 2). lia.
  - apply (chunk_list_partition [1; 2; 3; 4; 5] 0). reflexivity.
  - apply (chunk_list_partition [1; 2; 3; 4; 5] (-2)). lia.
Defined.

Lemma length_take (n : nat) : forall text,
  String.length (take n text) = Nat.min n (String.length text).
Proof.
  induction n as [|n IH]; intros [|c rest]; cbn; auto.
Qed.

Lemma length_append (s t : string) :
  String.length (s +:+ t) = (String.length s + String.length t)%nat.
Proof. induction s as [|c s IH]; simpl; [reflexivity|now rewrite IH]. Qed.

(** X27.  [truncate_text] returns a text of at most [max_length]
    characters that is the text itself or a prefix of it followed by the
    suffix, provided the suffix is no longer than [max_length].  With a
    suffix longer than [max_length] a text that is too long comes back
    longer than [max_length]: the suffix is appended to the text less
    its last [len(suffix) - max_length] characters. *)
Theorem truncate_text_length (text : string) (max_length : Z) (suffix : string) :
  (Z.of_nat (String.length text) <= max_length ->
   truncate_text text max_length suffix = text) /\
  (max_length < Z.of_nat (String.length text) ->
   Z.of_nat (String.length suffix) <= max_length ->
   truncate_text text max_length suffix
   = take (Z.to_nat (max_length - Z.of_nat (String.length suffix))) text +:+ suffix /\
   Z.of_nat (String.length (truncate_text text max_length suffix)) = max_length) /\
  (max_length < Z.of_nat (String.length text) ->
   max_length < Z.of_nat (String.length suffix) ->
   max_length < Z.of_nat (String.length (truncate_text text max_length suffix)) /\
   Z.of_nat (String.length (truncate_text text max_length suffix))
   = Z.max 0 (Z.of_nat (String.length text)
              - (Z.of_nat (String.length suffix) - max_length))
     + Z.of_nat (String.length suffix)).
Proof.
  unfold truncate_text, prefix_to. split; [|split].
  - intros Hfit. destruct (Z.leb_spec (Z.of_nat (String.length text)) max_length); [|lia].
    reflexivity.
  - intros Hlong Hsuffix.
    destruct (Z.leb_spec (Z.of_nat (String.length text)) max_length); [lia|].
    destruct (Z.ltb_spec (max_length - Z.of_nat (String.length suffix)) 0); [lia|].
    split; [reflexivity|]. rewrite length_append, length_take. lia.
  - intros Hlong Hsuffix.
    destruct (Z.leb_spec (Z.of_nat (String.length text)) max_length); [lia|].
    destruct (Z.ltb_spec (max_length - Z.of_nat (String.length suffix)) 0); [|lia].
    rewrite length_append, length_take. lia.
Qed.

Lemma truncate_text_length_witness :
  truncate_text "short" 50 "..." = "short"%string /\
  Z.of_nat (String.length (truncate_text "a rather long title" 10 "...")) = 10 /\
  2 < Z.of_nat (String.length (truncate_text "a rather long title" 2 "...")).
Proof.
  split; [|split].
  - apply (truncate_text_length "short" 50 "..."). cbn. lia.
  - apply (truncate_text_length "a rather long title" 10 "..."); cbn; lia.
  - apply (truncate_text_length "a rather long title" 2 "..."); cbn; lia.
Defined.

End UtilityFacts.

(** ** Configuration: validation *)

Module ConfigurationValidation.
Import Configuration Validation.

Lemma get_after_set (data data' : pyval) (key : string) (value default : pyval) :
  set data key value = Returned data' -> get data' key default = value.
Proof.
  intros Hset. unfold set, get in *.
  pose proof (ConfigurationPaths.set_in_get_from (split_dots key) value data default
                (ConfigurationPaths.split_dots_not_nil key)) as Hget.
  now rewrite Hset in Hget.
Qed.

Lemma get_after_other_set (data data' : pyval) (key key' : string) (value default : pyval)
    (a b : string) (rest rest' : list string) :
  split_dots key = a :: rest -> split_dots key' = b :: rest' -> a <> b ->
  set data key value = Returned data' -> get data' key' default = get data key' default.
Proof.
  intros Hk Hk' Hab Hset. unfold set, get in *. rewrite Hk in Hset. rewrite Hk'.
  now apply (ConfigurationPaths.set_in_other_path [] a b rest rest' value data data' default).
Qed.

Lemma get_after_sibling_set (data data' : pyval) (key key' : string) (value default : pyval)
    (section a b : string) :
  split_dots key = [section; a] -> split_dots key' = [section; b] -> a <> b ->
  set data key value = Returned data' -> get data' key' default = get data key' default.
Proof.
  intros Hk Hk' Hab Hset. unfold set, get in *. rewrite Hk in Hset. rewrite Hk'.
  now apply (ConfigurationPaths.set_in_other_path [section] a b [] [] value data data'
               default).
Qed.

(** X28.  [validate] accepts exactly the configurations with a token
    and a username that are set, an integer [stats.days_back] of 1 or
    more and an integer [rate_limit.min_remaining] of 0 or more, and it
    reports no error exactly then.  So it accepts every configuration on
    which these four keys have been [set] to such values, whatever else
    it held. *)
Theorem validate_accepts (data : pyval) :
  ((validate data).1 = true <-> (validate data).2 = []) /\
  ((validate data).1 = true <->
   py_truthy (get data "github.token" PNone) = true /\
   py_truthy (get data "github.username" PNone) = true /\
   (exists days, as_int (get data "stats.days_back" PNone) = Some days /\ 1 <= days) /\
   (exists least, as_int (get data "rate_limit.min_remaining" PNone) = Some least /\
                  0 <= least)) /\
  (forall d0 d1 d2 d3 token username days least,
      set d0 "github.token" (PStr token) = Returned d1 ->
      set d1 "github.username" (PStr username) = Returned d2 ->
      set d2 "stats.days_back" (PInt days) = Returned d3 ->
      set d3 "rate_limit.min_remaining" (PInt least) = Returned data ->
      token <> EmptyString -> username <> EmptyString -> 1 <= days -> 0 <= least ->
      validate data = (true, [])).
Proof.
  assert (Hchar : forall d,
             (validate d).1 = true <->
             py_truthy (get d "github.token" PNone) = true /\
             py_truthy (get d "github.username" PNone) = true /\
             (exists days, as_int (get d "stats.days_back" PNone) = Some days /\ 1 <= days) /\
             (exists least, as_int (get d "rate_limit.min_remaining" PNone) = Some least /\
                            0 <= least)).
  { intros d. unfold validate, below, append_if.
    destruct (py_truthy (get d "github.token" PNone));
      destruct (py_truthy (get d "github.username" PNone));
      destruct (as_int (get d "stats.days_back" PNone)) as [days|];
      destruct (as_int (get d "rate_limit.min_remaining" PNone)) as [least|];
      try destruct (Z.ltb_spec days 1); try destruct (Z.ltb_spec least 0);
      cbn [negb app length Nat.eqb fst];
      (split;
       [ first [ discriminate
               | intros _; repeat split; eauto ]
       | intros (Ht & Hu & (x & Hx & Hx') & (y & Hy & Hy'));
         first [ reflexivity | discriminate
               | injection Hx as <-; lia | injection Hy as <-; lia ] ]). }
  assert (Hvalid : forall d, (validate d).1 = true -> validate d = (true, [])).
  { intros d. unfold validate, below, append_if.
    destruct (py_truthy (get d "github.token" PNone));
      destruct (py_truthy (get d "github.username" PNone));
      destruct (as_int (get d "stats.days_back" PNone)) as [days|];
      destruct (as_int (get d "rate_limit.min_remaining" PNone)) as [least|];
      try destruct (days <? 1); try destruct (least <? 0);
      cbn [negb app length Nat.eqb fst]; first [reflexivity|discriminate]. }
  split; [|split; [apply Hchar|]].
  - split.
    + intros Hv. now rewrite (Hvalid data Hv).
    + unfold validate. cbn [fst snd]. intros ->. reflexivity.
  - intros d0 d1 d2 d3 token username days least H1 H2 H3 H4 Ht Hu Hd Hl.
    apply Hvalid, Hchar.
    assert (Htoken : get data "github.token" PNone = PStr token).
    { rewrite (get_after_other_set d3 data "rate_limit.min_remaining" "github.token"
                 (PInt least) PNone "rate_limit" "github" ["min_remaining"] ["token"])
        by (reflexivity || discriminate || assumption).
      rewrite (get_after_other_set d2 d3 "stats.days_back" "github.token"
                 (PInt days) PNone "stats" "github" ["days_back"] ["token"])
        by (reflexivity || discriminate || assumption).
      rewrite (get_after_sibling_set d1 d2 "github.username" "github.token"
                 (PStr username) PNone "github" "username" "token")
        by (reflexivity || discriminate || assumption).
      exact (get_after_set d0 d1 "github.token" (PStr token) PNone H1). }
    assert (Husername : get data "github.username" PNone = PStr username).
    { rewrite (get_after_other_set d3 data "rate_limit.min_remaining" "github.username"
                 (PInt least) PNone "rate_limit" "github" ["min_remaining"] ["username"])
        by (reflexivity || discriminate || assumption).
      rewrite (get_after_other_set d2 d3 "stats.days_back" "github.username"
                 (PInt days) PNone "stats" "github" ["days_back"] ["username"])
        by (reflexivity || discriminate || assumption).
      exact (get_after_set d1 d2 "github.username" (PStr username) PNone H2). }
    assert (Hdays : get data "stats.days_back" PNone = PInt days).
    { rewrite (get_after_other_set d3 data "rate_limit.min_remaining" "stats.days_back"
                 (PInt least) PNone "rate_limit" "stats" ["min_remaining"] ["days_back"])
        by (reflexivity || discriminate || assumption).
      exact (get_after_set d2 d3 "stats.days_back" (PInt days) PNone H3). }
    assert (Hleast : get data "rate_limit.min_remaining" PNone = PInt least)
      by exact (get_after_set d3 data "rate_limit.min_remaining" (PInt least) PNone H4).
    rewrite Htoken, Husername, Hdays, Hleast. cbn [py_truthy as_int].
    split; [now destruct token|]. split; [now destruct username|].
    split; eexists; (split; [reflexivity|assumption]).
Qed.

Lemma validate_accepts_witness :
  validate (PDict [("github", PDict [("token", PStr "ghp_0123"); ("username", PStr "octocat")]);
                   ("stats", PDict [("days_back", PInt 365)]);
                   ("rate_limit", PDict [("min_remaining", PInt 100)])]%string)
  = (true, []).
Proof.
  apply (proj2 (proj2 (validate_accepts _))
           (PDict []) (PDict [("github", PDict [("token", PStr "ghp_0123")])]%string)
           (PDict [("github", PDict [("token", PStr "ghp_0123");
                                     ("username", PStr "octocat")])]%string)
           (PDict [("github", PDict [("token", PStr "ghp_0123");
                                     ("username", PStr "octocat")]);
                   ("stats", PDict [("days_back", PInt 365)])]%string)
           "ghp_0123"%string "octocat"%string 365 100);
    first [reflexivity | discriminate | lia].
Defined.

End ConfigurationValidation.

(** ** Configuration: display and the stored token *)

Module ConfigurationDisplay.
Import ConfigObject.

Lemma dict_get_after_put (k k' : string) (v : value) (d : object) :
  dict_get k (dict_put k' v d) = if String.eqb k' k then Some v else dict_get k d.
Proof.
  induction d as [|[k0 v0] d IH]; cbn.
  - destruct (String.eqb k' k); reflexivity.
  - destruct (String.eqb_spec k0 k') as [->|Hne]; cbn.
    + destruct (String.eqb k' k); reflexivity.
    + rewrite IH. destruct (String.eqb_spec k0 k) as [->|Hne'].
      * destruct (String.eqb_spec k' k); [congruence|reflexivity].
      * reflexivity.
Qed.

Lemma append_cons (c : Ascii.ascii) (s t : string) :
  String c s +:+ t = String c (s +:+ t).
Proof. reflexivity. Qed.

Lemma take_exact (s : string) : forall rest, Utils.take (String.length s) (s +:+ rest) = s.
Proof.
  induction s as [|c s IH]; intros rest.
  - now destruct rest.
  - rewrite append_cons. cbn [String.length Utils.take]. now rewrite IH.
Qed.

Lemma drop_exact (s : string) : forall rest, drop (String.length s) (s +:+ rest) = rest.
Proof.
  induction s as [|c s IH]; intros rest.
  - now destruct rest.
  - rewrite append_cons. cbn [String.length drop]. apply IH.
Qed.

Lemma length_drop (n : nat) : forall text,
  String.length (drop n text) = (String.length text - n)%nat.
Proof.
  induction n as [|n IH]; intros [|c rest]; simpl; auto.
Qed.

Lemma append_assoc (s t u : string) : (s +:+ t) +:+ u = s +:+ (t +:+ u).
Proof.
  induction s as [|c s IH]; [reflexivity|].
  rewrite !append_cons. f_equal. exact IH.
Qed.

(** Masking a masked token changes nothing. *)
Lemma mask_mask (token : string) : mask (mask token) = mask token.
Proof.
  unfold mask at 2 3.
  destruct (Z.ltb_spec 12 (Z.of_nat (String.length token))) as [Hlong|Hshort];
    [|reflexivity].
  set (first := Utils.take 8 token).
  set (last := drop (String.length token - 4) token).
  assert (Hfirst : String.length first = 8%nat)
    by (subst first; rewrite UtilityFacts.length_take; lia).
  assert (Hlast : String.length last = 4%nat)
    by (subst last; rewrite length_drop; lia).
  unfold mask.
  rewrite !UtilityFacts.length_append, Hfirst, Hlast. cbn [String.length Nat.add Nat.sub].
  change (12 <? Z.of_nat 15) with true. cbv iota.
  f_equal.
  - rewrite <- Hfirst. apply take_exact.
  - f_equal. rewrite <- append_assoc.
    replace 11%nat with (String.length (first +:+ "...")%string)
      by (rewrite UtilityFacts.length_append, Hfirst; reflexivity).
    apply drop_exact.
Qed.

Lemma mask_not_empty (token : string) : mask token <> EmptyString.
Proof.
  unfold mask. destruct (12 <? Z.of_nat (String.length token)); [|discriminate].
  intros Hempty. apply (f_equal String.length) in Hempty.
  rewrite !UtilityFacts.length_append in Hempty. cbn in Hempty. lia.
Qed.

(** What [display] does to a configuration whose [github] section holds
    a token that is a non-empty string. *)
Lemma display_masks (c : config) (top section : object) (location : nat) (token : string) :
  heap c !! data c = Some top ->
  dict_get "github" top = Some (VDict location) ->
  heap c !! location = Some section ->
  dict_get "token" section = Some (VStr token) ->
  token <> EmptyString ->
  display c
  = (Returned tt,
     {| heap := <[location := dict_put "token" (VStr (mask token)) section]>
                  (<[fresh (dom (heap c)) := top]> (heap c));
        data := data c |}).
Proof.
  intros Htop Hgithub Hsection Htoken Hne. unfold display.
  assert (Hfresh : heap c !! fresh (dom (heap c)) = None)
    by (apply not_elem_of_dom, is_fresh).
  assert (Hloc : fresh (dom (heap c)) <> location) by congruence.
  unfold deref. rewrite Htop. cbn [default from_option id].
  rewrite lookup_insert_eq. cbn [default from_option id]. rewrite Hgithub.
  unfold contains, deref, dict_mem.
  rewrite !lookup_insert_ne by exact Hloc. rewrite Hsection. cbn [default from_option id].
  rewrite Htoken. cbn [default from_option id truthy masked].
  destruct (String.eqb_spec token EmptyString); [contradiction|]. reflexivity.
Qed.

(** X29.  [display] masks the token in the configuration itself, not
    only in what it prints: the copy it works on shares the [github]
    section with the stored data.  For a token that is a non-empty
    string, [get('github.token')] gives the token before the call and
    the masked text ([***], or the first 8 and last 4 characters around
    [...]) after it; calling [display] again leaves the masked text. *)
Theorem display_masks_stored_token (c : config) (top section : object) (location : nat)
    (token : string) (default : value) :
  heap c !! data c = Some top ->
  dict_get "github" top = Some (VDict location) ->
  location <> data c ->
  heap c !! location = Some section ->
  dict_get "token" section = Some (VStr token) ->
  token <> EmptyString ->
  get c "github.token" default = VStr token /\
  (display c).1 = Returned tt /\
  get (display c).2 "github.token" default = VStr (mask token) /\
  (display (display c).2).1 = Returned tt /\
  get (display (display c).2).2 "github.token" default = VStr (mask token).
Proof.
  intros Htop Hgithub Hnot Hsection Htoken Hne.
  assert (Hfresh : heap c !! fresh (dom (heap c)) = None)
    by (apply not_elem_of_dom, is_fresh).
  assert (Hread : forall c' top' section' text,
             heap c' !! data c' = Some top' ->
             dict_get "github" top' = Some (VDict location) ->
             heap c' !! location = Some section' ->
             dict_get "token" section' = Some (VStr text) ->
             get c' "github.token" default = VStr text).
  { intros c' top' section' text H1 H2 H3 H4. unfold get.
    change (Configuration.split_dots "github.token") with ["github"; "token"]%string.
    cbn [get_from]. unfold deref. rewrite H1. cbn [from_option id].
    rewrite H2, H3. cbn [from_option id]. now rewrite H4. }
  assert (Hafter : forall c' top' section' text,
             heap c' !! data c' = Some top' ->
             dict_get "github" top' = Some (VDict location) ->
             location <> data c' ->
             heap c' !! location = Some section' ->
             dict_get "token" section' = Some (VStr text) ->
             text <> EmptyString ->
             heap (display c').2 !! data (display c').2 = Some top' /\
             heap (display c').2 !! location
             = Some (dict_put "token" (VStr (mask text)) section') /\
             (display c').1 = Returned tt).
  { intros c' top' section' text H1 H2 H3 H4 H5 H6.
    rewrite (display_masks c' top' section' location text H1 H2 H4 H5 H6). cbn [fst snd heap data].
    assert (heap c' !! fresh (dom (heap c')) = None) by (apply not_elem_of_dom, is_fresh).
    split; [|split; [|reflexivity]].
    - rewrite lookup_insert_ne by congruence. rewrite lookup_insert_ne by congruence.
      exact H1.
    - apply lookup_insert_eq. }
  destruct (Hafter c top section token Htop Hgithub Hnot Hsection Htoken Hne)
    as (Htop1 & Hsection1 & Hok1).
  assert (Htoken1 : dict_get "token" (dict_put "token" (VStr (mask token)) section)
                    = Some (VStr (mask token)))
    by (rewrite dict_get_after_put; reflexivity).
  assert (Hdata1 : data (display c).2 = data c)
    by (rewrite (display_masks c top section location token Htop Hgithub Hsection Htoken Hne);
        reflexivity).
  destruct (Hafter (display c).2 top _ (mask token) Htop1 Hgithub
              ltac:(now rewrite Hdata1) Hsection1 Htoken1 (mask_not_empty token))
    as (Htop2 & Hsection2 & Hok2).
  split; [exact (Hread c top section token Htop Hgithub Hsection Htoken)|].
  split; [exact Hok1|].
  split; [exact (Hread _ top _ (mask token) Htop1 Hgithub Hsection1 Htoken1)|].
  split; [exact Hok2|].
  rewrite <- (mask_mask token).
  apply (Hread _ top (dict_put "token" (VStr (mask (mask token)))
                        (dict_put "token" (VStr (mask token)) section)) (mask (mask token))
           Htop2 Hgithub Hsection2).
  rewrite dict_get_after_put. reflexivity.
Qed.

Lemma display_masks_stored_token_witness :
  get sample_config "github.token" VNone = VStr "ghp_0123456789abcdef" /\
  (display sample_config).1 = Returned tt /\
  get (display sample_config).2 "github.token" VNone = VStr (mask "ghp_0123456789abcdef") /\
  (display (display sample_config).2).1 = Returned tt /\
  get (display (display sample_config).2).2 "github.token" VNone
  = VStr (mask "ghp_0123456789abcdef").
Proof.
  apply (display_masks_stored_token sample_config
           [("github", VDict 1); ("mode", VStr "batch")]%string
           [("token", VStr "ghp_0123456789abcdef"); ("username", VStr "octocat")]%string
           1%nat "ghp_0123456789abcdef" VNone).
  - reflexivity.
  - reflexivity.
  - discriminate.
  - reflexivity.
  - reflexivity.
  - discriminate.
Defined.

End ConfigurationDisplay.
